(** * HireReadyAI backend: a shallow embedding of the scoring, catalogue and
      resume routines, and the properties their specification states.

    The Python sources embedded here are
    - [Backend/routers/interview.py]  (module [Interview]),
    - [Backend/routers/analyze.py]    (module [Analyze]),
    - [Backend/routers/resume.py]     (modules [Resume] and [ResumeParse]);
    the audio handler of [analyze.py] is module [AnalyzeAudio].

    Python values are modelled as follows.
    - [int] is [Z] (unbounded).
    - [float] is an IEEE-754 binary64 number, [spec_float] at precision 53 and
      maximal exponent 1024, with the operations of [SpecFloat].
    - [str] is [string]; a character stands for a code point below 256.
    - a raised exception is the [Raise] branch of [result].
    - the temporary files a handler creates and removes are a list of paths
      threaded through the handler; the speech recogniser and the document
      libraries are given by what they answer. *)

From Stdlib Require Import ZArith QArith Qabs List Bool Lia.
From Stdlib Require Import Ascii String DecimalString.
From Stdlib Require Import SpecFloat.
From Stdlib Require DecimalZ.
Import ListNotations.

Open Scope string_scope.
Open Scope Z_scope.

(** ** Exceptions and fallible computations *)

Inductive exn : Type :=
| NameError (name : string)
| ZeroDivisionError
| OverflowError
| ValueError
| HTTPException (status_code : Z) (detail : string).

Inductive result (A : Type) : Type :=
| Ok (a : A)
| Raise (e : exn).

Arguments Ok {A} a.
Arguments Raise {A} e.

Definition bind {A B : Type} (r : result A) (k : A -> result B) : result B :=
  match r with
  | Ok a => k a
  | Raise e => Raise e
  end.

Notation "x <- r ;; k" := (bind r (fun x => k))
  (at level 61, r at next level, right associativity).

(** What the web framework answers: the status of an [HTTPException], and 500
    for any other exception that escapes a handler. *)
Definition status_of_exn (e : exn) : Z :=
  match e with
  | HTTPException status_code _ => status_code
  | _ => 500
  end.

(** ** Strings *)

Module Str.

Definition code (c : ascii) : N := N_of_ascii c.

(** [str.lower] on one code point below 256: the ASCII capitals and the
    Latin-1 capitals U+00C0..U+00DE (the multiplication sign U+00D7 apart). *)
Definition lower_char (c : ascii) : ascii :=
  let n := code c in
  if (((65 <=? n) && (n <=? 90)) ||
      ((192 <=? n) && (n <=? 222) && negb (n =? 215)))%N
  then ascii_of_N (n + 32)
  else c.

Fixpoint lower (s : string) : string :=
  match s with
  | EmptyString => EmptyString
  | String c s' => String (lower_char c) (lower s')
  end.

(** [str.count(sub)]: occurrences found by a left-to-right scan that resumes
    after the end of each match. [skip] is the number of characters of the
    last match still to step over. *)
Fixpoint count_from (skip : nat) (sub s : string) : nat :=
  match s with
  | EmptyString => O
  | String _ s' =>
      match skip with
      | S k => count_from k sub s'
      | O =>
          if prefix sub s
          then S (count_from (String.length sub - 1) sub s')
          else count_from O sub s'
      end
  end.

Definition count (s sub : string) : Z :=
  match sub with
  | EmptyString => Z.of_nat (String.length s) + 1
  | _ => Z.of_nat (count_from O sub s)
  end.

(** Every position at which [sub] starts, overlapping matches included. *)
Fixpoint count_overlapping (sub s : string) : nat :=
  match s with
  | EmptyString => O
  | String _ s' =>
      ((if prefix sub s then 1 else 0) + count_overlapping sub s')%nat
  end.

(** [sub in s]. *)
Fixpoint contains (sub s : string) : bool :=
  match s with
  | EmptyString => prefix sub EmptyString
  | String _ s' => prefix sub s || contains sub s'
  end.

(** [str.isspace] on one code point below 256. *)
Definition isspace (c : ascii) : bool :=
  let n := code c in
  (((9 <=? n) && (n <=? 13)) || ((28 <=? n) && (n <=? 32)) ||
   (n =? 133) || (n =? 160))%N.

(** [str.split()] with no separator: [tok] is the token being read. *)
Fixpoint split_aux (tok s : string) : list string :=
  match s with
  | EmptyString =>
      match tok with
      | EmptyString => []
      | _ => [tok]
      end
  | String c s' =>
      if isspace c then
        match tok with
        | EmptyString => split_aux EmptyString s'
        | _ => tok :: split_aux EmptyString s'
        end
      else split_aux (tok ++ String c EmptyString) s'
  end.

Definition split (s : string) : list string := split_aux EmptyString s.

(** [str(n)] for an [int]. *)
Definition of_int (n : Z) : string := NilZero.string_of_int (Z.to_int n).

End Str.

(** ** Floats and numbers *)

Module Float.

Definition prec : Z := 53.
Definition emax : Z := 1024.

Definition float : Type := spec_float.

(** The float nearest to an integer (ties to even); infinite when the integer
    is out of range. Exact below 2^53, hence for every literal of the code. *)
Definition of_Z (z : Z) : float := binary_normalize prec emax z 0 false.

(** The literal [0.5]. *)
Definition half : float := binary_normalize prec emax 1 (-1) false.

(** Conversion of an [int] operand of a float operation. *)
Definition of_int (z : Z) : result float :=
  match of_Z z with
  | S754_infinity _ => Raise OverflowError
  | f => Ok f
  end.

Definition is_zero (f : float) : bool :=
  match f with
  | S754_zero _ => true
  | _ => false
  end.

Definition add (a b : float) : float := SFadd prec emax a b.
Definition sub (a b : float) : float := SFsub prec emax a b.
Definition mul (a b : float) : float := SFmul prec emax a b.
Definition ltb (a b : float) : bool := SFltb a b.
Definition leb (a b : float) : bool := SFleb a b.

(** [a / b] on floats. *)
Definition truediv (a b : float) : result float :=
  if is_zero b then Raise ZeroDivisionError else Ok (SFdiv prec emax a b).

(** [a / b] on two [int]s: the float nearest to the exact quotient. *)
Definition int_truediv (a b : Z) : result float :=
  match b with
  | Z0 => Raise ZeroDivisionError
  | _ =>
      match a with
      | Z0 => Ok (S754_zero (b <? 0))
      | _ =>
          match SFdiv prec emax
                  (S754_finite (a <? 0) (Z.to_pos (Z.abs a)) 0)
                  (S754_finite (b <? 0) (Z.to_pos (Z.abs b)) 0) with
          | S754_infinity _ => Raise OverflowError
          | f => Ok f
          end
      end
  end.

(** The integer nearest to [n / d] for [0 <= n] and [0 < d], ties to even. *)
Definition round_half_even (n d : Z) : Z :=
  let q := n / d in
  let r := n mod d in
  match 2 * r ?= d with
  | Lt => q
  | Gt => q + 1
  | Eq => if Z.even q then q else q + 1
  end.

Definition cond_opp (s : bool) (z : Z) : Z := if s then - z else z.

(** [round(x)] with one argument: an [int], ties to even. *)
Definition round (x : float) : result Z :=
  match x with
  | S754_nan => Raise ValueError
  | S754_infinity _ => Raise OverflowError
  | S754_zero _ => Ok 0
  | S754_finite s m e =>
      Ok (cond_opp s
            (if 0 <=? e then Zpos m * 2 ^ e
             else round_half_even (Zpos m) (2 ^ (- e))))
  end.

(** [round(x, 1)]: the float nearest to the multiple of 1/10 nearest to [x]
    (ties to even at both steps). An integral [x] is its own rounding. *)
Definition round1 (x : float) : result float :=
  match x with
  | S754_finite s m e =>
      if 0 <=? e then Ok x
      else
        match round_half_even (10 * Zpos m) (2 ^ (- e)) with
        | Zpos n =>
            match SFdiv prec emax (S754_finite s n 0) (of_Z 10) with
            | S754_infinity _ => Raise OverflowError
            | f => Ok f
            end
        | _ => Ok (S754_zero s)
        end
  | _ => Ok x
  end.

End Float.

(** A Python number: the words-per-minute value is the [int] [0] on one branch
    and a [float] on the other. *)
Inductive num : Type :=
| Int (z : Z)
| Float (f : Float.float).

Module Num.

(** [k <= x], [x <= k], [k < x] and [x < k] for an [int] literal [k]. *)
Definition int_le (k : Z) (x : num) : bool :=
  match x with
  | Int z => k <=? z
  | Float f => Float.leb (Float.of_Z k) f
  end.

Definition le_int (x : num) (k : Z) : bool :=
  match x with
  | Int z => z <=? k
  | Float f => Float.leb f (Float.of_Z k)
  end.

Definition int_lt (k : Z) (x : num) : bool :=
  match x with
  | Int z => k <? z
  | Float f => Float.ltb (Float.of_Z k) f
  end.

Definition lt_int (x : num) (k : Z) : bool :=
  match x with
  | Int z => z <? k
  | Float f => Float.ltb f (Float.of_Z k)
  end.

(** [round(x, 1)]: an [int] is returned unchanged. *)
Definition round1 (x : num) : result num :=
  match x with
  | Int z => Ok (Int z)
  | Float f => f' <- Float.round1 f ;; Ok (Float f')
  end.

End Num.

(** ** Dictionaries with string keys, as association lists in source order *)

Module Dict.

Fixpoint lookup {V : Type} (d : list (string * V)) (k : string) : option V :=
  match d with
  | [] => None
  | (k', v) :: d' => if String.eqb k k' then Some v else lookup d' k
  end.

(** [d.get(k, default)] for a key that may be [None]. *)
Definition get {V : Type} (d : list (string * V)) (k : option string)
  (default : V) : V :=
  match k with
  | Some k' =>
      match lookup d k' with
      | Some v => v
      | None => default
      end
  | None => default
  end.

(** [k in d]. *)
Definition mem {V : Type} (d : list (string * V)) (k : string) : bool :=
  match lookup d k with
  | Some _ => true
  | None => false
  end.

Definition keys {V : Type} (d : list (string * V)) : list string :=
  map fst d.

End Dict.

(** ** routers/interview.py *)

Module Interview.

Definition QUESTION_BANK : list (string * list string) :=
  [ ("Software Engineer",
     [ "Tell me about yourself and your software engineering background.";
       "Describe a challenging technical problem you solved recently.";
       "How do you ensure code quality in your projects?";
       "Explain the difference between REST and GraphQL APIs.";
       "How do you approach system design for a scalable application?";
       "Describe your experience with version control and CI/CD pipelines.";
       "How do you handle disagreements with your team about technical decisions?";
       "Where do you see yourself in 5 years as an engineer?" ]);
    ("Frontend Developer",
     [ "Tell me about your experience with React or other frontend frameworks.";
       "How do you optimize a slow-loading web page?";
       "Explain the difference between CSS Grid and Flexbox.";
       "How do you handle state management in large applications?";
       "Describe a complex UI you've built from scratch.";
       "How do you ensure accessibility in your web projects?";
       "What is your approach to responsive design?";
       "How do you stay up to date with frontend trends?" ]);
    ("Data Scientist",
     [ "Walk me through a machine learning project you've worked on.";
       "How do you handle missing data in a dataset?";
       "Explain the difference between supervised and unsupervised learning.";
       "How do you evaluate a model's performance?";
       "Describe your experience with Python data libraries like pandas or NumPy.";
       "What is overfitting and how do you prevent it?";
       "How would you explain a complex model to a non-technical stakeholder?";
       "Describe your experience with data visualization." ]);
    ("Product Manager",
     [ "Tell me about a product you successfully launched.";
       "How do you prioritize features in a product roadmap?";
       "Describe how you gather and analyze user feedback.";
       "How do you handle conflicts between engineering and business needs?";
       "Walk me through how you define product requirements.";
       "How do you measure the success of a product feature?";
       "Describe a time you made a data-driven product decision.";
       "Where do you see the future of this product going?" ]);
    ("DevOps Engineer",
     [ "Describe your experience with containerization tools like Docker or Kubernetes.";
       "How do you design a CI/CD pipeline from scratch?";
       "What strategies do you use for monitoring and alerting?";
       "How do you handle infrastructure as code?";
       "Describe a production incident you resolved and how you handled it.";
       "How do you ensure security in a cloud environment?";
       "What is your approach to disaster recovery planning?";
       "How do you balance speed and stability in deployments?" ]) ].

Definition DEFAULT_QUESTIONS : list string :=
  Dict.get QUESTION_BANK (Some "Software Engineer") [].

(** The names bound at module level when a handler runs: the three imports
    ([from fastapi import APIRouter, Query] and
    [from typing import Optional]) and the module's own definitions. *)
Definition module_globals : list string :=
  [ "APIRouter"; "Query"; "Optional"; "router"; "QUESTION_BANK";
    "DEFAULT_QUESTIONS"; "get_questions"; "get_single_question";
    "get_roles" ].

(** Evaluating a global name that is no builtin, in a module that binds the
    names [globals]: [NameError] when the name is not among them. *)
Definition load_global (globals : list string) (name : string)
  : result unit :=
  if existsb (String.eqb name) globals then Ok tt
  else Raise (NameError name).

Record questions_payload : Type := {
  qs_role : option string;
  qs_total : Z;
  qs_questions : list string
}.

Record question_payload : Type := {
  q_role : option string;
  q_index : Z;
  q_total : Z;
  q_question : string;
  q_is_last : bool
}.

(** What a handler returns: a dictionary the framework sends with status 200,
    or a response object with a status of its own. *)
Inductive response : Type :=
| Question (p : question_payload)
| ErrorResponse (status_code : Z) (error : string).

Definition len (l : list string) : Z := Z.of_nat (List.length l).

Definition get_questions (role : option string) : questions_payload :=
  let questions := Dict.get QUESTION_BANK role DEFAULT_QUESTIONS in
  {| qs_role := role; qs_total := len questions; qs_questions := questions |}.

(** The body of [get_single_question], run in a module that binds
    [globals]. *)
Definition get_single_question_in (globals : list string) (index : Z)
  (role : option string) : result response :=
  let questions := Dict.get QUESTION_BANK role DEFAULT_QUESTIONS in
  if (index <? 0) || (index >=? len questions) then
    _ <- load_global globals "JSONResponse" ;;
    Ok (ErrorResponse 404
          ("Question index " ++ Str.of_int index ++ " out of range. Total: "
             ++ Str.of_int (len questions)))
  else
    Ok (Question
          {| q_role := role;
             q_index := index;
             q_total := len questions;
             q_question := nth (Z.to_nat index) questions "";
             q_is_last := index =? len questions - 1 |}).

Definition get_single_question (index : Z) (role : option string)
  : result response :=
  get_single_question_in module_globals index role.

Definition get_roles : list string := Dict.keys QUESTION_BANK.

(** The status the client sees. *)
Definition status_of (r : result response) : Z :=
  match r with
  | Ok (Question _) => 200
  | Ok (ErrorResponse status_code _) => status_code
  | Raise e => status_of_exn e
  end.

End Interview.

(** ** routers/analyze.py *)

Module Analyze.

Record breakdown : Type := {
  length_score : Z;
  pace_score : Z;
  filler_penalty : Z;
  words_per_minute : num;
  filler_count : Z
}.

Record score_result : Type := {
  confidence_score : Z;
  rating : string;
  score_breakdown : breakdown
}.

(** *** [calculate_confidence_score], statement by statement *)

Definition length_score_of (word_count : Z) : Z :=
  if word_count <? 10 then 20
  else if word_count <? 30 then 45
  else if word_count <? 50 then 65
  else if word_count <=? 150 then 90
  else if word_count <=? 250 then 75
  else 55.

Definition wpm_of (duration_seconds : Float.float) (word_count : Z)
  : result num :=
  if Float.ltb (Float.of_Z 0) duration_seconds then
    w <- Float.of_int word_count ;;
    q <- Float.truediv w duration_seconds ;;
    Ok (Float (Float.mul q (Float.of_Z 60)))
  else Ok (Int 0).

Definition pace_score_of (wpm : num) : Z :=
  if Num.int_le 120 wpm && Num.le_int wpm 160 then 100
  else if (Num.int_le 90 wpm && Num.lt_int wpm 120)
          || (Num.int_lt 160 wpm && Num.le_int wpm 190) then 80
  else if (Num.int_le 60 wpm && Num.lt_int wpm 90)
          || (Num.int_lt 190 wpm && Num.le_int wpm 220) then 60
  else 40.

Definition filler_words : list string :=
  [ "um"; "uh"; "like"; "you know"; "basically"; "literally"; "actually";
    "so so"; "kinda" ].

Definition sum (l : list Z) : Z := fold_left Z.add l 0.

Definition filler_count_of (transcript : string) : Z :=
  sum (map (fun fw => Str.count (Str.lower transcript) fw) filler_words).

Definition filler_penalty_of (filler_count : Z) : Z :=
  Z.min (filler_count * 3) 20.

(** [(length_score * 0.5) + (pace_score * 0.5) - filler_penalty] *)
Definition raw_score_of (length_score pace_score filler_penalty : Z)
  : result Float.float :=
  l <- Float.of_int length_score ;;
  p <- Float.of_int pace_score ;;
  f <- Float.of_int filler_penalty ;;
  Ok (Float.sub (Float.add (Float.mul l Float.half) (Float.mul p Float.half))
        f).

(** [max(10, min(100, round(raw_score)))] *)
Definition final_score_of (raw_score : Float.float) : result Z :=
  r <- Float.round raw_score ;;
  Ok (Z.max 10 (Z.min 100 r)).

Definition rating_of (score : Z) : string :=
  if score >=? 85 then "Excellent"
  else if score >=? 70 then "Good"
  else if score >=? 50 then "Average"
  else "Needs Improvement".

Definition calculate_confidence_score (transcript : string)
  (duration_seconds : Float.float) (word_count : Z) : result score_result :=
  let length_score := length_score_of word_count in
  wpm <- wpm_of duration_seconds word_count ;;
  let pace_score := pace_score_of wpm in
  let filler_count := filler_count_of transcript in
  let filler_penalty := filler_penalty_of filler_count in
  raw_score <- raw_score_of length_score pace_score filler_penalty ;;
  final_score <- final_score_of raw_score ;;
  let rating := rating_of final_score in
  wpm1 <- Num.round1 wpm ;;
  Ok {| confidence_score := final_score;
        rating := rating;
        score_breakdown :=
          {| length_score := length_score;
             pace_score := pace_score;
             filler_penalty := filler_penalty;
             words_per_minute := wpm1;
             filler_count := filler_count |} |}.

(** *** [analyze_text] *)

Record analysis : Type := {
  a_question_index : Z;
  a_transcript : string;
  a_word_count : Z;
  a_duration_seconds : Float.float;
  a_score : score_result
}.

Definition analyze_text (transcript : string) (duration : Float.float)
  (question_index : Z) : result analysis :=
  let word_count := Z.of_nat (List.length (Str.split transcript)) in
  confidence_data <- calculate_confidence_score transcript duration word_count ;;
  Ok {| a_question_index := question_index;
        a_transcript := transcript;
        a_word_count := word_count;
        a_duration_seconds := duration;
        a_score := confidence_data |}.

(** *** [generate_report] *)

(** One element of the request body: the keys the handler reads, and the
    transcript the docstring lists. *)
Module Entry.

Record t : Type := {
  question_index : Z;
  confidence_score : Z;
  transcript : string
}.

End Entry.

Definition score_entry : Type := Entry.t.

Record answer_ref : Type := {
  ref_question_index : Z;
  ref_score : Z
}.

Record report : Type := {
  overall_score : Z;
  overall_rating : string;
  summary : string;
  total_questions : Z;
  best_answer : answer_ref;
  weakest_answer : answer_ref;
  per_question : list score_entry
}.

(** [max(x :: l, key=key)] and [min(x :: l, key=key)]: the running best is
    replaced only by a strictly better element. *)
Fixpoint max_from {A : Type} (key : A -> Z) (best : A) (l : list A) : A :=
  match l with
  | [] => best
  | x :: l' => max_from key (if key best <? key x then x else best) l'
  end.

Fixpoint min_from {A : Type} (key : A -> Z) (best : A) (l : list A) : A :=
  match l with
  | [] => best
  | x :: l' => min_from key (if key x <? key best then x else best) l'
  end.

Definition summary_of (avg_score : Z) : string :=
  if avg_score >=? 85 then
    "Outstanding performance! You demonstrated strong communication, clarity, and confidence throughout the interview."
  else if avg_score >=? 70 then
    "Solid performance overall. You showed good communication skills with some room to improve depth and fluency."
  else if avg_score >=? 50 then
    "Decent attempt. Focus on reducing filler words, increasing answer depth, and maintaining a steady speaking pace."
  else
    "Keep practicing! Work on structuring your answers using the STAR method and building confidence in delivery.".

Definition ref_of (s : score_entry) : answer_ref :=
  {| ref_question_index := Entry.question_index s;
     ref_score := Entry.confidence_score s |}.

Definition generate_report (scores : list score_entry) : result report :=
  match scores with
  | [] => Raise (HTTPException 400 "No scores provided.")
  | s0 :: rest =>
      mean <- Float.int_truediv (sum (map Entry.confidence_score scores))
                (Z.of_nat (List.length scores)) ;;
      avg_score <- Float.round mean ;;
      let best := max_from Entry.confidence_score s0 rest in
      let worst := min_from Entry.confidence_score s0 rest in
      Ok {| overall_score := avg_score;
            overall_rating := rating_of avg_score;
            summary := summary_of avg_score;
            total_questions := Z.of_nat (List.length scores);
            best_answer := ref_of best;
            weakest_answer := ref_of worst;
            per_question := scores |}
  end.

End Analyze.

(** ** routers/resume.py *)

Module Resume.

Definition TECH_SKILLS : list string :=
  [ "python"; "javascript"; "typescript"; "java"; "c++"; "c#"; "go"; "rust";
    "ruby"; "php"; "swift"; "kotlin"; "scala"; "r"; "matlab";
    "react"; "vue"; "angular"; "next.js"; "tailwind"; "html"; "css"; "sass";
    "redux"; "graphql"; "webpack";
    "fastapi"; "django"; "flask"; "node.js"; "express"; "spring"; "rails";
    "rest api"; "microservices";
    "pandas"; "numpy"; "tensorflow"; "pytorch"; "scikit-learn"; "keras";
    "machine learning"; "deep learning"; "nlp"; "computer vision";
    "data science"; "sql"; "postgresql"; "mysql"; "mongodb"; "redis";
    "docker"; "kubernetes"; "aws"; "gcp"; "azure"; "ci/cd"; "jenkins";
    "github actions"; "terraform"; "linux"; "git";
    "agile"; "scrum"; "jira"; "figma"; "adobe xd" ].

Definition SOFT_SKILLS : list string :=
  [ "leadership"; "communication"; "teamwork"; "problem solving";
    "critical thinking"; "time management"; "collaboration"; "mentoring";
    "public speaking"; "project management" ].

Record skills : Type := {
  technical : list string;
  soft : list string;
  all : list string
}.

Definition extract_skills (text : string) : skills :=
  let text_lower := Str.lower text in
  let found_tech :=
    filter (fun skill => Str.contains skill text_lower) TECH_SKILLS in
  let found_soft :=
    filter (fun skill => Str.contains skill text_lower) SOFT_SKILLS in
  {| technical := found_tech;
     soft := found_soft;
     all := found_tech ++ found_soft |}.

Record personalized : Type := {
  skill : string;
  question : string;
  type : string
}.

(** The table local to [generate_personalized_questions]. The dash in the
    "machine learning" entry is U+2014, kept as the source file encodes it. *)
Definition skill_questions : list (string * string) :=
  [ ("python", "Can you walk me through a Python project where you used advanced features like decorators or async programming?");
    ("react", "How have you managed complex state in a large React application?");
    ("machine learning", "Describe a machine learning model you built end to end — from data to deployment.");
    ("docker", "How have you used Docker in your development or deployment workflow?");
    ("sql", "Can you explain a time you optimized a slow SQL query?");
    ("aws", "What AWS services have you used and what were the use cases?");
    ("leadership", "Tell me about a time you led a team through a difficult project.");
    ("typescript", "How has TypeScript improved the quality of your JavaScript projects?");
    ("fastapi", "Describe an API you built with FastAPI. What design decisions did you make?");
    ("django", "What's your approach to structuring a Django project for scalability?");
    ("kubernetes", "How have you used Kubernetes to manage containerized applications?");
    ("tensorflow", "Walk me through a neural network you trained using TensorFlow.");
    ("communication", "Give an example of how you communicated a complex technical concept to a non-technical stakeholder.") ].

(** The loop over [skills[:5]]: one entry per skill that is a key of the
    table, appended in turn. *)
Fixpoint skill_specific (top : list string) : list personalized :=
  match top with
  | [] => []
  | skill :: top' =>
      match Dict.lookup skill_questions skill with
      | Some q =>
          {| skill := skill; question := q; type := "skill-specific" |}
            :: skill_specific top'
      | None => skill_specific top'
      end
  end.

Definition role_question (role : string) : personalized :=
  {| skill := "general";
     question :=
       "What excites you most about this " ++ role
         ++ " role, and what unique value do you bring?";
     type := "motivational" |}.

Definition generate_personalized_questions (skills : list string)
  (role : string) : list personalized :=
  (skill_specific (firstn 5 skills) ++ [role_question role])%list.

End Resume.

(** ** The specification's wording, as definitions of its own *)

Module Spec.

(** Section 4.2, length score: the six bands, each with both of its bounds. *)
Definition length_score (word_count : Z) : Z :=
  if word_count <? 10 then 20
  else if (10 <=? word_count) && (word_count <? 30) then 45
  else if (30 <=? word_count) && (word_count <? 50) then 65
  else if (50 <=? word_count) && (word_count <=? 150) then 90
  else if (151 <=? word_count) && (word_count <=? 250) then 75
  else 55.

(** Section 4.2, pace score: the bands over the words per minute,
    [120,160] for 100, then [90,120) or (160,190] for 80, then [60,90) or
    (190,220] for 60, and 40 outside them. *)
Definition pace_score (wpm : num) : Z :=
  if Num.int_le 120 wpm && Num.le_int wpm 160 then 100
  else if (Num.int_le 90 wpm && Num.lt_int wpm 120)
          || (Num.int_lt 160 wpm && Num.le_int wpm 190) then 80
  else if (Num.int_le 60 wpm && Num.lt_int wpm 90)
          || (Num.int_lt 190 wpm && Num.le_int wpm 220) then 60
  else 40.

(** Section 4.2, rating thresholds. *)
Definition rating (score : Z) : string :=
  if 85 <=? score then "Excellent"
  else if 70 <=? score then "Good"
  else if 50 <=? score then "Average"
  else "Needs Improvement".

(** Section 4.2, the clamp of the final score. *)
Definition clamp (lo hi x : Z) : Z :=
  if x <? lo then lo else if hi <? x then hi else x.

(** Section 4.2, the raw score as a rational number. *)
Definition raw_score (length_score pace_score filler_penalty : Z) : Q :=
  ((1 # 2) * inject_Z length_score + (1 # 2) * inject_Z pace_score
   - inject_Z filler_penalty)%Q.

(** [z] is [x] rounded to the nearest integer, a tie going to the even
    neighbour. *)
Definition rounds_to (x : Q) (z : Z) : Prop :=
  (Qabs (x - inject_Z z) <= 1 # 2)%Q /\
  ((Qabs (x - inject_Z z) == 1 # 2)%Q -> Z.even z = true).

(** The mean of a non-empty list of integers. *)
Definition mean (l : list Z) : Q :=
  (inject_Z (Analyze.sum l) / inject_Z (Z.of_nat (List.length l)))%Q.

(** A float whose mantissa fits the 53 bits of the format. *)
Definition mantissa_53 (x : Float.float) : Prop :=
  match x with
  | S754_finite _ m _ => Zpos (digits2_pos m) <= 53
  | _ => True
  end.

(** The whitespace characters below code point 256, by code point: tab, line
    feed, vertical tab, form feed, carriage return, the four separators
    U+001C to U+001F, the space, next line U+0085 and the no-break space
    U+00A0. *)
Definition whitespace : list N := [9; 10; 11; 12; 13; 28; 29; 30; 31; 32; 133; 160]%N.

Definition is_whitespace (c : ascii) : bool :=
  existsb (N.eqb (Str.code c)) whitespace.

(** Whitespace-delimited tokens: a token starts at every character that is not
    whitespace and stands first or after a whitespace character. *)
Fixpoint word_starts (after_space : bool) (s : string) : nat :=
  match s with
  | EmptyString => O
  | String c s' =>
      if Str.isspace c then word_starts true s'
      else ((if after_space then 1 else 0) + word_starts false s')%nat
  end.

Definition word_count (s : string) : Z := Z.of_nat (word_starts true s).

(** [s] consists of whitespace only. *)
Fixpoint all_space (s : string) : bool :=
  match s with
  | EmptyString => true
  | String c s' => Str.isspace c && all_space s'
  end.

Definition wpm_mantissa_53 (wpm : num) : Prop :=
  match wpm with
  | Int _ => True
  | Float f => mantissa_53 f
  end.

(** No character of [s] is whitespace. *)
Fixpoint no_space (s : string) : bool :=
  match s with
  | EmptyString => true
  | String c s' => negb (Str.isspace c) && no_space s'
  end.

(** [sub] occurs in [s] as a substring. *)
Definition occurs_in (sub s : string) : Prop :=
  exists before after, s = before ++ sub ++ after.

(** The capital letters below code point 256: [A] to [Z], and U+00C0 to
    U+00DE without the multiplication sign U+00D7. The small letter of a
    capital stands 32 code points after it. *)
Definition is_capital (c : ascii) : bool :=
  let n := Str.code c in
  (((65 <=? n) && (n <=? 90)) ||
   ((192 <=? n) && (n <=? 222) && negb (n =? 215)))%N.

(** The same character, or a capital and its small letter. *)
Definition same_letter (c1 c2 : ascii) : bool :=
  Ascii.eqb c1 c2
  || (is_capital c1 && (Str.code c2 =? Str.code c1 + 32)%N)
  || (is_capital c2 && (Str.code c1 =? Str.code c2 + 32)%N).

(** Two texts that differ in the case of their letters only. *)
Inductive case_variant : string -> string -> Prop :=
| cv_nil : case_variant EmptyString EmptyString
| cv_cons c1 c2 s1 s2 :
    same_letter c1 c2 = true ->
    case_variant s1 s2 ->
    case_variant (String c1 s1) (String c2 s2).

(** No character of [s] is a capital letter. *)
Fixpoint no_capital (s : string) : bool :=
  match s with
  | EmptyString => true
  | String c s' => negb (is_capital c) && no_capital s'
  end.

(** [l1] is [l2] with some elements left out, the others in their order. *)
Inductive subsequence {A : Type} : list A -> list A -> Prop :=
| sub_nil : subsequence [] []
| sub_skip x l1 l2 : subsequence l1 l2 -> subsequence l1 (x :: l2)
| sub_keep x l1 l2 : subsequence l1 l2 -> subsequence (x :: l1) (x :: l2).

(** [s] without its first [n] characters. *)
Fixpoint drop (n : nat) (s : string) : string :=
  match n, s with
  | O, _ => s
  | S n', String _ s' => drop n' s'
  | S _, EmptyString => EmptyString
  end.

(** No proper suffix of [sub] is a prefix of [sub]: two occurrences of [sub]
    cannot overlap. *)
Definition border_free (sub : string) : bool :=
  forallb (fun k => negb (prefix (drop k sub) sub))
    (seq 1 (String.length sub - 1)).

(** Total number of occurrences of the filler phrases in the lowercased
    transcript, overlapping occurrences of one phrase counted each. *)
Definition filler_occurrences (transcript : string) : Z :=
  Analyze.sum
    (map (fun fw =>
            Z.of_nat (Str.count_overlapping fw (Str.lower transcript)))
       Analyze.filler_words).

(** [i] is the first position of [l] whose key is maximal (resp. minimal). *)
Definition first_max {A : Type} (key : A -> Z) (l : list A) (i : nat) (x : A)
  : Prop :=
  nth_error l i = Some x /\
  (forall y, In y l -> key y <= key x) /\
  (forall j y, (j < i)%nat -> nth_error l j = Some y -> key y < key x).

Definition first_min {A : Type} (key : A -> Z) (l : list A) (i : nat) (x : A)
  : Prop :=
  nth_error l i = Some x /\
  (forall y, In y l -> key x <= key y) /\
  (forall j y, (j < i)%nat -> nth_error l j = Some y -> key x < key y).

End Spec.

(** ** Slices, stripping and conversion of digits *)

Module Slice.

(** [s[:n]] and [s[n:]] for [0 <= n]. *)
Fixpoint upto (n : nat) (s : string) : string :=
  match n, s with
  | S n', String c s' => String c (upto n' s')
  | _, _ => EmptyString
  end.

Fixpoint from (n : nat) (s : string) : string :=
  match n, s with
  | S n', String _ s' => from n' s'
  | _, _ => s
  end.

(** [str.lstrip()], [str.rstrip()] and [str.strip()] with no argument. *)
Fixpoint lstrip (s : string) : string :=
  match s with
  | String c s' => if Str.isspace c then lstrip s' else s
  | EmptyString => EmptyString
  end.

Fixpoint rstrip (s : string) : string :=
  match s with
  | String c s' =>
      match rstrip s' with
      | EmptyString => if Str.isspace c then EmptyString else String c EmptyString
      | rest => String c rest
      end
  | EmptyString => EmptyString
  end.

Definition strip (s : string) : string := rstrip (lstrip s).

(** [separator.join(parts)]. *)
Fixpoint join (separator : string) (parts : list string) : string :=
  match parts with
  | [] => EmptyString
  | [part] => part
  | part :: rest => part ++ separator ++ join separator rest
  end.

(** The default of [sys.get_int_max_str_digits()]. *)
Definition int_max_str_digits : nat := 4300.

(** [int(s)] for a string [s] of decimal digits: [ValueError] past the digit
    limit of the interpreter, and for a string that is no number. *)
Definition int_of_digits (s : string) : result Z :=
  if (int_max_str_digits <? String.length s)%nat then Raise ValueError
  else
    match NilZero.int_of_string s with
    | Some d => Ok (Z.of_int d)
    | None => Raise ValueError
    end.

End Slice.

(** ** The fragment of [re] that the patterns of [resume.py] use *)

Module Re.

Inductive atom : Type :=
| Lit (c : ascii)
| Digit
| Space
| AnyOf (cs : list ascii).

(** [\d] and [\s] on code points below 256. *)
Definition atom_matches (a : atom) (c : ascii) : bool :=
  match a with
  | Lit c' => Ascii.eqb c c'
  | Digit => ((48 <=? Str.code c) && (Str.code c <=? 57))%N
  | Space => Str.isspace c
  | AnyOf cs => existsb (Ascii.eqb c) cs
  end.

(** The greedy quantifiers: none, [?], [*] and [+]. *)
Inductive quantifier : Type := One | Optional | ZeroOrMore | OneOrMore.

(** A quantified atom; [in_group] when it is wrapped in the capturing
    group. *)
Record piece : Type := {
  p_atom : atom;
  p_quantifier : quantifier;
  in_group : bool
}.

Definition pattern : Type := list piece.

Definition item (a : atom) (q : quantifier) : piece :=
  {| p_atom := a; p_quantifier := q; in_group := false |}.

Definition group (a : atom) (q : quantifier) : piece :=
  {| p_atom := a; p_quantifier := q; in_group := true |}.

Fixpoint literal (s : string) : pattern :=
  match s with
  | EmptyString => []
  | String c s' => item (Lit c) One :: literal s'
  end.

(** A greedy repetition of [a]: it takes as many characters as it can and
    gives them back one by one while the rest of the pattern, [k], fails.
    [taken] is the text the repetition has matched so far. *)
Fixpoint greedy (a : atom) (k : string -> string -> option string)
  (s : string) (taken : string) : option string :=
  match s with
  | String c s' =>
      if atom_matches a c then
        match greedy a k s' (taken ++ String c EmptyString) with
        | Some g => Some g
        | None => k s taken
        end
      else k s taken
  | EmptyString => k s taken
  end.

(** Matching [p] at the start of [s] by backtracking. The result is the text
    of the group. *)
Fixpoint match_here (p : pattern) (s : string) (captured : string)
  : option string :=
  match p with
  | [] => Some captured
  | pc :: p' =>
      let rest s taken :=
        match_here p' s (if in_group pc then taken else captured) in
      match p_quantifier pc with
      | One =>
          match s with
          | String c s' =>
              if atom_matches (p_atom pc) c
              then rest s' (String c EmptyString)
              else None
          | EmptyString => None
          end
      | Optional =>
          match s with
          | String c s' =>
              if atom_matches (p_atom pc) c then
                match rest s' (String c EmptyString) with
                | Some g => Some g
                | None => rest s EmptyString
                end
              else rest s EmptyString
          | EmptyString => rest s EmptyString
          end
      | ZeroOrMore => greedy (p_atom pc) rest s EmptyString
      | OneOrMore =>
          match s with
          | String c s' =>
              if atom_matches (p_atom pc) c
              then greedy (p_atom pc) rest s' (String c EmptyString)
              else None
          | EmptyString => None
          end
      end
  end.

(** [re.search(p, s)]: the match at the leftmost position that has one. *)
Fixpoint search (p : pattern) (s : string) : option string :=
  match match_here p s EmptyString with
  | Some g => Some g
  | None =>
      match s with
      | EmptyString => None
      | String _ s' => search p s'
      end
  end.

End Re.

(** ** Paths and temporary files *)

Module Path.

Inductive platform : Type := Posix | Windows.

(** [os.sep] and [os.altsep]. *)
Definition is_sep (os : platform) (c : ascii) : bool :=
  match os with
  | Posix => Ascii.eqb c "/"
  | Windows => Ascii.eqb c "\" || Ascii.eqb c "/"
  end.

(** The last index at which [p] holds, or -1; [i] is the index of the first
    character of [s]. *)
Fixpoint rfind_from (i : Z) (p : ascii -> bool) (s : string) (last : Z) : Z :=
  match s with
  | EmptyString => last
  | String c s' => rfind_from (i + 1) p s' (if p c then i else last)
  end.

Definition rfind (p : ascii -> bool) (s : string) : Z :=
  rfind_from 0 p s (-1).

(** The loop of [genericpath._splitext] that skips leading dots: is there a
    character other than a dot among the [n] characters of [s]? *)
Fixpoint not_all_dots (n : nat) (s : string) : bool :=
  match n, s with
  | S n', String c s' => negb (Ascii.eqb c ".") || not_all_dots n' s'
  | _, _ => false
  end.

(** [os.path.splitext(p)] *)
Definition splitext (os : platform) (p : string) : string * string :=
  let sepIndex := rfind (is_sep os) p in
  let dotIndex := rfind (fun c => Ascii.eqb c ".") p in
  if (sepIndex <? dotIndex)
     && not_all_dots (Z.to_nat (dotIndex - (sepIndex + 1)))
          (Slice.from (Z.to_nat (sepIndex + 1)) p)
  then (Slice.upto (Z.to_nat dotIndex) p, Slice.from (Z.to_nat dotIndex) p)
  else (p, EmptyString).

End Path.

Module Fs.

(** The temporary files that exist, by path. *)
Definition t : Type := list string.

(** [tempfile.NamedTemporaryFile(delete=False)] under the name the system
    picked, and [os.unlink]. *)
Definition create (path : string) (files : t) : t := path :: files.

Definition unlink (path : string) (files : t) : t :=
  remove string_dec path files.

End Fs.

(** ** routers/analyze.py: [analyze_audio] *)

Module AnalyzeAudio.

(** What the speech recogniser did with the uploaded audio: the transcript,
    or the exception that left the [try] block. *)
Inductive recognition : Type :=
| Recognized (transcript : string)
| UnknownValueError
| RequestError (e : string)
| OtherException.

(** The handler, threaded through the temporary files. [tmp_path] is the name
    the system gave the temporary file. *)
Definition analyze_audio (outcome : recognition) (tmp_path : string)
  (duration : Float.float) (question_index : Z) (files : Fs.t)
  : result Analyze.analysis * Fs.t :=
  let files := Fs.create tmp_path files in
  let attempt : result (string * Z) :=
    match outcome with
    | Recognized transcript =>
        Ok (transcript, Z.of_nat (List.length (Str.split transcript)))
    | UnknownValueError => Ok (EmptyString, 0)
    | RequestError e =>
        Raise (HTTPException 503
                 ("Speech recognition service unavailable: " ++ e))
    | OtherException => Ok (EmptyString, 0)
    end in
  let files := Fs.unlink tmp_path files in
  (tw <- attempt ;;
   confidence_data <-
     Analyze.calculate_confidence_score (fst tw) duration (snd tw) ;;
   Ok {| Analyze.a_question_index := question_index;
         Analyze.a_transcript := fst tw;
         Analyze.a_word_count := snd tw;
         Analyze.a_duration_seconds := duration;
         Analyze.a_score := confidence_data |},
   files).

End AnalyzeAudio.

(** ** routers/resume.py: experience, parsing and the two handlers *)

Module ResumeParse.

(** The three patterns of [extract_experience_years]. *)
Definition digits_group : Re.pattern := [Re.group Re.Digit Re.OneOrMore].
Definition optional_plus : Re.pattern := [Re.item (Re.Lit "+") Re.Optional].
Definition spaces : Re.pattern := [Re.item Re.Space Re.ZeroOrMore].
Definition years : Re.pattern :=
  (Re.literal "year" ++ [Re.item (Re.Lit "s") Re.Optional])%list.

Definition patterns : list Re.pattern :=
  [ (digits_group ++ optional_plus ++ spaces ++ years
       ++ Re.literal " of experience")%list;
    (digits_group ++ optional_plus ++ spaces ++ years
       ++ Re.literal " experience")%list;
    (Re.literal "experience" ++ spaces
       ++ [Re.item (Re.AnyOf [":"; "o"; "f"]%char) Re.ZeroOrMore] ++ spaces
       ++ digits_group ++ optional_plus ++ spaces ++ years)%list ].

Fixpoint first_match (ps : list Re.pattern) (text : string) : result Z :=
  match ps with
  | [] => Ok 0
  | p :: ps' =>
      match Re.search p text with
      | Some g => Slice.int_of_digits g
      | None => first_match ps' text
      end
  end.

Definition extract_experience_years (text : string) : result Z :=
  first_match patterns (Str.lower text).

Record parsed : Type := {
  filename : string;
  skills : Resume.skills;
  experience_years : Z;
  text_preview : string;
  skill_count : Z
}.

Record resume_questions : Type := {
  role : string;
  detected_skills : list string;
  personalized_questions : list Resume.personalized;
  total_questions : Z
}.

Section Handlers.

(** The operating system, and the document libraries as they answer for the
    bytes of a file: the text of each page of a PDF ([None] for a page with no
    text), the text of each paragraph of a DOCX file, or the message of the
    exception raised; and the text read from a file opened in text mode as
    UTF-8 with errors ignored. *)
Variable os : Path.platform.
Variable pdf_pages : string -> list (option string) + string.
Variable docx_paragraphs : string -> list string + string.
Variable read_text : string -> string.

Definition extract_text_from_pdf (content : string) : result string :=
  match pdf_pages content with
  | inl pages =>
      Ok (fold_left
            (fun text page =>
               text ++ match page with
                       | Some t => t
                       | None => EmptyString
                       end)
            pages EmptyString)
  | inr e => Raise (HTTPException 422 ("Could not read PDF: " ++ e))
  end.

Definition extract_text_from_docx (content : string) : result string :=
  match docx_paragraphs content with
  | inl paragraphs => Ok (Slice.join (String "010" EmptyString) paragraphs)
  | inr e => Raise (HTTPException 422 ("Could not read DOCX: " ++ e))
  end.

Definition mem (x : string) (l : list string) : bool :=
  existsb (String.eqb x) l.

(** [parse_resume]: [file_filename] is [file.filename], [content] the bytes of
    the upload. *)
Definition parse_resume (file_filename : option string) (content : string)
  (tmp_path : string) (files : Fs.t) : result parsed * Fs.t :=
  let filename :=
    match file_filename with
    | Some (String c f) => String c f
    | _ => "resume"
    end in
  let ext := Str.lower (snd (Path.splitext os filename)) in
  if negb (mem ext [".pdf"; ".docx"; ".doc"; ".txt"]) then
    (Raise (HTTPException 400
              "Unsupported file type. Please upload PDF, DOCX, or TXT."),
     files)
  else
    let files := Fs.create tmp_path files in
    let extracted :=
      if String.eqb ext ".pdf" then extract_text_from_pdf content
      else if mem ext [".docx"; ".doc"] then extract_text_from_docx content
      else Ok (read_text content) in
    let files := Fs.unlink tmp_path files in
    (text <- extracted ;;
     match Slice.strip text with
     | EmptyString =>
         Raise (HTTPException 422
                  "Could not extract text from resume. Is it a scanned image?")
     | _ =>
         let skills := Resume.extract_skills text in
         experience_years <- extract_experience_years text ;;
         Ok {| filename := filename;
               skills := skills;
               experience_years := experience_years;
               text_preview :=
                 if (300 <? String.length text)%nat
                 then Slice.upto 300 text ++ "..."
                 else text;
               skill_count := Z.of_nat (List.length (Resume.all skills)) |}
     end,
     files).

(** [get_resume_questions] *)
Definition get_resume_questions (file_filename : option string)
  (content : string) (role : string) (tmp_path : string) (files : Fs.t)
  : result resume_questions * Fs.t :=
  let parse := parse_resume file_filename content tmp_path files in
  (parse_result <- fst parse ;;
   let skills := Resume.all (skills parse_result) in
   let personalized_questions :=
     Resume.generate_personalized_questions skills role in
   Ok {| role := role;
         detected_skills := firstn 10 skills;
         personalized_questions := personalized_questions;
         total_questions :=
           Z.of_nat (List.length personalized_questions) |},
   snd parse).

End Handlers.

End ResumeParse.

(** ** Predicates on texts, to state properties with *)

Module Text.

Fixpoint every (f : ascii -> bool) (s : string) : bool :=
  match s with
  | EmptyString => true
  | String c s' => f c && every f s'
  end.

Fixpoint some (f : ascii -> bool) (s : string) : bool :=
  match s with
  | EmptyString => false
  | String c s' => f c || some f s'
  end.

(** The decimal digits [0] to [9]. *)
Definition is_digit (c : ascii) : bool := Re.atom_matches Re.Digit c.

Definition all_digits (s : string) : bool := every is_digit s.
Definition has_digit (s : string) : bool := some is_digit s.

(** How many characters a quantifier may take. *)
Definition run_fits (q : Re.quantifier) (run : string) : Prop :=
  match q with
  | Re.One => String.length run = 1%nat
  | Re.Optional => (String.length run <= 1)%nat
  | Re.ZeroOrMore => True
  | Re.OneOrMore => run <> ""
  end.

(** The pieces in a capturing group are those of [(\d+)]. *)
Definition digit_groups (p : Re.pattern) : Prop :=
  Forall (fun pc =>
            Re.in_group pc = true ->
            Re.p_atom pc = Re.Digit /\ Re.p_quantifier pc = Re.OneOrMore) p.

(** The tail the first pattern wants after the digits: an optional plus,
    whitespace, [year] or [years], and [ of experience]. *)
Definition states_years (plus : bool) (ws : string) (plural : bool)
  (rest : string) : string :=
  (if plus then "+" else "") ++ ws
    ++ (if plural then "years" else "year") ++ " of experience" ++ rest.

End Text.

(** * Properties *)

(** ** Fallible computations *)

Lemma bind_inv {A B : Type} (r : result A) (k : A -> result B) (b : B) :
  bind r k = Ok b -> exists a, r = Ok a /\ k a = Ok b.
Proof.
  destruct r as [a|e]; simpl; intros H.
  - exists a. split; [reflexivity | exact H].
  - discriminate H.
Qed.

Ltac bind_inversion H :=
  let a := fresh "v" in
  let Ha := fresh "E" in
  apply bind_inv in H; destruct H as [a [Ha H]].

(** ** The answer scorer, unfolded *)

Section Scorer.

Import Analyze.

Variable transcript : string.
Variable duration_seconds : Float.float.
Variable word_count : Z.

(** A returned result is assembled from the values of the intermediate
    statements. *)
Lemma calculate_confidence_score_inv (r : score_result) :
  calculate_confidence_score transcript duration_seconds word_count = Ok r ->
  exists wpm raw wpm1,
    wpm_of duration_seconds word_count = Ok wpm /\
    raw_score_of (length_score_of word_count) (pace_score_of wpm)
      (filler_penalty_of (filler_count_of transcript)) = Ok raw /\
    final_score_of raw = Ok (confidence_score r) /\
    Num.round1 wpm = Ok wpm1 /\
    r = {| confidence_score := confidence_score r;
           rating := rating_of (confidence_score r);
           score_breakdown :=
             {| length_score := length_score_of word_count;
                pace_score := pace_score_of wpm;
                filler_penalty := filler_penalty_of (filler_count_of transcript);
                words_per_minute := wpm1;
                filler_count := filler_count_of transcript |} |}.
Proof.
  unfold calculate_confidence_score. intros H.
  bind_inversion H. bind_inversion H. bind_inversion H. bind_inversion H.
  injection H as <-. simpl.
  exists v, v0, v2. repeat split; assumption.
Qed.

End Scorer.

(** ** Length score *)

Lemma length_score_of_spec (word_count : Z) :
  Analyze.length_score_of word_count = Spec.length_score word_count.
Proof.
  unfold Analyze.length_score_of, Spec.length_score.
  repeat match goal with
         | |- context [?a <? ?b] => destruct (Z.ltb_spec a b)
         | |- context [?a <=? ?b] => destruct (Z.leb_spec a b)
         end; simpl; try reflexivity; lia.
Qed.

(** C4. The length score follows the six bands with boundaries at 10, 30, 50,
    150 and 250, for every word count, and it is the length score that
    [calculate_confidence_score] reports. *)
Theorem length_score_bands : forall word_count : Z,
  ((word_count < 10 -> Analyze.length_score_of word_count = 20) /\
   (10 <= word_count < 30 -> Analyze.length_score_of word_count = 45) /\
   (30 <= word_count < 50 -> Analyze.length_score_of word_count = 65) /\
   (50 <= word_count <= 150 -> Analyze.length_score_of word_count = 90) /\
   (151 <= word_count <= 250 -> Analyze.length_score_of word_count = 75) /\
   (250 < word_count -> Analyze.length_score_of word_count = 55)) /\
  Analyze.length_score_of word_count = Spec.length_score word_count /\
  (forall transcript duration_seconds r,
      Analyze.calculate_confidence_score transcript duration_seconds word_count
        = Ok r ->
      Analyze.length_score (Analyze.score_breakdown r)
        = Analyze.length_score_of word_count).
Proof.
  intros wc. split; [| split].
  - unfold Analyze.length_score_of.
    repeat match goal with
           | |- context [?a <? ?b] => destruct (Z.ltb_spec a b)
           | |- context [?a <=? ?b] => destruct (Z.leb_spec a b)
           end; repeat split; intros; try reflexivity; lia.
  - apply length_score_of_spec.
  - intros t d r H.
    apply calculate_confidence_score_inv in H.
    destruct H as (wpm & raw & wpm1 & _ & _ & _ & _ & ->). reflexivity.
Qed.

(** ** Question catalogue *)

Lemma JSONResponse_unbound :
  Interview.load_global Interview.module_globals "JSONResponse"
    = Raise (NameError "JSONResponse").
Proof. reflexivity. Qed.

(** C3 (as the code behaves). For an index outside the selected list the
    handler reaches the call of [JSONResponse], a name the module never
    imports: it raises [NameError], which the client sees as status 500, and
    no 404 payload with the total count is built. *)
Theorem get_single_question_out_of_range :
  forall (role : option string) (index : Z),
    index < 0 \/
    Interview.len
      (Dict.get Interview.QUESTION_BANK role Interview.DEFAULT_QUESTIONS)
      <= index ->
    Interview.get_single_question index role
      = Raise (NameError "JSONResponse") /\
    Interview.status_of (Interview.get_single_question index role) = 500.
Proof.
  intros role index H.
  assert (E : Interview.get_single_question index role
              = Raise (NameError "JSONResponse")).
  { unfold Interview.get_single_question, Interview.get_single_question_in.
    set (questions := Dict.get _ _ _) in *.
    replace ((index <? 0) || (index >=? Interview.len questions)) with true.
    - rewrite JSONResponse_unbound. reflexivity.
    - symmetry. apply orb_true_iff.
      destruct H as [H | H]; [left; apply Z.ltb_lt | right; apply Z.geb_le];
        lia. }
  split; [exact E | rewrite E; reflexivity].
Qed.

Lemma get_single_question_out_of_range_witness :
  Interview.get_single_question 8 (Some "Software Engineer")
    = Raise (NameError "JSONResponse") /\
  Interview.status_of
    (Interview.get_single_question 8 (Some "Software Engineer")) = 500.
Proof.
  apply (get_single_question_out_of_range (Some "Software Engineer") 8).
  right. vm_compute. discriminate.
Defined.

(** With [JSONResponse] bound, as it is in [main.py], the same branch answers
    404 with the message that carries the total. *)
Lemma get_single_question_intended :
  Interview.get_single_question_in
    ("JSONResponse" :: Interview.module_globals) 8 (Some "Software Engineer")
  = Ok (Interview.ErrorResponse 404
          "Question index 8 out of range. Total: 8").
Proof. reflexivity. Qed.

(** Inside the range the handler answers with the question at that index. *)
Lemma get_single_question_in_range (role : option string) (index : Z) :
  let questions :=
    Dict.get Interview.QUESTION_BANK role Interview.DEFAULT_QUESTIONS in
  0 <= index < Interview.len questions ->
  exists p,
    Interview.get_single_question index role = Ok (Interview.Question p) /\
    Interview.q_total p = Interview.len questions /\
    nth_error questions (Z.to_nat index) = Some (Interview.q_question p).
Proof.
  intros questions H.
  unfold Interview.get_single_question, Interview.get_single_question_in.
  fold questions.
  replace ((index <? 0) || (index >=? Interview.len questions)) with false.
  - eexists. split; [reflexivity | split; [reflexivity |]]. simpl.
    apply nth_error_nth'. unfold Interview.len in H. lia.
  - symmetry. apply orb_false_iff. split.
    + apply Z.ltb_ge. lia.
    + rewrite Z.geb_leb. apply Z.leb_gt. lia.
Qed.

(** ** Personalized questions *)

Lemma skill_specific_cons (s : string) (top : list string) :
  Resume.skill_specific (s :: top)
    = match Dict.lookup Resume.skill_questions s with
      | Some q =>
          {| Resume.skill := s; Resume.question := q;
             Resume.type := "skill-specific" |} :: Resume.skill_specific top
      | None => Resume.skill_specific top
      end.
Proof. reflexivity. Qed.

Lemma skill_specific_skills (top : list string) :
  map Resume.skill (Resume.skill_specific top)
    = filter (Dict.mem Resume.skill_questions) top.
Proof.
  induction top as [|s top IH]; [reflexivity |].
  rewrite skill_specific_cons. cbn [filter]. unfold Dict.mem at 1.
  destruct (Dict.lookup Resume.skill_questions s); cbn [map Resume.skill];
    [f_equal |]; exact IH.
Qed.

Lemma skill_specific_entries (top : list string) :
  Forall (fun q =>
            Resume.type q = "skill-specific" /\
            In (Resume.skill q) top /\
            Dict.lookup Resume.skill_questions (Resume.skill q)
              = Some (Resume.question q))
    (Resume.skill_specific top).
Proof.
  induction top as [|s top IH]; [constructor |].
  rewrite skill_specific_cons.
  assert (IH' : Forall (fun q =>
            Resume.type q = "skill-specific" /\
            In (Resume.skill q) (s :: top) /\
            Dict.lookup Resume.skill_questions (Resume.skill q)
              = Some (Resume.question q))
            (Resume.skill_specific top)).
  { eapply Forall_impl; [| exact IH]. cbv beta. intros q (Ht & Hi & Hl).
    repeat split; auto using in_cons. }
  destruct (Dict.lookup Resume.skill_questions s) as [q|] eqn:E.
  - constructor; [| exact IH']. cbn [Resume.type Resume.skill Resume.question].
    repeat split; auto using in_eq.
  - exact IH'.
Qed.

Lemma skill_specific_length (top : list string) :
  (List.length (Resume.skill_specific top) <= List.length top)%nat.
Proof.
  induction top as [|s top IH]; [apply Nat.le_refl |].
  rewrite skill_specific_cons.
  destruct (Dict.lookup Resume.skill_questions s); cbn [List.length]; lia.
Qed.

(** C9. The result is the skill-specific entries of the first five input
    skills that are keys of the table, in input order and with nothing in
    place of an unmapped skill, followed by exactly one motivational question
    that names the role; it has between one and six entries. *)
Theorem generate_personalized_questions_shape :
  forall (skills : list string) (role : string),
    exists specific,
      Resume.generate_personalized_questions skills role
        = (specific ++ [Resume.role_question role])%list /\
      map Resume.skill specific
        = filter (Dict.mem Resume.skill_questions) (firstn 5 skills) /\
      Forall (fun q =>
                Resume.type q = "skill-specific" /\
                In (Resume.skill q) (firstn 5 skills) /\
                Dict.lookup Resume.skill_questions (Resume.skill q)
                  = Some (Resume.question q)) specific /\
      Resume.type (Resume.role_question role) = "motivational" /\
      Resume.question (Resume.role_question role)
        = "What excites you most about this " ++ role
            ++ " role, and what unique value do you bring?" /\
      (1 <= List.length
              (Resume.generate_personalized_questions skills role) <= 6)%nat.
Proof.
  intros skills role.
  exists (Resume.skill_specific (firstn 5 skills)).
  split; [reflexivity |].
  split; [apply skill_specific_skills |].
  split; [apply skill_specific_entries |].
  split; [reflexivity |].
  split; [reflexivity |].
  unfold Resume.generate_personalized_questions.
  rewrite length_app. cbn [List.length].
  pose proof (skill_specific_length (firstn 5 skills)) as H1.
  rewrite length_firstn in H1.
  lia.
Qed.

(** ** Strings: substrings and case *)

Lemma append_assoc (a b c : string) : (a ++ b) ++ c = a ++ b ++ c.
Proof.
  induction a as [|x a IH]; cbn [append]; [reflexivity |].
  rewrite IH. reflexivity.
Qed.

Lemma append_nil_r (a : string) : a ++ "" = a.
Proof.
  induction a as [|x a IH]; cbn [append]; [reflexivity |].
  rewrite IH. reflexivity.
Qed.

Lemma length_append (a b : string) :
  String.length (a ++ b) = (String.length a + String.length b)%nat.
Proof.
  induction a as [|x a IH]; cbn [append String.length Nat.add];
    [reflexivity |].
  rewrite IH. reflexivity.
Qed.

Lemma prefix_occurs (sub s : string) :
  prefix sub s = true <-> exists rest, s = sub ++ rest.
Proof.
  revert s. induction sub as [|c sub IH]; intros s.
  - split; [intros _; exists s; reflexivity | intros _; destruct s; reflexivity].
  - destruct s as [|d s]; simpl.
    + split; [discriminate | intros [rest H]; discriminate H].
    + destruct (ascii_dec c d) as [->|Hne].
      * rewrite IH. split; intros [rest H]; exists rest.
        -- rewrite H. reflexivity.
        -- injection H as H. exact H.
      * split; [discriminate |].
        intros [rest H]. injection H as H1 H2. congruence.
Qed.

Lemma contains_occurs (sub s : string) :
  Str.contains sub s = true <-> Spec.occurs_in sub s.
Proof.
  unfold Spec.occurs_in. induction s as [|c s IH].
  - cbn [Str.contains]. rewrite prefix_occurs. split.
    + intros [rest H]. exists EmptyString, rest. exact H.
    + intros (before & rest & H). destruct before as [|b before].
      * exists rest. exact H.
      * discriminate H.
  - cbn [Str.contains]. rewrite orb_true_iff, IH, prefix_occurs. split.
    + intros [[rest H] | (before & rest & H)].
      * exists EmptyString, rest. exact H.
      * exists (String c before), rest. rewrite H. reflexivity.
    + intros (before & rest & H). destruct before as [|b before].
      * left. exists rest. exact H.
      * right. injection H as _ H. exists before, rest. exact H.
Qed.

(** Every character is one of the 256 code points. *)
Lemma ascii_enumerated (c : ascii) : In c (map ascii_of_nat (seq 0 256)).
Proof.
  rewrite <- (ascii_nat_embedding c). apply in_map, in_seq.
  pose proof (nat_ascii_bounded c). lia.
Qed.

(** [str.lower] identifies exactly a capital with its small letter. *)
Lemma same_letter_lower (c1 c2 : ascii) :
  Spec.same_letter c1 c2
    = Ascii.eqb (Str.lower_char c1) (Str.lower_char c2).
Proof.
  assert (H : forallb
                (fun a =>
                   forallb
                     (fun b =>
                        Bool.eqb (Spec.same_letter a b)
                          (Ascii.eqb (Str.lower_char a) (Str.lower_char b)))
                     (map ascii_of_nat (seq 0 256)))
                (map ascii_of_nat (seq 0 256)) = true)
    by (vm_compute; reflexivity).
  rewrite forallb_forall in H. specialize (H c1 (ascii_enumerated c1)).
  rewrite forallb_forall in H. specialize (H c2 (ascii_enumerated c2)).
  apply eqb_prop in H. exact H.
Qed.

Lemma lower_case_variant (s1 s2 : string) :
  Spec.case_variant s1 s2 -> Str.lower s1 = Str.lower s2.
Proof.
  induction 1 as [|c1 c2 s1 s2 Hc _ IH]; simpl; [reflexivity |].
  rewrite same_letter_lower in Hc. apply Ascii.eqb_eq in Hc.
  rewrite Hc, IH. reflexivity.
Qed.

Lemma lower_char_idempotent (c : ascii) :
  Str.lower_char (Str.lower_char c) = Str.lower_char c.
Proof.
  destruct c as [[] [] [] [] [] [] [] []]; vm_compute; reflexivity.
Qed.

(** Lowercasing yields a case variant of the text. *)
Lemma case_variant_lower (s : string) : Spec.case_variant s (Str.lower s).
Proof.
  induction s as [|c s IH]; simpl; constructor.
  - rewrite same_letter_lower, lower_char_idempotent. apply Ascii.eqb_refl.
  - exact IH.
Qed.

(** Case variants are the texts with the same lowercase form. *)
Lemma case_variant_iff_lower (s1 s2 : string) :
  Spec.case_variant s1 s2 <-> Str.lower s1 = Str.lower s2.
Proof.
  split; [apply lower_case_variant |].
  revert s2. induction s1 as [|c1 s1 IH]; intros [|c2 s2] H;
    try discriminate H; [constructor |].
  cbn [Str.lower] in H. injection H as Hc Hs. constructor.
  - rewrite same_letter_lower, Hc. apply Ascii.eqb_refl.
  - apply IH, Hs.
Qed.

(** The lowercase form has no capital letter. *)
Lemma lower_no_capital (s : string) : Spec.no_capital (Str.lower s) = true.
Proof.
  induction s as [|c s IH]; cbn [Str.lower Spec.no_capital]; [reflexivity |].
  rewrite IH, andb_true_r.
  destruct c as [[] [] [] [] [] [] [] []]; vm_compute; reflexivity.
Qed.

(** ** Skill extraction *)

Lemma filter_subsequence {A : Type} (f : A -> bool) (l : list A) :
  Spec.subsequence (filter f l) l.
Proof.
  induction l as [|x l IH]; simpl; [constructor |].
  destruct (f x); constructor; exact IH.
Qed.

(** C8. Skill extraction does not depend on the case of the text: texts that
    differ only in capitals against small letters give the same result, as
    "Python, REACT" and "python, react" do. A vocabulary entry is reported
    exactly when it occurs in the lowercased text, which is the case variant
    of the text without capitals, and the reported lists keep the order of
    the vocabularies, not the order of the text. *)
Theorem extract_skills_case_insensitive_ordered :
  (forall text : string,
      (forall text', Spec.case_variant text text' ->
                     Resume.extract_skills text' = Resume.extract_skills text) /\
      Spec.case_variant text (Str.lower text) /\
      Spec.no_capital (Str.lower text) = true /\
      (forall skill,
          In skill (Resume.technical (Resume.extract_skills text)) <->
          In skill Resume.TECH_SKILLS /\
          Spec.occurs_in skill (Str.lower text)) /\
      (forall skill,
          In skill (Resume.soft (Resume.extract_skills text)) <->
          In skill Resume.SOFT_SKILLS /\
          Spec.occurs_in skill (Str.lower text)) /\
      Resume.technical (Resume.extract_skills text)
        = filter (fun skill => Str.contains skill (Str.lower text))
            Resume.TECH_SKILLS /\
      Resume.soft (Resume.extract_skills text)
        = filter (fun skill => Str.contains skill (Str.lower text))
            Resume.SOFT_SKILLS /\
      Spec.subsequence (Resume.technical (Resume.extract_skills text))
        Resume.TECH_SKILLS /\
      Spec.subsequence (Resume.soft (Resume.extract_skills text))
        Resume.SOFT_SKILLS /\
      Resume.all (Resume.extract_skills text)
        = (Resume.technical (Resume.extract_skills text)
             ++ Resume.soft (Resume.extract_skills text))%list) /\
  Spec.case_variant "Python, REACT" "python, react" /\
  "Python, REACT" <> "python, react" /\
  Resume.extract_skills "Python, REACT"
    = Resume.extract_skills "python, react" /\
  Resume.technical (Resume.extract_skills "Python, REACT")
    = ["python"; "r"; "react"] /\
  Resume.technical (Resume.extract_skills "REACT, Python")
    = ["python"; "r"; "react"].
Proof.
  split.
  - intros text.
    assert (Hin : forall vocabulary skill,
               In skill
                 (filter (fun skill => Str.contains skill (Str.lower text))
                    vocabulary) <->
               In skill vocabulary /\ Spec.occurs_in skill (Str.lower text)).
    { intros vocabulary skill. rewrite filter_In, contains_occurs.
      reflexivity. }
    split; [| split; [| split; [| split; [| split; [| split; [| split;
      [| split; [| split]]]]]]]].
    + intros text' H. unfold Resume.extract_skills.
      rewrite (lower_case_variant _ _ H). reflexivity.
    + apply case_variant_lower.
    + apply lower_no_capital.
    + intros skill. apply Hin.
    + intros skill. apply Hin.
    + unfold Resume.extract_skills. cbn [Resume.technical]. reflexivity.
    + unfold Resume.extract_skills. cbn [Resume.soft]. reflexivity.
    + apply filter_subsequence.
    + apply filter_subsequence.
    + unfold Resume.extract_skills.
      cbn [Resume.all Resume.technical Resume.soft]. reflexivity.
  - split; [repeat constructor |]. split; [discriminate |].
    split; [vm_compute; reflexivity |].
    split; vm_compute; reflexivity.
Qed.

(** The example of the specification, and a text that names the skills in the
    opposite order. *)
Example extract_skills_python_react :
  Resume.technical (Resume.extract_skills "Python, REACT")
    = ["python"; "r"; "react"] /\
  Resume.extract_skills "Python, REACT"
    = Resume.extract_skills "python, react" /\
  Resume.technical (Resume.extract_skills "REACT, Python")
    = ["python"; "r"; "react"].
Proof.
  split; [| split]; vm_compute; reflexivity.
Qed.

(** ** Splitting on whitespace *)

Lemma append_char_not_empty (tok : string) (c : ascii) :
  tok ++ String c EmptyString <> EmptyString.
Proof. destruct tok; discriminate. Qed.

Lemma split_aux_length (s tok : string) :
  List.length (Str.split_aux tok s)
    = match tok with
      | EmptyString => Spec.word_starts true s
      | _ => S (Spec.word_starts false s)
      end.
Proof.
  revert tok. induction s as [|c s IH]; intros tok.
  - destruct tok; reflexivity.
  - cbn [Str.split_aux Spec.word_starts]. destruct (Str.isspace c).
    + destruct tok as [|t tok]; [apply IH |].
      cbn [List.length]. rewrite IH. reflexivity.
    + rewrite IH.
      destruct (tok ++ String c EmptyString) eqn:E.
      * exfalso. exact (append_char_not_empty _ _ E).
      * destruct tok; reflexivity.
Qed.

Lemma split_length (s : string) :
  Z.of_nat (List.length (Str.split s)) = Spec.word_count s.
Proof. unfold Str.split, Spec.word_count. rewrite split_aux_length. reflexivity. Qed.

Lemma no_space_append_char (tok : string) (c : ascii) :
  Spec.no_space tok = true -> Str.isspace c = false ->
  Spec.no_space (tok ++ String c EmptyString) = true.
Proof.
  intros Ht Hc. induction tok as [|t tok IH]; simpl in *.
  - rewrite Hc. reflexivity.
  - apply andb_true_iff in Ht. destruct Ht as [H1 H2].
    rewrite H1, (IH H2). reflexivity.
Qed.

(** Every token is a non-empty run of characters that are not whitespace. *)
Lemma split_aux_tokens (s tok : string) :
  Spec.no_space tok = true ->
  Forall (fun t => t <> EmptyString /\ Spec.no_space t = true)
    (Str.split_aux tok s).
Proof.
  revert tok. induction s as [|c s IH]; intros tok Ht.
  - destruct tok; constructor; [split; [discriminate | exact Ht] | constructor].
  - cbn [Str.split_aux]. destruct (Str.isspace c) eqn:Hc.
    + destruct tok as [|t tok]; [apply IH; reflexivity |].
      constructor; [split; [discriminate | exact Ht] | apply IH; reflexivity].
    + apply IH. apply no_space_append_char; assumption.
Qed.

Lemma split_tokens (s : string) :
  Forall (fun t => t <> EmptyString /\ Spec.no_space t = true) (Str.split s).
Proof. apply split_aux_tokens. reflexivity. Qed.

Lemma word_starts_all_space (s : string) (b : bool) :
  Spec.all_space s = true -> Spec.word_starts b s = O.
Proof.
  revert b. induction s as [|c s IH]; intros b H; [reflexivity |].
  simpl in *. apply andb_true_iff in H. destruct H as [Hc Hs].
  rewrite Hc. apply IH, Hs.
Qed.

(** Leading and trailing whitespace and the length of a run of whitespace do
    not change the count. *)
Lemma word_count_leading_space (c : ascii) (s : string) :
  Str.isspace c = true ->
  Spec.word_count (String c s) = Spec.word_count s.
Proof.
  intros H. unfold Spec.word_count. simpl. rewrite H. reflexivity.
Qed.

Lemma word_starts_append_space (s : string) (c : ascii) (b : bool) :
  Str.isspace c = true ->
  Spec.word_starts b (s ++ String c EmptyString) = Spec.word_starts b s.
Proof.
  intros H. revert b. induction s as [|d s IH]; intros b; simpl.
  - rewrite H. reflexivity.
  - destruct (Str.isspace d); rewrite IH; reflexivity.
Qed.

Lemma word_starts_double_space (s1 s2 : string) (c d : ascii) (b : bool) :
  Str.isspace c = true -> Str.isspace d = true ->
  Spec.word_starts b (s1 ++ String c (String d s2))
    = Spec.word_starts b (s1 ++ String c s2).
Proof.
  intros Hc Hd. revert b. induction s1 as [|e s1 IH]; intros b; simpl.
  - rewrite Hc, Hd. reflexivity.
  - destruct (Str.isspace e); rewrite IH; reflexivity.
Qed.

(** ** Binary64 arithmetic: rounding never overflows in range *)

Section FloatFacts.

Local Abbreviation fexp := (SpecFloat.fexp Float.prec Float.emax).
Local Abbreviation round_aux := (binary_round_aux Float.prec Float.emax).

Lemma fexp_eq (k : Z) : fexp k = Z.max (k - 53) (-1074).
Proof. reflexivity. Qed.

Lemma pow2_pos (k : Z) : 0 <= k -> 0 < 2 ^ k.
Proof. intros H. apply Z.pow_pos_nonneg; lia. Qed.

Lemma pow2_succ (k : Z) : 0 <= k -> 2 ^ (k + 1) = 2 * 2 ^ k.
Proof. intros H. rewrite Z.pow_add_r by lia. lia. Qed.

Lemma digits2_pos_bounds (p : positive) :
  2 ^ (Zpos (digits2_pos p) - 1) <= Zpos p < 2 ^ Zpos (digits2_pos p).
Proof.
  induction p as [p IH|p IH|]; cbn [digits2_pos].
  - rewrite Pos2Z.inj_succ. unfold Z.succ.
    replace (Zpos (digits2_pos p) + 1 - 1) with (Zpos (digits2_pos p) - 1 + 1) by lia.
    rewrite !pow2_succ by lia.
    replace (2 ^ Zpos (digits2_pos p)) with (2 * 2 ^ (Zpos (digits2_pos p) - 1)) in *
      by (rewrite <- pow2_succ by lia; f_equal; lia).
    lia.
  - rewrite Pos2Z.inj_succ. unfold Z.succ.
    replace (Zpos (digits2_pos p) + 1 - 1) with (Zpos (digits2_pos p) - 1 + 1) by lia.
    rewrite !pow2_succ by lia.
    replace (2 ^ Zpos (digits2_pos p)) with (2 * 2 ^ (Zpos (digits2_pos p) - 1)) in *
      by (rewrite <- pow2_succ by lia; f_equal; lia).
    lia.
  - simpl. lia.
Qed.

Lemma Zdigits2_bounds (m : Z) :
  0 < m -> 2 ^ (Zdigits2 m - 1) <= m < 2 ^ Zdigits2 m.
Proof.
  destruct m as [|p|p]; try lia. intros _. apply digits2_pos_bounds.
Qed.

Lemma Zdigits2_pos (m : Z) : 0 < m -> 0 < Zdigits2 m.
Proof. destruct m; simpl; lia. Qed.

Lemma Zdigits2_nonneg (m : Z) : 0 <= m -> 0 <= Zdigits2 m.
Proof. destruct m; simpl; lia. Qed.

Lemma Zdigits2_le (m k : Z) : 0 <= k -> 0 <= m -> m < 2 ^ k -> Zdigits2 m <= k.
Proof.
  intros Hk Hm H. destruct (Z.eq_dec m 0) as [->|Hne]; [simpl; lia |].
  pose proof (Zdigits2_bounds m ltac:(lia)) as [Hlo _].
  pose proof (Zdigits2_pos m ltac:(lia)) as Hd.
  destruct (Z_le_gt_dec (Zdigits2 m) k) as [|Hgt]; [assumption | exfalso].
  assert (2 ^ k <= 2 ^ (Zdigits2 m - 1)) by (apply Z.pow_le_mono_r; lia).
  lia.
Qed.

Lemma Zdigits2_ge (m k : Z) : 0 <= k -> 2 ^ k <= m -> k + 1 <= Zdigits2 m.
Proof.
  intros Hk H. pose proof (pow2_pos k Hk).
  pose proof (Zdigits2_bounds m ltac:(lia)) as [_ Hhi].
  pose proof (Zdigits2_pos m ltac:(lia)) as Hd.
  destruct (Z_le_gt_dec (k + 1) (Zdigits2 m)) as [|Hgt]; [assumption | exfalso].
  assert (2 ^ Zdigits2 m <= 2 ^ k) by (apply Z.pow_le_mono_r; lia).
  lia.
Qed.

Lemma Zdigits2_unique (m k : Z) :
  0 < k -> 2 ^ (k - 1) <= m < 2 ^ k -> Zdigits2 m = k.
Proof.
  intros Hk [Hlo Hhi]. pose proof (pow2_pos (k - 1) ltac:(lia)).
  pose proof (Zdigits2_le m k ltac:(lia) ltac:(lia) Hhi).
  pose proof (Zdigits2_ge m (k - 1) ltac:(lia) Hlo). lia.
Qed.


Lemma shr_1_m (mrs : shr_record) :
  0 <= shr_m mrs -> shr_m (shr_1 mrs) = shr_m mrs / 2.
Proof.
  destruct mrs as [m r s]. cbn [shr_m]. intros H.
  destruct m as [|[p|p|]|p]; cbn [shr_1 shr_m]; try reflexivity; try lia.
  - apply (Z.div_unique_pos _ _ _ 1); [lia |]. rewrite Pos2Z.pos_xI. lia.
  - apply (Z.div_unique_pos _ _ _ 0); [lia |]. rewrite Pos2Z.pos_xO. lia.
Qed.

Lemma shr_1_nonneg (mrs : shr_record) :
  0 <= shr_m mrs -> 0 <= shr_m (shr_1 mrs).
Proof.
  intros H. rewrite shr_1_m by assumption. apply Z.div_pos; lia.
Qed.

Lemma iter_shr_1_m (p : positive) (mrs : shr_record) :
  0 <= shr_m mrs ->
  shr_m (iter_pos shr_1 p mrs) = shr_m mrs / 2 ^ Zpos p /\
  0 <= shr_m (iter_pos shr_1 p mrs).
Proof.
  revert mrs. induction p as [p IH|p IH|]; intros mrs H; cbn [iter_pos].
  - pose proof (shr_1_nonneg mrs H) as H1.
    destruct (IH _ H1) as [E2 H2]. destruct (IH _ H2) as [E3 H3].
    split; [| exact H3].
    rewrite E3, E2, shr_1_m by assumption.
    rewrite !Z.div_div by (try apply pow2_pos; lia).
    f_equal.
    replace (2 ^ Zpos p~1) with (2 ^ Zpos p * 2 ^ Zpos p * 2 ^ 1)
      by (rewrite <- !Z.pow_add_r by lia; f_equal; lia).
    rewrite Z.pow_1_r. lia.
  - destruct (IH _ H) as [E2 H2]. destruct (IH _ H2) as [E3 H3].
    split; [| exact H3].
    rewrite E3, E2.
    rewrite !Z.div_div by (try apply pow2_pos; lia).
    f_equal.
    replace (2 ^ Zpos p~0) with (2 ^ Zpos p * 2 ^ Zpos p)
      by (rewrite <- !Z.pow_add_r by lia; f_equal; lia).
    reflexivity.
  - split; [apply shr_1_m, H | apply shr_1_nonneg, H].
Qed.

Lemma shr_record_of_loc_m (m : Z) (l : location) :
  shr_m (shr_record_of_loc m l) = m.
Proof. destruct l as [|[]]; reflexivity. Qed.

Lemma loc_of_shr_record_of_loc (m : Z) (l : location) :
  loc_of_shr_record (shr_record_of_loc m l) = l.
Proof. destruct l as [|[]]; reflexivity. Qed.

(** The mantissa and exponent that [shr_fexp] returns. *)
Lemma shr_fexp_spec (m e : Z) (l : location) :
  0 <= m ->
  let n := fexp (Zdigits2 m + e) - e in
  let r := shr_fexp Float.prec Float.emax m e l in
  (0 < n -> shr_m (fst r) = m / 2 ^ n /\ snd r = e + n) /\
  (n <= 0 -> fst r = shr_record_of_loc m l /\ snd r = e).
Proof.
  intros Hm n r. unfold r, shr_fexp, shr. fold n.
  destruct n as [|p|p]; split; intros Hn; try lia; cbn [fst snd].
  - split; reflexivity.
  - split; [| reflexivity].
    destruct (iter_shr_1_m p (shr_record_of_loc m l)) as [E _].
    + rewrite shr_record_of_loc_m. exact Hm.
    + rewrite E, shr_record_of_loc_m. reflexivity.
  - split; reflexivity.
Qed.

Lemma round_nearest_even_bounds (m : Z) (l : location) :
  m <= round_nearest_even m l <= m + 1.
Proof.
  destruct l as [|[]]; cbn [round_nearest_even]; try lia.
  destruct (Z.even m); lia.
Qed.

Lemma Zdigits2_div_pow2 (m n : Z) :
  0 < n -> 0 < m / 2 ^ n -> Zdigits2 (m / 2 ^ n) = Zdigits2 m - n.
Proof.
  intros Hn Hq. pose proof (pow2_pos n ltac:(lia)) as Hp.
  assert (Hm : 0 < m).
  { destruct (Z_lt_le_dec 0 m) as [|Hle]; [assumption | exfalso].
    assert (m / 2 ^ n <= 0) by (apply Z.div_le_upper_bound; lia). lia. }
  pose proof (Zdigits2_bounds m Hm) as [Hlo Hhi].
  pose proof (Zdigits2_pos m Hm) as Hd.
  assert (Hdn : n < Zdigits2 m).
  { destruct (Z_lt_le_dec n (Zdigits2 m)) as [|Hle]; [assumption | exfalso].
    assert (2 ^ Zdigits2 m <= 2 ^ n) by (apply Z.pow_le_mono_r; lia).
    rewrite Z.div_small in Hq by lia. lia. }
  apply Zdigits2_unique; [lia |]. split.
  - apply Z.div_le_lower_bound; [lia |].
    rewrite <- Z.pow_add_r by lia.
    replace (n + (Zdigits2 m - n - 1)) with (Zdigits2 m - 1) by lia. exact Hlo.
  - apply Z.div_lt_upper_bound; [lia |].
    rewrite <- Z.pow_add_r by lia.
    replace (n + (Zdigits2 m - n)) with (Zdigits2 m) by lia. exact Hhi.
Qed.


Lemma Zdigits2_succ_le (a b : Z) :
  0 <= a -> a <= b <= a + 1 -> Zdigits2 b <= Zdigits2 a + 1.
Proof.
  intros Ha Hb. destruct (Z.eq_dec a 0) as [->|Hne].
  - assert (b = 0 \/ b = 1) as [-> | ->] by lia; simpl; lia.
  - pose proof (Zdigits2_bounds a ltac:(lia)) as [_ Hhi].
    pose proof (Zdigits2_pos a ltac:(lia)) as Hd.
    apply Zdigits2_le; [lia | lia |].
    rewrite pow2_succ by lia. lia.
Qed.

(** The two steps of [binary_round_aux], named. *)
Lemma round_aux_unfold (s : bool) (m e : Z) (l : location) :
  let r1 := shr_fexp Float.prec Float.emax m e l in
  let m1 := round_nearest_even (shr_m (fst r1)) (loc_of_shr_record (fst r1)) in
  let r2 := shr_fexp Float.prec Float.emax m1 (snd r1) loc_Exact in
  round_aux s m e l
    = match shr_m (fst r2) with
      | Z0 => S754_zero s
      | Zpos m' =>
          if snd r2 <=? 971 then S754_finite s m' (snd r2)
          else S754_infinity s
      | Zneg _ => S754_nan
      end.
Proof.
  intros r1 m1 r2. unfold binary_round_aux.
  fold r1. destruct r1 as [mrs1 e1] eqn:E1. cbn [fst snd] in *.
  fold m1. fold r2. destruct r2 as [mrs2 e2]. reflexivity.
Qed.

Lemma shr_fexp_nonneg (m e : Z) (l : location) :
  0 <= m -> 0 <= shr_m (fst (shr_fexp Float.prec Float.emax m e l)).
Proof.
  intros Hm. pose proof (shr_fexp_spec m e l Hm) as [H1 H2]. cbv zeta in *.
  destruct (Z_lt_le_dec 0 (fexp (Zdigits2 m + e) - e)) as [Hn|Hn].
  - destruct (H1 Hn) as [-> _]. apply Z.div_pos; [lia |].
    apply pow2_pos. lia.
  - destruct (H2 Hn) as [-> _]. rewrite shr_record_of_loc_m. exact Hm.
Qed.

(** A finite result of [binary_round_aux] has a mantissa of at most 53 bits. *)
Lemma round_aux_mantissa (s : bool) (m e : Z) (l : location)
  (s' : bool) (m' : positive) (e' : Z) :
  0 <= m ->
  round_aux s m e l = S754_finite s' m' e' ->
  Zpos (digits2_pos m') <= 53.
Proof.
  intros Hm. rewrite round_aux_unfold. cbv zeta.
  set (r1 := shr_fexp _ _ m e l).
  set (m1 := round_nearest_even _ _).
  set (r2 := shr_fexp _ _ m1 _ _).
  assert (Hm1 : 0 <= m1).
  { pose proof (shr_fexp_nonneg m e l Hm).
    pose proof (round_nearest_even_bounds (shr_m (fst r1))
                  (loc_of_shr_record (fst r1))).
    unfold m1. fold r1 in H. lia. }
  pose proof (shr_fexp_spec m1 (snd r1) loc_Exact Hm1) as [H1 H2].
  cbv zeta in H1, H2. fold r2 in H1, H2.
  destruct (shr_m (fst r2)) as [|q|q] eqn:Eq; try discriminate.
  destruct (snd r2 <=? 971); try discriminate.
  intros H. injection H as _ <- _.
  change (Zpos (digits2_pos q)) with (Zdigits2 (Zpos q)).
  rewrite fexp_eq in H1, H2.
  destruct (Z_lt_le_dec 0 (Z.max (Zdigits2 m1 + snd r1 - 53) (-1074) - snd r1))
    as [Hn|Hn].
  - destruct (H1 Hn) as [E _]. rewrite E.
    rewrite Zdigits2_div_pow2 by lia. lia.
  - destruct (H2 Hn) as [E _]. rewrite E, shr_record_of_loc_m in Eq.
    rewrite <- Eq. lia.
Qed.

(** Below the overflow threshold the result of [binary_round_aux] is a zero or
    a finite float. *)
Lemma round_aux_finite (s : bool) (m e : Z) (l : location) :
  0 <= m -> e <= 971 -> Zdigits2 m + e <= 1023 ->
  round_aux s m e l = S754_zero s \/
  exists m' e', round_aux s m e l = S754_finite s m' e'.
Proof.
  intros Hm He Hd. rewrite round_aux_unfold. cbv zeta.
  set (r1 := shr_fexp _ _ m e l).
  set (m1 := round_nearest_even _ _).
  set (r2 := shr_fexp _ _ m1 _ _).
  pose proof (shr_fexp_nonneg m e l Hm) as Hr1. fold r1 in Hr1.
  pose proof (round_nearest_even_bounds (shr_m (fst r1))
                (loc_of_shr_record (fst r1))) as Hb. fold m1 in Hb.
  assert (Hm1 : 0 <= m1) by lia.
  pose proof (Zdigits2_succ_le _ _ Hr1 Hb) as Hd1.
  pose proof (shr_fexp_spec m e l Hm) as [A1 A2].
  cbv zeta in A1, A2. fold r1 in A1, A2. rewrite fexp_eq in A1, A2.
  assert (Hs1 : snd r1 <= 971 /\ Zdigits2 (shr_m (fst r1)) + snd r1 <= 1023).
  { destruct (Z_lt_le_dec 0 (Z.max (Zdigits2 m + e - 53) (-1074) - e))
      as [Hn|Hn].
    - destruct (A1 Hn) as [E1 E2]. rewrite E1, E2. split; [lia |].
      destruct (Z.eq_dec (m / 2 ^ (Z.max (Zdigits2 m + e - 53) (-1074) - e)) 0)
        as [->|Hq].
      + simpl. lia.
      + rewrite Zdigits2_div_pow2; [lia | lia |].
        rewrite <- E1. lia.
    - destruct (A2 Hn) as [E1 E2]. rewrite E1, E2, shr_record_of_loc_m. lia. }
  pose proof (shr_fexp_spec m1 (snd r1) loc_Exact Hm1) as [B1 B2].
  cbv zeta in B1, B2. fold r2 in B1, B2. rewrite fexp_eq in B1, B2.
  pose proof (shr_fexp_nonneg m1 (snd r1) loc_Exact Hm1) as Hr2. fold r2 in Hr2.
  assert (Hs2 : snd r2 <= 971).
  { destruct (Z_lt_le_dec 0
                (Z.max (Zdigits2 m1 + snd r1 - 53) (-1074) - snd r1))
      as [Hn|Hn].
    - destruct (B1 Hn) as [_ ->]. lia.
    - destruct (B2 Hn) as [_ ->]. lia. }
  destruct (shr_m (fst r2)) as [|q|q]; [left; reflexivity | right | lia].
  apply Z.leb_le in Hs2. rewrite Hs2. eauto.
Qed.


Lemma Zdigits2_mul_pow2 (m k : Z) :
  0 <= m -> 0 <= k -> Zdigits2 (m * 2 ^ k) <= Zdigits2 m + k.
Proof.
  intros Hm Hk. pose proof (pow2_pos k Hk) as Hp.
  destruct (Z.eq_dec m 0) as [->|Hne]; [simpl; lia |].
  pose proof (Zdigits2_bounds m ltac:(lia)) as [_ Hhi].
  pose proof (Zdigits2_pos m ltac:(lia)) as Hd.
  apply Zdigits2_le; [lia | nia |].
  rewrite Z.pow_add_r by lia. nia.
Qed.

Lemma Zdigits2_mono (a b : Z) : 0 <= a <= b -> Zdigits2 a <= Zdigits2 b.
Proof.
  intros [Ha Hab]. destruct (Z.eq_dec b 0) as [->|Hne].
  - replace a with 0 by lia. lia.
  - pose proof (Zdigits2_bounds b ltac:(lia)) as [_ Hhi].
    pose proof (Zdigits2_pos b ltac:(lia)) as Hd.
    apply Zdigits2_le; lia.
Qed.

Lemma iter_xO (m d : positive) : Zpos (Pos.iter xO m d) = Zpos m * 2 ^ Zpos d.
Proof.
  induction d as [|d IH] using Pos.peano_ind.
  - simpl. lia.
  - rewrite Pos.iter_succ, Pos2Z.pos_xO, IH, Pos2Z.inj_succ.
    unfold Z.succ. rewrite pow2_succ by lia. lia.
Qed.

(** [shl_align] keeps the value and never raises the exponent. *)
Lemma shl_align_spec (m : positive) (e e' : Z) :
  let r := shl_align m e e' in
  (e' < e -> Zpos (fst r) = Zpos m * 2 ^ (e - e') /\ snd r = e') /\
  (e <= e' -> r = (m, e)).
Proof.
  unfold shl_align. destruct (e' - e) as [|p|p] eqn:E; cbn [fst snd];
    split; intros H; try lia; try reflexivity.
  split; [| reflexivity]. rewrite iter_xO. f_equal. f_equal. lia.
Qed.

(** Conversion of an integer below 2^1023 in magnitude never overflows. *)
Lemma of_int_ok (z : Z) :
  Z.abs z < 2 ^ 1023 -> Float.of_int z = Ok (Float.of_Z z).
Proof.
  intros Hz. unfold Float.of_int, Float.of_Z, binary_normalize.
  assert (H : forall s m, Zpos m < 2 ^ 1023 ->
            binary_round Float.prec Float.emax s m 0 = S754_zero s \/
            exists m' e',
              binary_round Float.prec Float.emax s m 0 = S754_finite s m' e').
  { intros s m Hm. unfold binary_round.
    pose proof (shl_align_spec m 0 (fexp (Zpos (digits2_pos m) + 0)))
      as [A1 A2]. cbv zeta in A1, A2.
    destruct (shl_align m 0 _) as [mz ez]. cbn [fst snd] in A1, A2.
    assert (Hd : Zdigits2 (Zpos m) <= 1023)
      by (apply Zdigits2_le; lia).
    pose proof (Zdigits2_pos (Zpos m) ltac:(lia)) as Hd0.
    change (Zpos (digits2_pos m)) with (Zdigits2 (Zpos m)) in *.
    rewrite fexp_eq in A1, A2.
    apply round_aux_finite; [lia | |].
    - destruct (Z_lt_le_dec (Z.max (Zdigits2 (Zpos m) + 0 - 53) (-1074)) 0)
        as [Hn|Hn].
      + destruct (A1 Hn) as [_ ->]. lia.
      + injection (A2 Hn) as _ ->. lia.
    - destruct (Z_lt_le_dec (Z.max (Zdigits2 (Zpos m) + 0 - 53) (-1074)) 0)
        as [Hn|Hn].
      + destruct (A1 Hn) as [-> ->].
        pose proof (Zdigits2_mul_pow2 (Zpos m)
                      (0 - Z.max (Zdigits2 (Zpos m) + 0 - 53) (-1074))
                      ltac:(lia) ltac:(lia)). lia.
      + injection (A2 Hn) as -> ->. lia. }
  destruct z as [|m|m].
  - reflexivity.
  - destruct (H false m ltac:(lia)) as [E | (m' & e' & E)]; rewrite E;
      reflexivity.
  - destruct (H true m ltac:(lia)) as [E | (m' & e' & E)]; rewrite E;
      reflexivity.
Qed.

(** The quotient mantissa and exponent that [SFdiv_core_binary] returns. *)
Lemma SFdiv_core_bounds (m1 m2 : positive) (e1 e2 : Z) :
  let r := SFdiv_core_binary Float.prec Float.emax (Zpos m1) e1 (Zpos m2) e2 in
  0 <= fst (fst r) /\
  snd (fst r) <= e1 - e2 /\
  Zdigits2 (fst (fst r)) + snd (fst r) <= Zdigits2 (Zpos m1) + e1 - e2.
Proof.
  unfold SFdiv_core_binary.
  set (e' := Z.min _ (e1 - e2)).
  assert (He : e' <= e1 - e2) by (unfold e'; lia).
  set (m' := match e1 - e2 - e' with
             | Z0 => Zpos m1
             | Zpos _ => Z.shiftl (Zpos m1) (e1 - e2 - e')
             | Zneg _ => 0
             end).
  assert (Hm : m' = Zpos m1 * 2 ^ (e1 - e2 - e')).
  { unfold m'. destruct (e1 - e2 - e') as [|p|p] eqn:E; try lia.
    rewrite Z.shiftl_mul_pow2 by lia. reflexivity. }
  pose proof (pow2_pos (e1 - e2 - e') ltac:(lia)) as Hp.
  pose proof (Z_div_mod m' (Zpos m2) ltac:(lia)) as Hdm.
  destruct (Z.div_eucl m' (Zpos m2)) as [q r]. cbn [fst snd].
  destruct Hdm as [Hdm Hr].
  assert (Hq : 0 <= q <= m') by nia.
  split; [lia | split; [lia |]].
  pose proof (Zdigits2_mono q m' Hq).
  pose proof (Zdigits2_mul_pow2 (Zpos m1) (e1 - e2 - e') ltac:(lia) ltac:(lia)).
  rewrite <- Hm in *. lia.
Qed.


Lemma SFmul_mantissa (x y : Float.float) : Spec.mantissa_53 (Float.mul x y).
Proof.
  unfold Float.mul.
  destruct x as [sx|sx| |sx mx ex], y as [sy|sy| |sy my ey];
    cbn [SFmul Spec.mantissa_53]; try exact I.
  destruct (round_aux _ _ _ _) as [s|s| |s m e] eqn:E; cbn [Spec.mantissa_53];
    try exact I.
  refine (round_aux_mantissa _ _ _ _ _ _ _ _ E). lia.
Qed.

Lemma round_half_even_bounds (n d : Z) :
  0 <= n -> 0 < d ->
  0 <= Float.round_half_even n d <= n + 1.
Proof.
  intros Hn Hd. unfold Float.round_half_even.
  pose proof (Z.div_pos n d Hn Hd) as Hq.
  assert (n / d <= n) by (apply Z.div_le_upper_bound; nia).
  destruct (2 * (n mod d) ?= d); [destruct (Z.even (n / d)) | |]; lia.
Qed.

(** [round(x, 1)] never raises on a float with a 53-bit mantissa. *)
Lemma round1_ok (x : Float.float) :
  Spec.mantissa_53 x -> exists y, Float.round1 x = Ok y.
Proof.
  destruct x as [s|s| |s m e]; cbn [Spec.mantissa_53 Float.round1]; eauto.
  intros Hm. destruct (0 <=? e) eqn:He; [eauto |].
  apply Z.leb_gt in He.
  pose proof (round_half_even_bounds (10 * Zpos m) (2 ^ (- e)) ltac:(lia)
                (pow2_pos (- e) ltac:(lia))) as Hn.
  destruct (Float.round_half_even _ _) as [|n|n]; eauto.
  change (Float.of_Z 10) with (S754_finite false 5629499534213120 (-49)).
  cbn [SFdiv].
  pose proof (SFdiv_core_bounds n 5629499534213120 0 (-49)) as B.
  cbv zeta in B.
  destruct (SFdiv_core_binary _ _ _ _ _ _) as [[q e'] l].
  cbn [fst snd] in B. destruct B as (B1 & B2 & B3).
  change (Zpos (digits2_pos m)) with (Zdigits2 (Zpos m)) in Hm.
  pose proof (Zdigits2_bounds (Zpos m) ltac:(lia)) as [_ Hhi].
  assert (2 ^ Zdigits2 (Zpos m) <= 2 ^ 53) by (apply Z.pow_le_mono_r; lia).
  assert (Hdn : Zdigits2 (Zpos n) <= 57).
  { apply Zdigits2_le; [lia | lia |].
    change (2 ^ 57) with (16 * 2 ^ 53). lia. }
  destruct (round_aux_finite (xorb s false) q e' l B1 ltac:(lia) ltac:(lia))
    as [E | (m' & e'' & E)]; rewrite E; eauto.
Qed.

End FloatFacts.

(** ** Rounding to the nearest integer *)

Lemma rounds_to_fraction (n z : Z) (d : positive) :
  Spec.rounds_to (n # d) z <->
  2 * Z.abs (n - z * Zpos d) <= Zpos d /\
  (2 * Z.abs (n - z * Zpos d) = Zpos d -> Z.even z = true).
Proof.
  unfold Spec.rounds_to, Qabs, Qminus, Qplus, Qopp, inject_Z, Qle, Qeq.
  cbn [Qnum Qden]. rewrite Pos.mul_1_r.
  replace (n * 1 + - z * Zpos d) with (n - z * Zpos d) by lia.
  split; intros [H1 H2]; (split; [lia | intros H; apply H2; lia]).
Qed.

Lemma round_half_even_rounds_to (n : Z) (d : positive) :
  Spec.rounds_to (n # d) (Float.round_half_even n (Zpos d)).
Proof.
  apply rounds_to_fraction. unfold Float.round_half_even.
  pose proof (Z_div_mod_eq_full n (Zpos d)) as E.
  pose proof (Z.mod_pos_bound n (Zpos d) ltac:(lia)) as B.
  set (q := n / Zpos d) in *. set (r := n mod Zpos d) in *.
  destruct (Z.compare_spec (2 * r) (Zpos d)) as [C|C|C].
  - destruct (Z.even q) eqn:Ev.
    + split; [lia | intros _; exact Ev].
    + split; [lia | intros _].
      rewrite Z.even_add, Ev. reflexivity.
  - split; lia.
  - split; lia.
Qed.

(** The rounding is unique. *)
Lemma rounds_to_unique (x : Q) (z1 z2 : Z) :
  Spec.rounds_to x z1 -> Spec.rounds_to x z2 -> z1 = z2.
Proof.
  destruct x as [n d]. rewrite !rounds_to_fraction.
  intros [A1 A2] [B1 B2].
  destruct (Z.eq_dec z1 z2) as [|Hne]; [assumption | exfalso].
  assert (Hd : z1 = z2 + 1 \/ z2 = z1 + 1) by nia.
  assert (Ht : 2 * Z.abs (n - z1 * Zpos d) = Zpos d /\
               2 * Z.abs (n - z2 * Zpos d) = Zpos d) by nia.
  destruct Ht as [T1 T2]. specialize (A2 T1). specialize (B2 T2).
  destruct Hd as [-> | ->].
  - rewrite Z.even_add, B2 in A2. discriminate.
  - rewrite Z.even_add, A2 in B2. discriminate.
Qed.

Lemma rounds_to_Qeq (x y : Q) (z : Z) :
  (x == y)%Q -> Spec.rounds_to x z -> Spec.rounds_to y z.
Proof.
  unfold Spec.rounds_to. intros E [H1 H2]. rewrite <- E. split; assumption.
Qed.

(** ** The answer scorer: values of the intermediate statements *)

Lemma length_score_values (word_count : Z) :
  In (Analyze.length_score_of word_count) [20; 45; 65; 90; 75; 55].
Proof.
  unfold Analyze.length_score_of.
  repeat match goal with
         | |- context [if ?b then _ else _] => destruct b
         end; simpl; tauto.
Qed.

Lemma pace_score_values (wpm : num) :
  In (Analyze.pace_score_of wpm) [100; 80; 60; 40].
Proof.
  unfold Analyze.pace_score_of.
  repeat match goal with
         | |- context [if ?b then _ else _] => destruct b
         end; simpl; tauto.
Qed.

Lemma sum_from (l : list Z) (a : Z) : fold_left Z.add l a = a + Analyze.sum l.
Proof.
  unfold Analyze.sum. revert a. induction l as [|x l IH]; intros a; simpl.
  - lia.
  - rewrite IH, (IH x). lia.
Qed.

Lemma sum_cons (x : Z) (l : list Z) : Analyze.sum (x :: l) = x + Analyze.sum l.
Proof. unfold Analyze.sum at 1. simpl. apply sum_from. Qed.

Lemma sum_nonneg (l : list Z) : Forall (fun x => 0 <= x) l -> 0 <= Analyze.sum l.
Proof.
  induction 1 as [|x l Hx _ IH]; [reflexivity |]. rewrite sum_cons. lia.
Qed.

Lemma sum_le (l1 l2 : list Z) :
  Forall2 Z.le l1 l2 -> Analyze.sum l1 <= Analyze.sum l2.
Proof.
  induction 1 as [|x y l1 l2 Hxy _ IH]; [reflexivity |].
  rewrite !sum_cons. lia.
Qed.

Lemma count_nonneg (s sub : string) : 0 <= Str.count s sub.
Proof. unfold Str.count. destruct sub; lia. Qed.

Lemma filler_count_nonneg (transcript : string) :
  0 <= Analyze.filler_count_of transcript.
Proof.
  unfold Analyze.filler_count_of. apply sum_nonneg.
  apply Forall_map, Forall_forall. intros fw _. apply count_nonneg.
Qed.

Lemma filler_penalty_bounds (transcript : string) :
  0 <= Analyze.filler_penalty_of (Analyze.filler_count_of transcript) <= 20.
Proof.
  pose proof (filler_count_nonneg transcript).
  unfold Analyze.filler_penalty_of. lia.
Qed.

(** The float computation of the final score is exact: the raw score is a
    multiple of one half, and [round] sends it to the nearest integer. *)
Lemma final_score_exact (length_score pace_score filler_penalty : Z) :
  In length_score [20; 45; 65; 90; 75; 55] ->
  In pace_score [100; 80; 60; 40] ->
  0 <= filler_penalty <= 20 ->
  (raw <- Analyze.raw_score_of length_score pace_score filler_penalty ;;
   Analyze.final_score_of raw)
  = Ok (Spec.clamp 10 100
          (Float.round_half_even
             (length_score + pace_score - 2 * filler_penalty) 2)).
Proof.
  intros Hl Hp Hf.
  assert (Hc : In filler_penalty
                 [0; 1; 2; 3; 4; 5; 6; 7; 8; 9; 10; 11; 12; 13; 14; 15; 16;
                  17; 18; 19; 20]) by (simpl; lia).
  cbn [In] in Hl, Hp, Hc.
  repeat match goal with
         | H : _ \/ _ |- _ => destruct H as [H | H]
         | H : False |- _ => destruct H
         end; subst; vm_compute; reflexivity.
Qed.

Lemma raw_score_fraction (length_score pace_score filler_penalty : Z) :
  (Spec.raw_score length_score pace_score filler_penalty
   == (length_score + pace_score - 2 * filler_penalty) # 2)%Q.
Proof.
  unfold Spec.raw_score, Qeq, Qminus, Qplus, Qmult, Qopp, inject_Z.
  cbn [Qnum Qden]. lia.
Qed.

Lemma clamp_bounds (lo hi x : Z) : lo <= hi -> lo <= Spec.clamp lo hi x <= hi.
Proof.
  intros H. unfold Spec.clamp.
  destruct (Z.ltb_spec x lo); [lia |]. destruct (Z.ltb_spec hi x); lia.
Qed.

Lemma clamp_max_min (x : Z) : Z.max 10 (Z.min 100 x) = Spec.clamp 10 100 x.
Proof.
  unfold Spec.clamp.
  destruct (Z.ltb_spec x 10); [lia |]. destruct (Z.ltb_spec 100 x); lia.
Qed.

Lemma rating_of_spec (score : Z) : Analyze.rating_of score = Spec.rating score.
Proof.
  unfold Analyze.rating_of, Spec.rating. rewrite !Z.geb_leb. reflexivity.
Qed.

(** A positive duration is not a zero, so the division is defined. *)
Lemma positive_not_zero (d : Float.float) :
  Float.ltb (Float.of_Z 0) d = true -> Float.is_zero d = false.
Proof. destruct d as [s|s| |s m e]; [discriminate | | |]; reflexivity. Qed.

(** The words-per-minute statement raises nothing but the [OverflowError] of
    the conversion of the word count, and only for a positive duration. *)
Lemma wpm_of_cases (duration_seconds : Float.float) (word_count : Z) :
  (Float.ltb (Float.of_Z 0) duration_seconds = false /\
   Analyze.wpm_of duration_seconds word_count = Ok (Int 0)) \/
  (Float.ltb (Float.of_Z 0) duration_seconds = true /\
   Float.of_int word_count = Raise OverflowError /\
   Analyze.wpm_of duration_seconds word_count = Raise OverflowError) \/
  (Float.ltb (Float.of_Z 0) duration_seconds = true /\
   exists w q,
     Float.of_int word_count = Ok w /\
     Float.truediv w duration_seconds = Ok q /\
     Analyze.wpm_of duration_seconds word_count
       = Ok (Float (Float.mul q (Float.of_Z 60)))).
Proof.
  unfold Analyze.wpm_of.
  destruct (Float.ltb (Float.of_Z 0) duration_seconds) eqn:Hd; [right | left; auto].
  destruct (Float.of_int word_count) as [w|e] eqn:Hw.
  - right. split; [reflexivity |]. exists w.
    unfold Float.truediv. rewrite (positive_not_zero _ Hd).
    eexists. repeat split.
  - left. unfold Float.of_int in Hw.
    destruct (Float.of_Z word_count); inversion Hw. subst. auto.
Qed.

Lemma wpm_of_mantissa (duration_seconds : Float.float) (word_count : Z)
  (wpm : num) :
  Analyze.wpm_of duration_seconds word_count = Ok wpm -> Spec.wpm_mantissa_53 wpm.
Proof.
  destruct (wpm_of_cases duration_seconds word_count)
    as [[_ E] | [(_ & _ & E) | (_ & w & q & _ & _ & E)]];
    rewrite E; intros H; inversion H; subst; cbn [Spec.wpm_mantissa_53].
  - exact I.
  - apply SFmul_mantissa.
Qed.

Lemma num_round1_ok (wpm : num) :
  Spec.wpm_mantissa_53 wpm -> exists wpm1, Num.round1 wpm = Ok wpm1.
Proof.
  destruct wpm as [z|f]; cbn [Spec.wpm_mantissa_53 Num.round1]; [eauto |].
  intros H. destruct (round1_ok f H) as [y ->]. cbn [bind]. eauto.
Qed.

Section ScorerTotal.

Import Analyze.

Variable transcript : string.
Variable duration_seconds : Float.float.
Variable word_count : Z.

(** Once the words-per-minute statement has a value, the rest of the function
    runs to its [return]. *)
Lemma calculate_confidence_score_from_wpm (wpm : num) :
  wpm_of duration_seconds word_count = Ok wpm ->
  exists wpm1,
    Num.round1 wpm = Ok wpm1 /\
    calculate_confidence_score transcript duration_seconds word_count
    = let final_score :=
        Spec.clamp 10 100
          (Float.round_half_even
             (length_score_of word_count + pace_score_of wpm
              - 2 * filler_penalty_of (filler_count_of transcript)) 2) in
      Ok {| confidence_score := final_score;
            rating := rating_of final_score;
            score_breakdown :=
              {| length_score := length_score_of word_count;
                 pace_score := pace_score_of wpm;
                 filler_penalty :=
                   filler_penalty_of (filler_count_of transcript);
                 words_per_minute := wpm1;
                 filler_count := filler_count_of transcript |} |}.
Proof.
  intros Hw.
  destruct (num_round1_ok wpm (wpm_of_mantissa _ _ _ Hw)) as [wpm1 H1].
  exists wpm1. split; [exact H1 |].
  unfold calculate_confidence_score. rewrite Hw. cbn [bind].
  pose proof (final_score_exact (length_score_of word_count)
                (pace_score_of wpm)
                (filler_penalty_of (filler_count_of transcript))
                (length_score_values _) (pace_score_values _)
                (filler_penalty_bounds _)) as E.
  destruct (raw_score_of _ _ _) as [raw|e]; [| discriminate E].
  cbn [bind] in E |- *. rewrite E. cbn [bind]. rewrite H1. reflexivity.
Qed.

(** The function returns, or the conversion of the word count overflowed. *)
Lemma calculate_confidence_score_cases :
  (exists r,
      calculate_confidence_score transcript duration_seconds word_count
        = Ok r) \/
  (Float.ltb (Float.of_Z 0) duration_seconds = true /\
   Float.of_int word_count = Raise OverflowError /\
   calculate_confidence_score transcript duration_seconds word_count
     = Raise OverflowError).
Proof.
  destruct (wpm_of_cases duration_seconds word_count)
    as [[_ E] | [(Hd & Hw & E) | (_ & w & q & _ & _ & E)]].
  - left. destruct (calculate_confidence_score_from_wpm _ E) as (w1 & _ & ->).
    eauto.
  - right. repeat split; try assumption.
    unfold calculate_confidence_score. rewrite E. reflexivity.
  - left. destruct (calculate_confidence_score_from_wpm _ E) as (w1 & _ & ->).
    eauto.
Qed.

End ScorerTotal.

(** The function returns whenever the word count is below 2^1023 in
    magnitude. *)
Lemma calculate_confidence_score_total (transcript : string)
  (duration_seconds : Float.float) (word_count : Z) :
  Z.abs word_count < 2 ^ 1023 ->
  exists r,
    Analyze.calculate_confidence_score transcript duration_seconds word_count
      = Ok r.
Proof.
  intros H.
  destruct (calculate_confidence_score_cases transcript duration_seconds
              word_count) as [Hr | (_ & Hw & _)]; [exact Hr |].
  rewrite (of_int_ok _ H) in Hw. discriminate Hw.
Qed.

(** ** Counting occurrences *)

Lemma count_from_le_overlapping (sub s : string) (skip : nat) :
  (Str.count_from skip sub s <= Str.count_overlapping sub s)%nat.
Proof.
  revert skip. induction s as [|c s IH]; intros skip; [destruct skip; apply Nat.le_refl |].
  cbn [Str.count_from Str.count_overlapping].
  destruct skip as [|k].
  - destruct (prefix sub (String c s)).
    + specialize (IH (String.length sub - 1)%nat). lia.
    + specialize (IH O). lia.
  - specialize (IH k). lia.
Qed.

Lemma prefix_empty (s : string) : prefix EmptyString s = true.
Proof. destruct s; reflexivity. Qed.

Lemma prefix_cons (c d : ascii) (a b : string) :
  prefix (String c a) (String d b) = true <-> c = d /\ prefix a b = true.
Proof.
  cbn [prefix]. destruct (ascii_dec c d) as [E|E].
  - tauto.
  - split; [discriminate | tauto].
Qed.

Lemma prefix_of_append (x a rest : string) :
  prefix a (x ++ rest) = true ->
  (String.length x <= String.length a)%nat ->
  prefix x a = true.
Proof.
  revert a. induction x as [|d x IH]; intros a H L; [apply prefix_empty |].
  destruct a as [|e a]; [simpl in L; lia |].
  cbn [append] in H. apply prefix_cons in H. destruct H as [-> H].
  apply prefix_cons. split; [reflexivity |].
  apply IH; [exact H | simpl in L; lia].
Qed.

Lemma drop_append (j : nat) (x rest : string) :
  (j <= String.length x)%nat ->
  Spec.drop j (x ++ rest) = Spec.drop j x ++ rest.
Proof.
  revert x. induction j as [|j IH]; intros x L; [reflexivity |].
  destruct x as [|c x]; [simpl in L; lia |].
  cbn [append Spec.drop]. apply IH. simpl in L. lia.
Qed.

Lemma drop_length (j : nat) (x : string) :
  String.length (Spec.drop j x) = (String.length x - j)%nat.
Proof.
  revert x. induction j as [|j IH]; intros x; [simpl; lia |].
  destruct x as [|c x]; [reflexivity |]. cbn [Spec.drop String.length].
  rewrite IH. lia.
Qed.

Lemma border_free_spec (sub : string) (k : nat) :
  Spec.border_free sub = true ->
  (1 <= k < String.length sub)%nat ->
  prefix (Spec.drop k sub) sub = false.
Proof.
  unfold Spec.border_free. rewrite forallb_forall. intros H Hk.
  apply negb_true_iff, H, in_seq. lia.
Qed.

(** After a match of a border-free [sub], no match starts inside it. *)
Lemma no_match_inside (sub : string) (c : ascii) (s : string) (j : nat) :
  Spec.border_free sub = true ->
  prefix sub (String c s) = true ->
  (j < String.length sub - 1)%nat ->
  prefix sub (Spec.drop j s) = false.
Proof.
  intros Hb Hp Hj. apply prefix_occurs in Hp. destruct Hp as [rest E].
  destruct sub as [|c' sub']; [simpl in Hj; lia |].
  injection E as -> ->. cbn [String.length] in Hj.
  rewrite drop_append by lia.
  destruct (prefix (String c' sub') (Spec.drop j sub' ++ rest)) eqn:P;
    [exfalso | reflexivity].
  apply prefix_of_append in P.
  - change (Spec.drop j sub') with (Spec.drop (S j) (String c' sub')) in P.
    rewrite border_free_spec in P; [discriminate P | exact Hb |].
    cbn [String.length]. lia.
  - rewrite drop_length. cbn [String.length]. lia.
Qed.

Lemma count_from_overlapping (sub s : string) (skip : nat) :
  Spec.border_free sub = true ->
  (forall j, (j < skip)%nat -> prefix sub (Spec.drop j s) = false) ->
  Str.count_from skip sub s = Str.count_overlapping sub s.
Proof.
  intros Hb. revert skip. induction s as [|c s IH]; intros skip Inv;
    [destruct skip; reflexivity |].
  cbn [Str.count_from Str.count_overlapping].
  destruct skip as [|k].
  - destruct (prefix sub (String c s)) eqn:P.
    + rewrite IH; [reflexivity |].
      intros j Hj. apply (no_match_inside sub c); assumption.
    + apply IH. intros j Hj. lia.
  - pose proof (Inv O ltac:(lia)) as H0. cbn [Spec.drop] in H0.
    rewrite H0. apply IH.
    intros j Hj. apply (Inv (S j)). lia.
Qed.

(** For a border-free phrase [str.count] counts every occurrence. *)
Lemma count_border_free (sub s : string) :
  Spec.border_free sub = true ->
  sub <> EmptyString ->
  Str.count s sub = Z.of_nat (Str.count_overlapping sub s).
Proof.
  intros Hb Hne.
  assert (E : Str.count_from O sub s = Str.count_overlapping sub s).
  { apply count_from_overlapping; [exact Hb |]. intros j Hj. lia. }
  unfold Str.count. destruct sub; [congruence |]. rewrite E. reflexivity.
Qed.

(** ** Filler penalty *)

Lemma filler_count_terms (transcript : string) :
  Analyze.filler_count_of transcript
  = Str.count (Str.lower transcript) "um"
    + Str.count (Str.lower transcript) "uh"
    + Str.count (Str.lower transcript) "like"
    + Str.count (Str.lower transcript) "you know"
    + Str.count (Str.lower transcript) "basically"
    + Str.count (Str.lower transcript) "literally"
    + Str.count (Str.lower transcript) "actually"
    + Str.count (Str.lower transcript) "so so"
    + Str.count (Str.lower transcript) "kinda".
Proof.
  unfold Analyze.filler_count_of, Analyze.filler_words.
  cbn [map]. rewrite !sum_cons. unfold Analyze.sum. cbn [fold_left]. lia.
Qed.

Lemma count_le_overlapping (sub s : string) :
  sub <> EmptyString ->
  Str.count s sub <= Z.of_nat (Str.count_overlapping sub s).
Proof.
  intros Hne. unfold Str.count. destruct sub; [congruence |].
  apply inj_le, count_from_le_overlapping.
Qed.

Lemma filler_words_not_empty :
  Forall (fun fw => fw <> EmptyString) Analyze.filler_words.
Proof. repeat constructor; discriminate. Qed.

Lemma filler_count_le_occurrences (transcript : string) :
  Analyze.filler_count_of transcript <= Spec.filler_occurrences transcript.
Proof.
  unfold Analyze.filler_count_of, Spec.filler_occurrences.
  apply sum_le.
  induction filler_words_not_empty as [|fw l Hfw _ IH]; cbn [map];
    constructor; [apply count_le_overlapping, Hfw | exact IH].
Qed.

(** C2 (as the code behaves). The penalty is three times the number of
    occurrences of the nine filler phrases in the lowercased transcript,
    capped at 20, where the occurrences of one phrase are counted as
    [str.count] counts them: by a scan that resumes after each match, so that
    they never overlap. For every phrase but "so so" this is every occurrence;
    for "so so" it is at most every occurrence. The penalty is non-decreasing
    in the count and lies between 0 and 20. *)
Theorem filler_penalty_capped : forall transcript : string,
  let text := Str.lower transcript in
  let penalty :=
    Analyze.filler_penalty_of (Analyze.filler_count_of transcript) in
  Analyze.filler_count_of transcript
  = Str.count text "um" + Str.count text "uh" + Str.count text "like"
    + Str.count text "you know" + Str.count text "basically"
    + Str.count text "literally" + Str.count text "actually"
    + Str.count text "so so" + Str.count text "kinda" /\
  (forall fw,
      In fw Analyze.filler_words -> fw <> "so so" ->
      Str.count text fw = Z.of_nat (Str.count_overlapping fw text)) /\
  0 <= Str.count text "so so"
    <= Z.of_nat (Str.count_overlapping "so so" text) /\
  Analyze.filler_count_of transcript <= Spec.filler_occurrences transcript /\
  (forall transcript',
      Spec.case_variant transcript transcript' ->
      Analyze.filler_count_of transcript'
        = Analyze.filler_count_of transcript) /\
  penalty = Z.min (3 * Analyze.filler_count_of transcript) 20 /\
  0 <= penalty <= 20 /\
  (forall count count',
      count <= count' ->
      Analyze.filler_penalty_of count <= Analyze.filler_penalty_of count') /\
  (forall duration_seconds word_count r,
      Analyze.calculate_confidence_score transcript duration_seconds
        word_count = Ok r ->
      Analyze.filler_count (Analyze.score_breakdown r)
        = Analyze.filler_count_of transcript /\
      Analyze.filler_penalty (Analyze.score_breakdown r) = penalty).
Proof.
  intros transcript text penalty.
  split; [apply filler_count_terms |].
  split.
  { intros fw Hin Hne. cbn [Analyze.filler_words In] in Hin.
    repeat match goal with
           | H : _ \/ _ |- _ => destruct H as [H | H]
           | H : False |- _ => destruct H
           end; subst fw; try congruence;
      (apply count_border_free; [vm_compute; reflexivity | discriminate]). }
  split.
  { split; [apply count_nonneg | apply count_le_overlapping; discriminate]. }
  split; [apply filler_count_le_occurrences |].
  split.
  { intros transcript' H. unfold Analyze.filler_count_of.
    rewrite (lower_case_variant _ _ H). reflexivity. }
  split.
  { unfold penalty, Analyze.filler_penalty_of. f_equal. lia. }
  split; [apply filler_penalty_bounds |].
  split.
  { intros c c' H. unfold Analyze.filler_penalty_of. lia. }
  intros d wc r H.
  destruct (calculate_confidence_score_inv _ _ _ _ H)
    as (wpm & raw & wpm1 & _ & _ & _ & _ & ->).
  split; reflexivity.
Qed.

(** The transcript "so so so" holds two overlapping occurrences of "so so",
    of which [str.count] finds one: the penalty is 3, not 6. *)
Lemma filler_penalty_overlap_counterexample :
  Spec.filler_occurrences "so so so" = 2 /\
  Analyze.filler_count_of "so so so" = 1 /\
  Analyze.filler_penalty_of (Analyze.filler_count_of "so so so")
  <> Z.min (3 * Spec.filler_occurrences "so so so") 20.
Proof.
  split; [reflexivity | split; [reflexivity |]].
  vm_compute. discriminate.
Qed.

(** ** The confidence score *)

Lemma pace_score_of_spec (wpm : num) :
  Analyze.pace_score_of wpm = Spec.pace_score wpm.
Proof. reflexivity. Qed.

(** C1. For every transcript, duration of at least zero and word count of at
    least zero, a returned confidence score is computed from the inputs: the
    length score is the band of the word count, the words per minute are
    [(word_count / duration_seconds) * 60] in floating point, or the integer
    0 at duration zero, the pace score is the band of the words per minute,
    and the penalty is three times the filler count of the transcript, at
    most 20. The score is the raw score
    [0.5 * length_score + 0.5 * pace_score - filler_penalty] of these values,
    rounded to the nearest integer and clamped to the interval from 10 to
    100, and so lies in that interval; the breakdown reports the same values.
    The function does return for every word count below 2^1023. *)
Theorem confidence_score_clamped :
  forall (transcript : string) (duration_seconds : Float.float)
         (word_count : Z),
    Float.leb (Float.of_Z 0) duration_seconds = true ->
    0 <= word_count ->
    (forall r,
        Analyze.calculate_confidence_score transcript duration_seconds
          word_count = Ok r ->
        exists wpm rounded,
          ((Float.ltb (Float.of_Z 0) duration_seconds = false /\
            wpm = Int 0) \/
           (Float.ltb (Float.of_Z 0) duration_seconds = true /\
            exists w q,
              Float.of_int word_count = Ok w /\
              Float.truediv w duration_seconds = Ok q /\
              wpm = Float (Float.mul q (Float.of_Z 60)))) /\
          Analyze.length_score (Analyze.score_breakdown r)
            = Spec.length_score word_count /\
          Analyze.pace_score (Analyze.score_breakdown r)
            = Spec.pace_score wpm /\
          Analyze.filler_count (Analyze.score_breakdown r)
            = Analyze.filler_count_of transcript /\
          Analyze.filler_penalty (Analyze.score_breakdown r)
            = Z.min (3 * Analyze.filler_count_of transcript) 20 /\
          Spec.rounds_to
            (Spec.raw_score
               (Spec.length_score word_count)
               (Spec.pace_score wpm)
               (Z.min (3 * Analyze.filler_count_of transcript) 20))
            rounded /\
          Spec.rounds_to
            (Spec.raw_score
               (Analyze.length_score (Analyze.score_breakdown r))
               (Analyze.pace_score (Analyze.score_breakdown r))
               (Analyze.filler_penalty (Analyze.score_breakdown r)))
            rounded /\
          Analyze.confidence_score r = Spec.clamp 10 100 rounded /\
          10 <= Analyze.confidence_score r <= 100) /\
    (word_count < 2 ^ 1023 ->
     exists r,
       Analyze.calculate_confidence_score transcript duration_seconds
         word_count = Ok r).
Proof.
  intros transcript d wc _ Hwc. split.
  - intros r H.
    destruct (calculate_confidence_score_inv _ _ _ _ H)
      as (wpm & _ & _ & Hw & _).
    destruct (calculate_confidence_score_from_wpm transcript d wc wpm Hw)
      as (wpm1 & _ & E).
    rewrite E in H. cbv zeta in H. injection H as <-.
    cbn [Analyze.confidence_score Analyze.score_breakdown
         Analyze.length_score Analyze.pace_score Analyze.filler_penalty
         Analyze.filler_count].
    assert (Hp : Analyze.filler_penalty_of (Analyze.filler_count_of transcript)
                 = Z.min (3 * Analyze.filler_count_of transcript) 20).
    { unfold Analyze.filler_penalty_of. f_equal. lia. }
    assert (Hr : Spec.rounds_to
                   (Spec.raw_score (Analyze.length_score_of wc)
                      (Analyze.pace_score_of wpm)
                      (Analyze.filler_penalty_of
                         (Analyze.filler_count_of transcript)))
                   (Float.round_half_even
                      (Analyze.length_score_of wc + Analyze.pace_score_of wpm
                       - 2 * Analyze.filler_penalty_of
                               (Analyze.filler_count_of transcript)) 2)).
    { eapply rounds_to_Qeq.
      - symmetry. apply raw_score_fraction.
      - apply round_half_even_rounds_to. }
    exists wpm. eexists.
    split.
    { destruct (wpm_of_cases d wc)
        as [[Hd Hz] | [(_ & _ & Hz) | (Hd & w & q & Hw' & Hq & Hz)]];
        rewrite Hz in Hw.
      - injection Hw as <-. left. split; [exact Hd | reflexivity].
      - discriminate Hw.
      - injection Hw as <-. right. split; [exact Hd |].
        exists w, q. repeat split; assumption. }
    split; [apply length_score_of_spec |].
    split; [apply pace_score_of_spec |].
    split; [reflexivity |].
    split; [exact Hp |].
    split.
    { rewrite <- Hp, <- length_score_of_spec, <- pace_score_of_spec.
      exact Hr. }
    split; [exact Hr |].
    split; [reflexivity | apply clamp_bounds; lia].
  - intros H. apply calculate_confidence_score_total. lia.
Qed.

Lemma confidence_score_clamped_witness :
  exists r,
    Analyze.calculate_confidence_score "um um um" (Float.of_Z 10) 20 = Ok r /\
    exists wpm rounded,
      ((Float.ltb (Float.of_Z 0) (Float.of_Z 10) = false /\ wpm = Int 0) \/
       (Float.ltb (Float.of_Z 0) (Float.of_Z 10) = true /\
        exists w q,
          Float.of_int 20 = Ok w /\
          Float.truediv w (Float.of_Z 10) = Ok q /\
          wpm = Float (Float.mul q (Float.of_Z 60)))) /\
      Analyze.length_score (Analyze.score_breakdown r)
        = Spec.length_score 20 /\
      Analyze.pace_score (Analyze.score_breakdown r) = Spec.pace_score wpm /\
      Analyze.filler_count (Analyze.score_breakdown r)
        = Analyze.filler_count_of "um um um" /\
      Analyze.filler_penalty (Analyze.score_breakdown r)
        = Z.min (3 * Analyze.filler_count_of "um um um") 20 /\
      Spec.rounds_to
        (Spec.raw_score (Spec.length_score 20) (Spec.pace_score wpm)
           (Z.min (3 * Analyze.filler_count_of "um um um") 20))
        rounded /\
      Spec.rounds_to
        (Spec.raw_score
           (Analyze.length_score (Analyze.score_breakdown r))
           (Analyze.pace_score (Analyze.score_breakdown r))
           (Analyze.filler_penalty (Analyze.score_breakdown r)))
        rounded /\
      Analyze.confidence_score r = Spec.clamp 10 100 rounded /\
      10 <= Analyze.confidence_score r <= 100.
Proof.
  destruct (confidence_score_clamped "um um um" (Float.of_Z 10) 20)
    as [Hscore Htotal]; [reflexivity | lia |].
  destruct Htotal as [r Hr]; [lia |].
  exists r. split; [exact Hr | exact (Hscore r Hr)].
Defined.

(** C6. The worked example of the specification. *)
Theorem example_um_um_um :
  Analyze.wpm_of (Float.of_Z 10) 20 = Ok (Float (Float.of_Z 120)) /\
  Analyze.pace_score_of (Float (Float.of_Z 120)) = 100 /\
  Analyze.length_score_of 20 = 45 /\
  Analyze.filler_count_of "um um um" = 3 /\
  Analyze.filler_penalty_of 3 = 9 /\
  (Spec.raw_score 45 100 9 == 635 # 10)%Q /\
  Analyze.raw_score_of 45 100 9 = Float.int_truediv 635 10 /\
  (raw <- Analyze.raw_score_of 45 100 9 ;; Float.round raw) = Ok 64 /\
  Analyze.calculate_confidence_score "um um um" (Float.of_Z 10) 20
  = Ok {| Analyze.confidence_score := 64;
          Analyze.rating := "Average";
          Analyze.score_breakdown :=
            {| Analyze.length_score := 45;
               Analyze.pace_score := 100;
               Analyze.filler_penalty := 9;
               Analyze.words_per_minute := Float (Float.of_Z 120);
               Analyze.filler_count := 3 |} |}.
Proof.
  repeat (split; [vm_compute; reflexivity |]). vm_compute. reflexivity.
Qed.

(** ** Zero duration and empty transcript *)

Lemma rounded_at_most_65 (length_score penalty : Z) :
  In length_score [20; 45; 65; 90; 75; 55] -> 0 <= penalty <= 20 ->
  10 <= Spec.clamp 10 100
          (Float.round_half_even (length_score + 40 - 2 * penalty) 2) <= 65.
Proof.
  intros Hl Hp. split; [apply clamp_bounds; lia |].
  unfold Spec.clamp, Float.round_half_even.
  assert (Hq : (length_score + 40 - 2 * penalty) / 2 <= 65)
    by (apply Z.div_le_upper_bound; [lia |]; cbn [In] in Hl; lia).
  assert (Hq' : (length_score + 40 - 2 * penalty) / 2 = 65 ->
                (length_score + 40 - 2 * penalty) mod 2 = 0).
  { intros E. cbn [In] in Hl.
    pose proof (Z_div_mod_eq_full (length_score + 40 - 2 * penalty) 2).
    pose proof (Z.mod_pos_bound (length_score + 40 - 2 * penalty) 2). lia. }
  set (q := (length_score + 40 - 2 * penalty) / 2) in *.
  set (r := (length_score + 40 - 2 * penalty) mod 2) in *.
  destruct (Z.compare_spec (2 * r) 2) as [C|C|C];
    [destruct (Z.even q) | |];
    repeat match goal with
           | |- context [?a <? ?b] => destruct (Z.ltb_spec a b)
           end; lia.
Qed.

Lemma filler_count_empty : Analyze.filler_count_of "" = 0.
Proof. reflexivity. Qed.

(** C5. With a duration of zero (of either sign) the division is not reached:
    words per minute is the integer 0, the pace score is 40, and a result is
    returned whose score is between 10 and 65. With an empty transcript a
    result is returned as well, for every duration and every word count whose
    conversion to a float is defined; for the word count 0 of an empty
    transcript the score is 30. The function never raises
    [ZeroDivisionError]. *)
Theorem zero_duration_is_scored :
  forall (transcript : string) (word_count : Z) (sign : bool),
    (exists r,
        Analyze.calculate_confidence_score transcript (S754_zero sign)
          word_count = Ok r /\
        Analyze.words_per_minute (Analyze.score_breakdown r) = Int 0 /\
        Analyze.pace_score (Analyze.score_breakdown r) = 40 /\
        Analyze.rating r = Spec.rating (Analyze.confidence_score r) /\
        10 <= Analyze.confidence_score r <= 65) /\
    (forall duration_seconds,
        Z.abs word_count < 2 ^ 1023 ->
        exists r,
          Analyze.calculate_confidence_score "" duration_seconds word_count
            = Ok r /\
          Analyze.filler_penalty (Analyze.score_breakdown r) = 0 /\
          10 <= Analyze.confidence_score r <= 100) /\
    (forall duration_seconds,
        exists r,
          Analyze.calculate_confidence_score "" duration_seconds 0 = Ok r /\
          Analyze.confidence_score r = 30 /\
          Analyze.rating r = "Needs Improvement") /\
    (forall duration_seconds,
        Analyze.calculate_confidence_score transcript duration_seconds
          word_count <> Raise ZeroDivisionError).
Proof.
  intros transcript wc sign. split; [| split; [| split]].
  - assert (Hw : Analyze.wpm_of (S754_zero sign) wc = Ok (Int 0))
      by (destruct sign; reflexivity).
    destruct (calculate_confidence_score_from_wpm transcript _ _ _ Hw)
      as (wpm1 & H1 & E).
    injection H1 as <-. rewrite E. cbv zeta. eexists. split; [reflexivity |].
    cbn [Analyze.score_breakdown Analyze.words_per_minute Analyze.pace_score
         Analyze.confidence_score Analyze.rating].
    split; [reflexivity | split; [reflexivity |]].
    split; [apply rating_of_spec |].
    change (Analyze.pace_score_of (Int 0)) with 40.
    apply rounded_at_most_65;
      [apply length_score_values | apply filler_penalty_bounds].
  - intros d H.
    destruct (calculate_confidence_score_total "" d wc H) as [r Hr].
    exists r. split; [exact Hr |].
    destruct (calculate_confidence_score_inv _ _ _ _ Hr)
      as (wpm & _ & _ & Hw & _).
    destruct (calculate_confidence_score_from_wpm "" d wc wpm Hw)
      as (wpm1 & _ & E).
    rewrite E in Hr. cbv zeta in Hr. injection Hr as <-.
    cbn [Analyze.score_breakdown Analyze.filler_penalty
         Analyze.confidence_score].
    split; [reflexivity | apply clamp_bounds; lia].
  - intros d.
    destruct (wpm_of_cases d 0)
      as [[_ E] | [(_ & Hw & _) | (Hd & w & q & Hw & Hq & E)]].
    + destruct (calculate_confidence_score_from_wpm "" _ _ _ E)
        as (wpm1 & _ & ->).
      eexists. split; [reflexivity | split; reflexivity].
    + discriminate Hw.
    + injection Hw as <-.
      assert (Hz : exists s, q = S754_zero s).
      { unfold Float.truediv in Hq.
        destruct d as [s|[]| |[] m e]; try discriminate Hd; cbn in Hq;
          injection Hq as <-; eauto. }
      destruct Hz as [s ->].
      destruct (calculate_confidence_score_from_wpm "" _ _ _ E)
        as (wpm1 & _ & ->).
      destruct s; eexists; (split; [reflexivity | split; reflexivity]).
  - intros d H.
    destruct (calculate_confidence_score_cases transcript d wc)
      as [[r Hr] | (_ & _ & Hr)]; rewrite Hr in H; discriminate H.
Qed.

Lemma zero_duration_is_scored_witness :
  exists r,
    Analyze.calculate_confidence_score "" (Float.of_Z 30) 7 = Ok r /\
    Analyze.filler_penalty (Analyze.score_breakdown r) = 0 /\
    10 <= Analyze.confidence_score r <= 100.
Proof.
  destruct (zero_duration_is_scored "" 7 false) as (_ & H & _).
  apply (H (Float.of_Z 30)). vm_compute. reflexivity.
Defined.

(** ** Text analysis *)

Lemma word_starts_le_length (s : string) (b : bool) :
  (Spec.word_starts b s <= String.length s)%nat.
Proof.
  revert b. induction s as [|c s IH]; intros b; [apply Nat.le_refl |].
  cbn [Spec.word_starts String.length].
  destruct (Str.isspace c).
  - specialize (IH true). lia.
  - specialize (IH false). destruct b; lia.
Qed.

(** [str.isspace] holds of the listed whitespace characters and of no
    other. *)
Lemma isspace_spec (c : ascii) : Str.isspace c = Spec.is_whitespace c.
Proof. destruct c as [[] [] [] [] [] [] [] []]; vm_compute; reflexivity. Qed.

Lemma split_aux_spaces (ws s : string) :
  Spec.all_space ws = true ->
  Str.split_aux "" (ws ++ s) = Str.split_aux "" s.
Proof.
  induction ws as [|c ws IH]; cbn [append Spec.all_space]; [reflexivity |].
  intros H. apply andb_true_iff in H. destruct H as [Hc H].
  cbn [Str.split_aux]. rewrite Hc. apply IH, H.
Qed.

Lemma split_aux_token (t tok s : string) :
  Spec.no_space t = true ->
  Str.split_aux tok (t ++ s) = Str.split_aux (tok ++ t) s.
Proof.
  revert tok. induction t as [|c t IH]; intros tok H.
  - rewrite append_nil_r. reflexivity.
  - cbn [Spec.no_space] in H. apply andb_true_iff in H.
    destruct H as [Hc H]. apply negb_true_iff in Hc.
    cbn [append Str.split_aux]. rewrite Hc, (IH _ H), append_assoc.
    reflexivity.
Qed.

Lemma split_aux_blank_rest (tok ws : string) :
  tok <> "" -> Spec.all_space ws = true -> Str.split_aux tok ws = [tok].
Proof.
  intros Ht H. destruct ws as [|c ws].
  - destruct tok; [congruence | reflexivity].
  - cbn [Spec.all_space] in H. apply andb_true_iff in H.
    destruct H as [Hc H]. cbn [Str.split_aux]. rewrite Hc.
    rewrite <- (append_nil_r ws), (split_aux_spaces ws "" H).
    destruct tok; [congruence | reflexivity].
Qed.

Lemma split_aux_separator (tok sep s : string) :
  tok <> "" -> sep <> "" -> Spec.all_space sep = true ->
  Str.split_aux tok (sep ++ s) = tok :: Str.split_aux "" s.
Proof.
  intros Ht Hne H. destruct sep as [|c sep]; [congruence |].
  cbn [Spec.all_space] in H. apply andb_true_iff in H.
  destruct H as [Hc H]. cbn [append Str.split_aux]. rewrite Hc.
  rewrite (split_aux_spaces sep s H).
  destruct tok; [congruence | reflexivity].
Qed.

(** Splitting gives back the tokens that were joined by whitespace. *)
Lemma split_join (lead sep trail : string) (tokens : list string) :
  Spec.all_space lead = true ->
  Spec.all_space sep = true -> sep <> "" ->
  Spec.all_space trail = true ->
  Forall (fun t => t <> "" /\ Spec.no_space t = true) tokens ->
  Str.split (lead ++ Slice.join sep tokens ++ trail) = tokens.
Proof.
  intros Hlead Hsep Hne Htrail Htokens. unfold Str.split.
  rewrite (split_aux_spaces lead _ Hlead).
  induction Htokens as [|t ts [Ht Hs] Hts IH].
  - cbn [Slice.join append].
    rewrite <- (append_nil_r trail), (split_aux_spaces trail "" Htrail).
    reflexivity.
  - destruct ts as [|t' ts].
    + cbn [Slice.join]. rewrite (split_aux_token t "" trail Hs).
      cbn [append]. apply split_aux_blank_rest; assumption.
    + change (Slice.join sep (t :: t' :: ts))
        with (t ++ sep ++ Slice.join sep (t' :: ts)).
      rewrite !append_assoc. rewrite (split_aux_token t "" _ Hs).
      cbn [append].
      rewrite (split_aux_separator t sep _ Ht Hne Hsep), IH. reflexivity.
Qed.

(** C10. The word count of [analyze_text] is the length of
    [transcript.split()], that is the number of whitespace-delimited tokens of
    the transcript: each token is a non-empty run of characters that are not
    whitespace, one starts wherever such a character stands first or follows
    whitespace, and a transcript of whitespace only has none. Whitespace is
    the listed set of characters, the space among them; tokens joined by runs
    of whitespace, with whitespace before and after, are the tokens the split
    returns. This count is the one passed to the scorer and echoed in the
    response. *)
Theorem analyze_text_word_count :
  forall (transcript : string) (duration : Float.float) (question_index : Z),
    Z.of_nat (List.length (Str.split transcript))
      = Spec.word_count transcript /\
    Forall (fun t => t <> EmptyString /\ Spec.no_space t = true)
      (Str.split transcript) /\
    (Spec.all_space transcript = true -> Spec.word_count transcript = 0) /\
    (forall c,
        Str.isspace c = true ->
        List.length (Str.split (String c transcript))
          = List.length (Str.split transcript) /\
        List.length (Str.split (transcript ++ String c EmptyString))
          = List.length (Str.split transcript)) /\
    (forall before after c d,
        transcript = before ++ String c (String d after) ->
        Str.isspace c = true -> Str.isspace d = true ->
        List.length (Str.split transcript)
          = List.length (Str.split (before ++ String c after))) /\
    (forall a,
        Analyze.analyze_text transcript duration question_index = Ok a ->
        Analyze.a_word_count a = Spec.word_count transcript /\
        Analyze.calculate_confidence_score transcript duration
          (Spec.word_count transcript) = Ok (Analyze.a_score a) /\
        Analyze.a_transcript a = transcript /\
        Analyze.a_duration_seconds a = duration /\
        Analyze.a_question_index a = question_index) /\
    (Z.of_nat (String.length transcript) < 2 ^ 1023 ->
     exists a, Analyze.analyze_text transcript duration question_index = Ok a) /\
    (forall c, Str.isspace c = Spec.is_whitespace c) /\
    (forall lead sep trail tokens,
        Spec.all_space lead = true ->
        Spec.all_space sep = true -> sep <> "" ->
        Spec.all_space trail = true ->
        Forall (fun t => t <> "" /\ Spec.no_space t = true) tokens ->
        transcript = lead ++ Slice.join sep tokens ++ trail ->
        Str.split transcript = tokens /\
        (forall a,
            Analyze.analyze_text transcript duration question_index = Ok a ->
            Analyze.a_word_count a = Z.of_nat (List.length tokens))).
Proof.
  intros transcript duration question_index.
  assert (Hecho : forall a,
             Analyze.analyze_text transcript duration question_index = Ok a ->
             Analyze.a_word_count a = Spec.word_count transcript /\
             Analyze.calculate_confidence_score transcript duration
               (Spec.word_count transcript) = Ok (Analyze.a_score a) /\
             Analyze.a_transcript a = transcript /\
             Analyze.a_duration_seconds a = duration /\
             Analyze.a_question_index a = question_index).
  { intros a H. unfold Analyze.analyze_text in H.
    rewrite split_length in H. bind_inversion H. injection H as <-.
    cbn [Analyze.a_word_count Analyze.a_score Analyze.a_transcript
         Analyze.a_duration_seconds Analyze.a_question_index].
    repeat split; try reflexivity. exact E. }
  split; [apply split_length |].
  split; [apply split_tokens |].
  split.
  { intros H. unfold Spec.word_count.
    rewrite (word_starts_all_space _ _ H). reflexivity. }
  split.
  { intros c Hc. unfold Str.split. rewrite !split_aux_length. split.
    - cbn [Spec.word_starts]. rewrite Hc. reflexivity.
    - apply word_starts_append_space, Hc. }
  split.
  { intros before after c d -> Hc Hd. unfold Str.split.
    rewrite !split_aux_length. apply word_starts_double_space; assumption. }
  split; [exact Hecho |].
  split.
  { intros H. unfold Analyze.analyze_text. rewrite split_length.
    destruct (calculate_confidence_score_total transcript duration
                (Spec.word_count transcript)) as [r ->].
    + unfold Spec.word_count.
      pose proof (word_starts_le_length transcript true). lia.
    + cbn [bind]. eauto. }
  split; [apply isspace_spec |].
  intros lead sep trail tokens Hlead Hsep Hne Htrail Htokens Ht.
  assert (Hsplit : Str.split transcript = tokens).
  { rewrite Ht. apply split_join; assumption. }
  split; [exact Hsplit |].
  intros a Ha. destruct (Hecho a Ha) as [-> _].
  rewrite <- split_length, Hsplit. reflexivity.
Qed.

Lemma analyze_text_word_count_witness :
  exists a,
    Analyze.analyze_text "  um   well  " (Float.of_Z 30) 3 = Ok a /\
    Analyze.a_word_count a = 2 /\
    Str.split "  um   well  " = ["um"; "well"].
Proof.
  destruct (analyze_text_word_count "  um   well  " (Float.of_Z 30) 3)
    as (_ & _ & _ & _ & _ & _ & Htotal & _ & Hjoin).
  destruct Htotal as [a Ha]; [vm_compute; reflexivity |].
  exists a. split; [exact Ha |].
  destruct (Hjoin "  " "   " "  " ["um"; "well"]) as [Hsplit Hcount].
  - reflexivity.
  - reflexivity.
  - discriminate.
  - reflexivity.
  - repeat constructor; discriminate.
  - reflexivity.
  - split; [exact (Hcount a Ha) | exact Hsplit].
Defined.

(** Runs of whitespace collapse and leading and trailing whitespace is
    ignored: an example. *)
Example split_example :
  Str.split ("  so   um," ++ String "009" (String "010" " like this  "))
    = ["so"; "um,"; "like"; "this"] /\
  Str.split (String "009" "   ") = [] /\
  Str.split "" = [].
Proof. repeat split. Qed.

(** ** Division of integers: the float mean rounds like the exact mean *)

Lemma round_half_even_cases (n d : Z) :
  0 < d ->
  let q := n / d in
  let r := n mod d in
  n = d * q + r /\ 0 <= r < d /\
  ((2 * r < d /\ Float.round_half_even n d = q) \/
   (2 * r > d /\ Float.round_half_even n d = q + 1) \/
   (2 * r = d /\ Float.round_half_even n d = if Z.even q then q else q + 1)).
Proof.
  intros Hd q r. unfold Float.round_half_even. fold q r.
  split; [apply Z_div_mod_eq_full |].
  split; [apply Z.mod_pos_bound, Hd |].
  destruct (Z.compare_spec (2 * r) d); [right; right | left | right; left];
    split; (lia || reflexivity).
Qed.

(** A quotient and a remainder determine the rounding. *)
Lemma round_half_even_unique (n d q r : Z) :
  n = d * q + r -> 0 <= r < d ->
  Float.round_half_even n d
  = match 2 * r ?= d with
    | Lt => q
    | Gt => q + 1
    | Eq => if Z.even q then q else q + 1
    end.
Proof.
  intros E B. unfold Float.round_half_even.
  assert (Hq : n / d = q) by (symmetry; apply (Z.div_unique_pos n d q r); lia).
  assert (Hr : n mod d = r) by (symmetry; apply (Z.mod_unique_pos n d q r); lia).
  rewrite Hq, Hr. reflexivity.
Qed.

Lemma round_half_even_scale (a b : Z) :
  0 < b -> Float.round_half_even (2 * a) (2 * b) = Float.round_half_even a b.
Proof.
  intros Hb.
  destruct (round_half_even_cases a b Hb) as (E & B & _). cbv zeta in E, B.
  rewrite (round_half_even_unique (2 * a) (2 * b) (a / b) (2 * (a mod b)))
    by lia.
  unfold Float.round_half_even.
  destruct (Z.compare_spec (2 * (a mod b)) b),
           (Z.compare_spec (2 * (2 * (a mod b))) (2 * b));
    try reflexivity; lia.
Qed.

(** Rounding to a grid finer than the denominator and then to an integer is
    rounding to an integer. *)
Lemma round_half_even_twice (s n t : Z) :
  0 <= s -> 0 < n -> n < 2 * t ->
  Float.round_half_even (Float.round_half_even (s * (2 * t)) n) (2 * t)
  = Float.round_half_even s n.
Proof.
  intros Hs Hn Ht.
  destruct (round_half_even_cases s n Hn) as (E1 & B1 & C1).
  destruct (round_half_even_cases (s * (2 * t)) n Hn) as (E2 & B2 & C2).
  cbv zeta in *.
  set (k := s / n) in *. set (p := s mod n) in *.
  set (q := s * (2 * t) / n) in *. set (r := s * (2 * t) mod n) in *.
  assert (Hk : 0 <= k) by (apply Z.div_pos; lia).
  (* q = k * 2t + a with 0 <= a <= 2t *)
  set (a := q - k * (2 * t)).
  assert (Ea : p * (2 * t) = n * a + r) by (unfold a; nia).
  assert (Ha : 0 <= a < 2 * t) by nia.
  destruct C1 as [[Cp ->] | [[Cp ->] | [Cp ->]]].
  - (* below the midpoint *)
    assert (Hy : exists y, Float.round_half_even (s * (2 * t)) n
                           = k * (2 * t) + y /\ 0 <= y /\ y < t).
    { destruct C2 as [[Cr ->] | [[Cr ->] | [Cr ->]]].
      - exists a. split; [unfold a; lia | nia].
      - exists (a + 1). split; [unfold a; lia | nia].
      - exists (if Z.even q then a else a + 1).
        split; [unfold a; destruct (Z.even q); lia |].
        destruct (Z.even q); nia. }
    destruct Hy as (y & -> & Hy0 & Hy1).
    rewrite (round_half_even_unique _ (2 * t) k y) by lia.
    destruct (Z.compare_spec (2 * y) (2 * t)); [lia | reflexivity | lia].
  - (* above the midpoint *)
    assert (Hy : exists y, Float.round_half_even (s * (2 * t)) n
                           = k * (2 * t) + y /\ t < y /\ y <= 2 * t).
    { destruct C2 as [[Cr ->] | [[Cr ->] | [Cr ->]]].
      - exists a. split; [unfold a; lia | nia].
      - exists (a + 1). split; [unfold a; lia | nia].
      - exists (if Z.even q then a else a + 1).
        split; [unfold a; destruct (Z.even q); lia |].
        destruct (Z.even q); nia. }
    destruct Hy as (y & -> & Hy0 & Hy1).
    destruct (Z.eq_dec y (2 * t)) as [-> | Hne].
    + rewrite (round_half_even_unique _ (2 * t) (k + 1) 0) by lia.
      destruct (Z.compare_spec (2 * 0) (2 * t)); [lia | reflexivity | lia].
    + rewrite (round_half_even_unique _ (2 * t) k y) by lia.
      destruct (Z.compare_spec (2 * y) (2 * t)); [lia | lia | reflexivity].
  - (* at the midpoint: the first rounding is exact *)
    assert (Ea' : n * (t - a) = r).
    { replace (p * (2 * t)) with (2 * p * t) in Ea by ring.
      rewrite Cp in Ea. lia. }
    assert (Hat : a = t).
    { destruct (Z_lt_le_dec a t); [nia |].
      destruct (Z_lt_le_dec t a); [nia | lia]. }
    assert (Hr : r = 0) by (rewrite <- Ea', Hat; ring).
    destruct C2 as [[Cr ->] | [[Cr _] | [Cr _]]]; [| lia | lia].
    replace q with (k * (2 * t) + t) by (unfold a in Hat; lia).
    rewrite (round_half_even_unique _ (2 * t) k t) by lia.
    rewrite Z.compare_refl. reflexivity.
Qed.

Lemma new_location_spec (n r : Z) :
  0 < n -> 0 <= r < n ->
  new_location n r
  = if r =? 0 then loc_Exact else loc_Inexact (2 * r ?= n).
Proof.
  intros Hn Hr. unfold new_location, new_location_even, new_location_odd.
  destruct (Z.even n) eqn:Ev; destruct (r =? 0); try reflexivity.
  f_equal.
  assert (Ho : Z.odd n = true) by (rewrite <- Z.negb_even, Ev; reflexivity).
  apply Z.odd_spec in Ho. destruct Ho as [k Hk].
  destruct (Z.compare_spec (2 * r + 1) n), (Z.compare_spec (2 * r) n);
    try reflexivity; lia.
Qed.

Lemma round_nearest_even_quotient (a n : Z) :
  0 < n ->
  round_nearest_even (a / n) (new_location n (a mod n))
  = Float.round_half_even a n.
Proof.
  intros Hn.
  rewrite new_location_spec by (try apply Z.mod_pos_bound; lia).
  unfold Float.round_half_even.
  destruct (Z.eqb_spec (a mod n) 0) as [E|E]; cbn [round_nearest_even].
  - rewrite E. destruct (Z.compare_spec (2 * 0) n); [lia | reflexivity | lia].
  - destruct (2 * (a mod n) ?= n); reflexivity.
Qed.

Lemma shr_1_spec (m : Z) (r s : bool) :
  0 <= m ->
  shr_1 {| shr_m := m; shr_r := r; shr_s := s |}
  = {| shr_m := m / 2; shr_r := Z.odd m; shr_s := r || s |}.
Proof.
  intros Hm.
  pose proof (shr_1_m {| shr_m := m; shr_r := r; shr_s := s |} Hm) as E.
  cbn [shr_m] in E. rewrite <- E.
  destruct m as [|[p|p|]|p]; try lia; reflexivity.
Qed.

(** One more bit of quotient, shifted out again, gives the same rounding. *)
Lemma round_nearest_even_quotient_shifted (a n : Z) :
  0 < n -> 0 <= a ->
  let mrs :=
    shr_1 (shr_record_of_loc (2 * a / n) (new_location n ((2 * a) mod n))) in
  round_nearest_even (shr_m mrs) (loc_of_shr_record mrs)
  = Float.round_half_even a n.
Proof.
  intros Hn Ha mrs.
  pose proof (Z_div_mod_eq_full (2 * a) n) as E.
  pose proof (Z.mod_pos_bound (2 * a) n Hn) as B.
  assert (Hq : 0 <= 2 * a / n) by (apply Z.div_pos; lia).
  set (q := 2 * a / n) in *. set (r := (2 * a) mod n) in *.
  pose proof (Z.div2_odd q) as Eq. rewrite Z.div2_div in Eq.
  set (h := q / 2) in *.
  assert (Hmrs : mrs = {| shr_m := h; shr_r := Z.odd q;
                          shr_s := negb (r =? 0) |}).
  { unfold mrs. rewrite new_location_spec by lia.
    destruct (r =? 0); [| destruct (2 * r ?= n)];
      cbn [shr_record_of_loc]; rewrite shr_1_spec by lia; reflexivity. }
  rewrite Hmrs. cbn [shr_m loc_of_shr_record].
  rewrite (round_half_even_unique a n h (a - n * h)).
  - destruct (Z.odd q) eqn:Od; cbn [Z.b2z] in Eq;
      destruct (Z.eqb_spec r 0) as [Er|Er]; cbn [negb round_nearest_even];
      destruct (Z.compare_spec (2 * (a - n * h)) n); try reflexivity; nia.
  - ring.
  - destruct (Z.odd q); cbn [Z.b2z] in Eq; nia.
Qed.

Lemma shr_fexp_53 (q e : Z) (l : location) :
  2 ^ 52 <= q < 2 ^ 53 -> -1074 <= e ->
  shr_fexp Float.prec Float.emax q e l = (shr_record_of_loc q l, e).
Proof.
  intros Hq He. unfold shr_fexp.
  rewrite (Zdigits2_unique q 53) by lia. rewrite fexp_eq.
  replace (Z.max (53 + e - 53) (-1074) - e) with 0 by lia. reflexivity.
Qed.

Lemma shr_fexp_54 (q e : Z) (l : location) :
  2 ^ 53 <= q < 2 ^ 54 -> -1075 <= e ->
  shr_fexp Float.prec Float.emax q e l
  = (shr_1 (shr_record_of_loc q l), e + 1).
Proof.
  intros Hq He. unfold shr_fexp.
  rewrite (Zdigits2_unique q 54) by lia. rewrite fexp_eq.
  replace (Z.max (54 + e - 53) (-1074) - e) with 1 by lia. reflexivity.
Qed.

(** The last step of [binary_round_aux] on a rounded mantissa of 53 bits, or
    of 54 bits after a carry. *)
Lemma round_aux_last (s : bool) (m e : Z) :
  2 ^ 52 <= m <= 2 ^ 53 -> -1074 <= e <= 900 ->
  let r2 := shr_fexp Float.prec Float.emax m e loc_Exact in
  exists m' e',
    match shr_m (fst r2) with
    | Z0 => S754_zero s
    | Zpos p =>
        if snd r2 <=? 971 then S754_finite s p (snd r2) else S754_infinity s
    | Zneg _ => S754_nan
    end = S754_finite s m' e' /\
    e <= e' <= e + 1 /\
    Zpos m' * 2 ^ (e' - e) = m.
Proof.
  intros Hm He r2. pose proof (pow2_pos 52 ltac:(lia)) as H52.
  destruct (Z_lt_le_dec m (2 ^ 53)) as [Hlt|Hge].
  - unfold r2. rewrite shr_fexp_53 by lia. cbn [fst snd shr_record_of_loc shr_m].
    destruct m as [|p|p]; try lia.
    replace (e <=? 971) with true by (symmetry; apply Z.leb_le; lia).
    exists p, e. split; [reflexivity | split; [lia |]].
    rewrite Z.sub_diag, Z.pow_0_r. lia.
  - assert (Em : m = 2 ^ 53) by lia. subst m.
    unfold r2. rewrite shr_fexp_54 by lia.
    cbn [shr_record_of_loc]. rewrite shr_1_spec by lia. cbn [fst snd shr_m].
    change (2 ^ 53 / 2) with (Zpos 4503599627370496).
    replace (e + 1 <=? 971) with true by (symmetry; apply Z.leb_le; lia).
    exists 4503599627370496%positive, (e + 1).
    split; [reflexivity | split; [lia |]].
    replace (e + 1 - e) with 1 by lia. reflexivity.
Qed.

(** [binary_round_aux] on a quotient of 53 or 54 bits: the result is finite
    and its value is the quotient rounded at 53 bits. *)
Lemma round_aux_normal (s : bool) (q e : Z) (l : location) :
  2 ^ 52 <= q < 2 ^ 54 -> -1074 <= e <= 800 ->
  exists M E m' e',
    binary_round_aux Float.prec Float.emax s q e l = S754_finite s m' e' /\
    ((q < 2 ^ 53 /\ M = round_nearest_even q l /\ E = e) \/
     (2 ^ 53 <= q /\
      M = (let mrs := shr_1 (shr_record_of_loc q l) in
           round_nearest_even (shr_m mrs) (loc_of_shr_record mrs)) /\
      E = e + 1)) /\
    E <= e' <= E + 1 /\
    Zpos m' * 2 ^ (e' - E) = M.
Proof.
  intros Hq He. rewrite round_aux_unfold. cbv zeta.
  destruct (Z_lt_le_dec q (2 ^ 53)) as [Hlt|Hge].
  - rewrite (shr_fexp_53 q e l) by lia. cbn [fst snd].
    rewrite shr_record_of_loc_m, loc_of_shr_record_of_loc.
    pose proof (round_nearest_even_bounds q l) as Hb.
    destruct (round_aux_last s (round_nearest_even q l) e ltac:(lia) ltac:(lia))
      as (m' & e' & R & B & V).
    exists (round_nearest_even q l), e, m', e'.
    split; [exact R | split; [left; auto | split; assumption]].
  - rewrite (shr_fexp_54 q e l) by lia. cbn [fst snd].
    set (mrs := shr_1 (shr_record_of_loc q l)).
    assert (Hm : shr_m mrs = q / 2).
    { unfold mrs. rewrite shr_1_m; rewrite shr_record_of_loc_m; [reflexivity | lia]. }
    pose proof (round_nearest_even_bounds (shr_m mrs) (loc_of_shr_record mrs))
      as Hb.
    assert (Hh : 2 ^ 52 <= q / 2 < 2 ^ 53).
    { split.
      - apply Z.div_le_lower_bound; [lia |]. change (2 * 2 ^ 52) with (2 ^ 53). lia.
      - apply Z.div_lt_upper_bound; [lia |]. change (2 * 2 ^ 53) with (2 ^ 54). lia. }
    destruct (round_aux_last s
                (round_nearest_even (shr_m mrs) (loc_of_shr_record mrs))
                (e + 1) ltac:(lia) ltac:(lia))
      as (m' & e' & R & B & V).
    exists (round_nearest_even (shr_m mrs) (loc_of_shr_record mrs)),
           (e + 1), m', e'.
    split; [exact R | split; [right; auto | split; assumption]].
Qed.

Lemma round_finite_nonpos (m : positive) (e : Z) :
  e <= 0 ->
  Float.round (S754_finite false m e)
  = Ok (Float.round_half_even (Zpos m) (2 ^ (- e))).
Proof.
  intros He. cbn [Float.round Float.cond_opp]. f_equal.
  destruct (Z.leb_spec 0 e) as [H|H]; [| reflexivity].
  assert (e = 0) by lia. subst e. cbn [Z.opp].
  rewrite Z.pow_0_r, Z.mul_1_r.
  rewrite (round_half_even_unique (Zpos m) 1 (Zpos m) 0) by lia.
  reflexivity.
Qed.

Lemma div_eucl_div_mod (a b : Z) : Z.div_eucl a b = (a / b, a mod b).
Proof.
  unfold Z.div, Z.modulo. destruct (Z.div_eucl a b). reflexivity.
Qed.

(** The quotient that [SFdiv_core_binary] returns for two integers below
    2^52: 53 or 54 bits, at a negative exponent. *)
Lemma SFdiv_core_integers (a n : positive) :
  Zpos a < 2 ^ 52 -> Zpos n < 2 ^ 52 ->
  exists s,
    2 <= s <= 104 /\
    Zpos n < 2 ^ (s - 1) /\
    SFdiv_core_binary Float.prec Float.emax (Zpos a) 0 (Zpos n) 0
    = (Zpos a * 2 ^ s / Zpos n, - s,
       new_location (Zpos n) ((Zpos a * 2 ^ s) mod Zpos n)) /\
    2 ^ 52 <= Zpos a * 2 ^ s / Zpos n < 2 ^ 54.
Proof.
  intros Ha Hn.
  pose proof (Zdigits2_bounds (Zpos a) ltac:(lia)) as [Ha1 Ha2].
  pose proof (Zdigits2_bounds (Zpos n) ltac:(lia)) as [Hn1 Hn2].
  pose proof (Zdigits2_pos (Zpos a) ltac:(lia)) as Hda.
  pose proof (Zdigits2_pos (Zpos n) ltac:(lia)) as Hdn.
  pose proof (Zdigits2_le (Zpos a) 52 ltac:(lia) ltac:(lia) Ha) as Hda'.
  pose proof (Zdigits2_le (Zpos n) 52 ltac:(lia) ltac:(lia) Hn) as Hdn'.
  set (d1 := Zdigits2 (Zpos a)) in *. set (d2 := Zdigits2 (Zpos n)) in *.
  exists (53 - (d1 - d2)).
  split; [lia |].
  split.
  { assert (2 ^ d2 <= 2 ^ (53 - (d1 - d2) - 1))
      by (apply Z.pow_le_mono_r; lia). lia. }
  assert (Hs : 0 < 53 - (d1 - d2)) by lia.
  split.
  - unfold SFdiv_core_binary. fold d1 d2. rewrite fexp_eq.
    replace (Z.min (Z.max (d1 + 0 - (d2 + 0) - 53) (-1074)) (0 - 0))
      with (- (53 - (d1 - d2))) by lia.
    replace (0 - 0 - - (53 - (d1 - d2))) with (53 - (d1 - d2)) by lia.
    destruct (53 - (d1 - d2)) as [|p|p] eqn:Es; try lia.
    rewrite Z.shiftl_mul_pow2 by lia.
    rewrite div_eucl_div_mod. reflexivity.
  - set (s := 53 - (d1 - d2)) in *.
    pose proof (pow2_pos s ltac:(lia)) as Hp.
    assert (E1 : 2 ^ (d1 - 1) * 2 ^ s = 2 ^ 52 * 2 ^ d2).
    { rewrite <- !Z.pow_add_r by lia. f_equal. unfold s. lia. }
    assert (E2 : 2 ^ d1 * 2 ^ s = 2 ^ 54 * 2 ^ (d2 - 1)).
    { rewrite <- !Z.pow_add_r by lia. f_equal. unfold s. lia. }
    split.
    + apply Z.div_le_lower_bound; [lia |]. nia.
    + apply Z.div_lt_upper_bound; [lia |]. nia.
Qed.

(** Dividing two integers below 2^52 as floats and rounding the quotient to
    an integer gives the exact quotient rounded to the nearest integer, ties
    to even. *)
Lemma int_truediv_round (a n : Z) :
  0 <= a < 2 ^ 52 -> 0 < n < 2 ^ 52 ->
  exists f,
    Float.int_truediv a n = Ok f /\
    Float.round f = Ok (Float.round_half_even a n).
Proof.
  intros Ha Hn. destruct n as [|n|n]; try lia.
  destruct a as [|a|a]; try lia.
  - exists (S754_zero false). split; reflexivity.
  - destruct (SFdiv_core_integers a n ltac:(lia) ltac:(lia))
      as (s & Hs & Hns & Ecore & Hq).
    unfold Float.int_truediv.
    change (Zpos a <? 0) with false. change (Zpos n <? 0) with false.
    change (Z.to_pos (Z.abs (Zpos a))) with a.
    change (Z.to_pos (Z.abs (Zpos n))) with n.
    cbn [SFdiv]. rewrite Ecore. cbn [xorb].
    set (q := Zpos a * 2 ^ s / Zpos n) in *.
    set (l := new_location (Zpos n) ((Zpos a * 2 ^ s) mod Zpos n)).
    destruct (round_aux_normal false q (- s) l Hq ltac:(lia))
      as (M & E & m' & e' & R & HM & He' & V).
    rewrite R. exists (S754_finite false m' e'). split; [reflexivity |].
    (* the rounded mantissa is the quotient at 53 bits, rounded *)
    assert (HME : 1 <= - E /\ Zpos n < 2 ^ (- E) /\
                  M = Float.round_half_even (Zpos a * 2 ^ (- E)) (Zpos n)).
    { destruct HM as [(_ & -> & ->) | (_ & -> & ->)].
      - split; [lia |]. split.
        + assert (2 ^ (s - 1) <= 2 ^ (- - s)) by (apply Z.pow_le_mono_r; lia).
          lia.
        + unfold q, l. rewrite round_nearest_even_quotient by lia.
          rewrite Z.opp_involutive. reflexivity.
      - split; [lia |]. split.
        + replace (- (- s + 1)) with (s - 1) by lia. exact Hns.
        + replace (- (- s + 1)) with (s - 1) by lia.
          unfold q, l.
          replace (Zpos a * 2 ^ s) with (2 * (Zpos a * 2 ^ (s - 1))).
          * apply round_nearest_even_quotient_shifted; [lia |].
            pose proof (pow2_pos (s - 1) ltac:(lia)). nia.
          * replace s with (s - 1 + 1) at 2 by lia.
            rewrite pow2_succ by lia. ring. }
    destruct HME as (HE & HnE & ->).
    rewrite round_finite_nonpos by lia. f_equal.
    (* undo the carry, then the two roundings collapse *)
    assert (Hv : Float.round_half_even (Zpos m') (2 ^ (- e'))
                 = Float.round_half_even
                     (Float.round_half_even (Zpos a * 2 ^ (- E)) (Zpos n))
                     (2 ^ (- E))).
    { rewrite <- V.
      assert (Hc : e' = E \/ e' = E + 1) by lia.
      destruct Hc as [-> | ->].
      - rewrite Z.sub_diag, Z.pow_0_r, Z.mul_1_r. reflexivity.
      - replace (E + 1 - E) with 1 by lia. rewrite Z.pow_1_r.
        replace (2 ^ (- E)) with (2 * 2 ^ (- (E + 1)))
          by (rewrite <- pow2_succ by lia; f_equal; lia).
        rewrite (Z.mul_comm (Zpos m') 2).
        apply eq_sym, round_half_even_scale. apply pow2_pos. lia. }
    rewrite Hv.
    replace (2 ^ (- E)) with (2 * 2 ^ (- E - 1))
      by (rewrite <- pow2_succ by lia; f_equal; lia).
    apply round_half_even_twice; [lia | lia |].
    rewrite <- pow2_succ by lia.
    replace (- E - 1 + 1) with (- E) by lia. exact HnE.
Qed.

(** ** The report *)

Section Selection.

Context {A : Type}.
Variable key : A -> Z.

Lemma first_max_snoc (pre : list A) (i : nat) (b x : A) :
  Spec.first_max key pre i b ->
  exists i',
    Spec.first_max key (pre ++ [x]) i' (if key b <? key x then x else b).
Proof.
  intros (Hn & Hall & Hbefore).
  assert (Hi : (i < List.length pre)%nat)
    by (apply nth_error_Some; rewrite Hn; discriminate).
  destruct (Z.ltb_spec (key b) (key x)) as [Hlt|Hge].
  - exists (List.length pre). split; [| split].
    + rewrite nth_error_app2, Nat.sub_diag by lia. reflexivity.
    + intros y Hy. apply in_app_or in Hy. destruct Hy as [Hy | [<- | []]].
      * specialize (Hall y Hy). lia.
      * lia.
    + intros j y Hj Hy. rewrite nth_error_app1 in Hy by lia.
      apply nth_error_In in Hy. specialize (Hall y Hy). lia.
  - exists i. split; [| split].
    + rewrite nth_error_app1 by lia. exact Hn.
    + intros y Hy. apply in_app_or in Hy. destruct Hy as [Hy | [<- | []]].
      * apply Hall, Hy.
      * exact Hge.
    + intros j y Hj Hy. rewrite nth_error_app1 in Hy by lia.
      apply (Hbefore j y Hj Hy).
Qed.

Lemma first_min_snoc (pre : list A) (i : nat) (b x : A) :
  Spec.first_min key pre i b ->
  exists i',
    Spec.first_min key (pre ++ [x]) i' (if key x <? key b then x else b).
Proof.
  intros (Hn & Hall & Hbefore).
  assert (Hi : (i < List.length pre)%nat)
    by (apply nth_error_Some; rewrite Hn; discriminate).
  destruct (Z.ltb_spec (key x) (key b)) as [Hlt|Hge].
  - exists (List.length pre). split; [| split].
    + rewrite nth_error_app2, Nat.sub_diag by lia. reflexivity.
    + intros y Hy. apply in_app_or in Hy. destruct Hy as [Hy | [<- | []]].
      * specialize (Hall y Hy). lia.
      * lia.
    + intros j y Hj Hy. rewrite nth_error_app1 in Hy by lia.
      apply nth_error_In in Hy. specialize (Hall y Hy). lia.
  - exists i. split; [| split].
    + rewrite nth_error_app1 by lia. exact Hn.
    + intros y Hy. apply in_app_or in Hy. destruct Hy as [Hy | [<- | []]].
      * apply Hall, Hy.
      * exact Hge.
    + intros j y Hj Hy. rewrite nth_error_app1 in Hy by lia.
      apply (Hbefore j y Hj Hy).
Qed.

Lemma max_from_invariant (l pre : list A) (i : nat) (b : A) :
  Spec.first_max key pre i b ->
  exists i', Spec.first_max key (pre ++ l) i' (Analyze.max_from key b l).
Proof.
  revert pre i b. induction l as [|x l IH]; intros pre i b H.
  - rewrite app_nil_r. exists i. exact H.
  - cbn [Analyze.max_from].
    destruct (first_max_snoc pre i b x H) as [i' H'].
    destruct (IH _ _ _ H') as [i'' H''].
    rewrite <- app_assoc in H''. exists i''. exact H''.
Qed.

Lemma min_from_invariant (l pre : list A) (i : nat) (b : A) :
  Spec.first_min key pre i b ->
  exists i', Spec.first_min key (pre ++ l) i' (Analyze.min_from key b l).
Proof.
  revert pre i b. induction l as [|x l IH]; intros pre i b H.
  - rewrite app_nil_r. exists i. exact H.
  - cbn [Analyze.min_from].
    destruct (first_min_snoc pre i b x H) as [i' H'].
    destruct (IH _ _ _ H') as [i'' H''].
    rewrite <- app_assoc in H''. exists i''. exact H''.
Qed.

Lemma first_max_singleton (x : A) : Spec.first_max key [x] 0 x.
Proof.
  split; [reflexivity | split].
  - intros y [<- | []]. lia.
  - intros j y Hj. lia.
Qed.

Lemma first_min_singleton (x : A) : Spec.first_min key [x] 0 x.
Proof.
  split; [reflexivity | split].
  - intros y [<- | []]. lia.
  - intros j y Hj. lia.
Qed.

(** [max] and [min] return the first element whose key is extreme. *)
Lemma max_from_first (x : A) (l : list A) :
  exists i, Spec.first_max key (x :: l) i (Analyze.max_from key x l).
Proof. apply (max_from_invariant l [x] 0%nat x), first_max_singleton. Qed.

Lemma min_from_first (x : A) (l : list A) :
  exists i, Spec.first_min key (x :: l) i (Analyze.min_from key x l).
Proof. apply (min_from_invariant l [x] 0%nat x), first_min_singleton. Qed.

(** When every key is the same, the first element is both. *)
Lemma first_max_constant (l : list A) (i : nat) (x : A) (c : Z) :
  Forall (fun y => key y = c) l -> Spec.first_max key l i x ->
  i = 0%nat /\ key x = c.
Proof.
  intros Hc (Hn & _ & Hbefore).
  rewrite Forall_forall in Hc.
  pose proof (Hc x (nth_error_In _ _ Hn)) as Hx. split; [| exact Hx].
  destruct i as [|i]; [reflexivity | exfalso].
  destruct l as [|y l]; [discriminate Hn |].
  specialize (Hbefore 0%nat y ltac:(lia) eq_refl).
  rewrite (Hc y (in_eq _ _)), Hx in Hbefore. lia.
Qed.

Lemma first_min_constant (l : list A) (i : nat) (x : A) (c : Z) :
  Forall (fun y => key y = c) l -> Spec.first_min key l i x ->
  i = 0%nat /\ key x = c.
Proof.
  intros Hc (Hn & _ & Hbefore).
  rewrite Forall_forall in Hc.
  pose proof (Hc x (nth_error_In _ _ Hn)) as Hx. split; [| exact Hx].
  destruct i as [|i]; [reflexivity | exfalso].
  destruct l as [|y l]; [discriminate Hn |].
  specialize (Hbefore 0%nat y ltac:(lia) eq_refl).
  rewrite (Hc y (in_eq _ _)), Hx in Hbefore. lia.
Qed.

End Selection.

Lemma sum_bounds (l : list Z) (lo hi : Z) :
  Forall (fun x => lo <= x <= hi) l ->
  lo * Z.of_nat (List.length l) <= Analyze.sum l
    <= hi * Z.of_nat (List.length l).
Proof.
  induction 1 as [|x l Hx _ IH]; [cbn; lia |].
  rewrite sum_cons. cbn [List.length]. rewrite Nat2Z.inj_succ. lia.
Qed.

Lemma sum_constant (l : list Z) (c : Z) :
  Forall (fun x => x = c) l -> Analyze.sum l = c * Z.of_nat (List.length l).
Proof.
  induction 1 as [|x l Hx _ IH]; [cbn; lia |].
  rewrite sum_cons, IH, Hx. cbn [List.length]. rewrite Nat2Z.inj_succ. lia.
Qed.

Lemma mean_fraction (l : list Z) (n : positive) :
  Z.of_nat (List.length l) = Zpos n ->
  (Spec.mean l == Analyze.sum l # n)%Q.
Proof.
  intros E. unfold Spec.mean. rewrite E.
  unfold Qeq, Qdiv, Qmult, Qinv, inject_Z. cbn [Qnum Qden]. lia.
Qed.

Lemma generate_report_inv (s0 : Analyze.score_entry)
  (rest : list Analyze.score_entry) (rep : Analyze.report) :
  Analyze.generate_report (s0 :: rest) = Ok rep ->
  exists mean,
    Float.int_truediv
      (Analyze.sum (map Analyze.Entry.confidence_score (s0 :: rest)))
      (Z.of_nat (List.length (s0 :: rest))) = Ok mean /\
    Float.round mean = Ok (Analyze.overall_score rep) /\
    rep = {| Analyze.overall_score := Analyze.overall_score rep;
             Analyze.overall_rating :=
               Analyze.rating_of (Analyze.overall_score rep);
             Analyze.summary := Analyze.summary_of (Analyze.overall_score rep);
             Analyze.total_questions := Z.of_nat (List.length (s0 :: rest));
             Analyze.best_answer :=
               Analyze.ref_of
                 (Analyze.max_from Analyze.Entry.confidence_score s0 rest);
             Analyze.weakest_answer :=
               Analyze.ref_of
                 (Analyze.min_from Analyze.Entry.confidence_score s0 rest);
             Analyze.per_question := s0 :: rest |}.
Proof.
  unfold Analyze.generate_report. intros H.
  bind_inversion H. bind_inversion H. injection H as <-.
  exists v. repeat split; assumption.
Qed.

(** Nothing but the empty list makes the handler raise an [HTTPException]. *)
Lemma generate_report_http_error (scores : list Analyze.score_entry)
  (status_code : Z) (detail : string) :
  Analyze.generate_report scores = Raise (HTTPException status_code detail) ->
  scores = [].
Proof.
  destruct scores as [|s0 rest]; [reflexivity |].
  unfold Analyze.generate_report.
  set (total := Analyze.sum _). set (n := Z.of_nat _).
  assert (Hd : forall e, Float.int_truediv total n = Raise e ->
                         e = ZeroDivisionError \/ e = OverflowError).
  { intros e. unfold Float.int_truediv.
    destruct n; [intros H; injection H as <-; auto | |];
      (destruct total; [discriminate | |]);
      match goal with
      | |- context [SFdiv ?p ?m ?x ?y] => destruct (SFdiv p m x y)
      end; intros H; try discriminate H; injection H as <-; auto. }
  assert (Hr : forall x e, Float.round x = Raise e ->
                           e = ValueError \/ e = OverflowError).
  { intros x e. destruct x; cbn [Float.round]; intros H;
      try discriminate H; injection H as <-; auto. }
  destruct (Float.int_truediv total n) as [mean|e] eqn:Em; cbn [bind].
  - destruct (Float.round mean) as [avg|e] eqn:Er; cbn [bind];
      [discriminate |].
    intros H. injection H as ->. destruct (Hr _ _ Er); discriminate.
  - intros H. injection H as ->.
    destruct (Hd _ eq_refl); discriminate.
Qed.

(** C7. [generate_report] fails with the client error 400 exactly when the
    list is empty. A returned report carries the rating of section 4.2 for its
    overall score, and as best and weakest answer the first entry of maximal
    and of minimal confidence score. For a non-empty list of fewer than 2^45
    entries with scores between 0 and 100 a report is returned and its overall
    score is the mean of the scores rounded to the nearest integer; when all
    scores are equal, that score is the overall, the best and the weakest
    score, and the first entry is both the best and the weakest answer. *)
Theorem generate_report_aggregates :
  forall scores : list Analyze.score_entry,
    (Analyze.generate_report scores
       = Raise (HTTPException 400 "No scores provided.") <-> scores = []) /\
    (forall status_code detail,
        Analyze.generate_report scores
          = Raise (HTTPException status_code detail) -> scores = []) /\
    (forall rep,
        Analyze.generate_report scores = Ok rep ->
        Analyze.overall_rating rep = Spec.rating (Analyze.overall_score rep) /\
        Analyze.total_questions rep = Z.of_nat (List.length scores) /\
        Analyze.per_question rep = scores /\
        exists i_best best i_worst worst,
          Spec.first_max Analyze.Entry.confidence_score scores i_best best /\
          Analyze.best_answer rep = Analyze.ref_of best /\
          Spec.first_min Analyze.Entry.confidence_score scores i_worst worst /\
          Analyze.weakest_answer rep = Analyze.ref_of worst) /\
    (scores <> [] ->
     Forall (fun s => 0 <= Analyze.Entry.confidence_score s <= 100) scores ->
     Z.of_nat (List.length scores) < 2 ^ 45 ->
     exists rep,
       Analyze.generate_report scores = Ok rep /\
       Spec.rounds_to
         (Spec.mean (map Analyze.Entry.confidence_score scores))
         (Analyze.overall_score rep) /\
       (forall c,
           Forall (fun s => Analyze.Entry.confidence_score s = c) scores ->
           Analyze.overall_score rep = c /\
           Analyze.ref_score (Analyze.best_answer rep) = c /\
           Analyze.ref_score (Analyze.weakest_answer rep) = c /\
           Some (Analyze.best_answer rep)
             = option_map Analyze.ref_of (hd_error scores) /\
           Some (Analyze.weakest_answer rep)
             = option_map Analyze.ref_of (hd_error scores))).
Proof.
  intros scores. split; [| split; [| split]].
  - split.
    + apply generate_report_http_error.
    + intros ->. reflexivity.
  - apply generate_report_http_error.
  - intros rep H. destruct scores as [|s0 rest]; [discriminate H |].
    destruct (generate_report_inv _ _ _ H) as (mean & _ & _ & ->).
    cbn [Analyze.overall_rating Analyze.total_questions Analyze.per_question
         Analyze.best_answer Analyze.weakest_answer Analyze.overall_score].
    split; [apply rating_of_spec |]. split; [reflexivity |].
    split; [reflexivity |].
    destruct (max_from_first Analyze.Entry.confidence_score s0 rest)
      as [i_best Hbest].
    destruct (min_from_first Analyze.Entry.confidence_score s0 rest)
      as [i_worst Hworst].
    exists i_best, (Analyze.max_from Analyze.Entry.confidence_score s0 rest),
           i_worst, (Analyze.min_from Analyze.Entry.confidence_score s0 rest).
    repeat split; try apply Hbest; try apply Hworst.
  - intros Hne Hrange Hlen. destruct scores as [|s0 rest]; [congruence |].
    set (scores := s0 :: rest) in *.
    set (values := map Analyze.Entry.confidence_score scores).
    assert (Hvalues : Forall (fun x => 0 <= x <= 100) values)
      by (apply Forall_map; exact Hrange).
    pose proof (sum_bounds values 0 100 Hvalues) as Hsum.
    assert (Hl : List.length values = List.length scores)
      by apply length_map.
    rewrite Hl in Hsum.
    assert (Hn : 0 < Z.of_nat (List.length scores))
      by (unfold scores; cbn [List.length]; lia).
    assert (H52 : 100 * 2 ^ 45 < 2 ^ 52) by (vm_compute; reflexivity).
    assert (H45 : 2 ^ 45 < 2 ^ 52) by (vm_compute; reflexivity).
    destruct (int_truediv_round (Analyze.sum values)
                (Z.of_nat (List.length scores)) ltac:(lia) ltac:(lia))
      as (mean & Hmean & Hround).
    assert (Hrep : exists rep,
               Analyze.generate_report scores = Ok rep /\
               Analyze.overall_score rep
               = Float.round_half_even (Analyze.sum values)
                   (Z.of_nat (List.length scores))).
    { unfold Analyze.generate_report, scores. fold scores. fold values.
      rewrite Hmean. cbn [bind]. rewrite Hround. cbn [bind].
      eexists. split; reflexivity. }
    destruct Hrep as (rep & Hrep & Havg).
    assert (Hrounds : Spec.rounds_to (Spec.mean values)
                        (Analyze.overall_score rep)).
    { destruct (Z.of_nat (List.length scores)) as [|n|n] eqn:En; try lia.
      apply (rounds_to_Qeq (Analyze.sum values # n)).
      - symmetry. apply mean_fraction. rewrite Hl. exact En.
      - rewrite Havg. apply round_half_even_rounds_to. }
    exists rep. split; [exact Hrep |]. split; [exact Hrounds |].
    intros c Hc.
    destruct (generate_report_inv _ _ _ Hrep) as (_ & _ & _ & Erep).
    destruct (max_from_first Analyze.Entry.confidence_score s0 rest)
      as [i_best Hbest].
    destruct (min_from_first Analyze.Entry.confidence_score s0 rest)
      as [i_worst Hworst].
    destruct (first_max_constant _ _ _ _ c Hc Hbest) as [-> Hb].
    destruct (first_min_constant _ _ _ _ c Hc Hworst) as [-> Hw].
    destruct Hbest as [Hbest _]. destruct Hworst as [Hworst _].
    cbn [nth_error] in Hbest, Hworst.
    injection Hbest as Hbest. injection Hworst as Hworst.
    rewrite Erep at 2 3 4 5.
    cbn [Analyze.best_answer Analyze.weakest_answer hd_error option_map
         scores].
    rewrite <- Hbest, <- Hworst.
    cbn [Analyze.ref_of Analyze.ref_score].
    assert (Hc0 : Analyze.Entry.confidence_score s0 = c)
      by (rewrite Hbest; exact Hb).
    repeat split; try exact Hc0.
    (* the mean of equal scores is that score *)
    apply (rounds_to_unique (Spec.mean values)); [exact Hrounds |].
    destruct (Z.of_nat (List.length scores)) as [|n|n] eqn:En; try lia.
    assert (Hvc : Forall (fun x => x = c) values)
      by (apply Forall_map; exact Hc).
    apply (rounds_to_Qeq (c * Zpos n # n)).
    + symmetry. rewrite mean_fraction by (rewrite Hl; exact En).
      rewrite (sum_constant values c Hvc), Hl, En. reflexivity.
    + apply rounds_to_fraction.
      replace (c * Zpos n - c * Zpos n) with 0 by ring. cbn [Z.abs].
      split; [lia | intros H; lia].
Qed.

Lemma generate_report_aggregates_witness :
  let scores :=
    [ {| Analyze.Entry.question_index := 0;
         Analyze.Entry.confidence_score := 64;
         Analyze.Entry.transcript := "um um um" |};
      {| Analyze.Entry.question_index := 1;
         Analyze.Entry.confidence_score := 91;
         Analyze.Entry.transcript := "" |} ] in
  exists rep,
    Analyze.generate_report scores = Ok rep /\
    Spec.rounds_to
      (Spec.mean (map Analyze.Entry.confidence_score scores))
      (Analyze.overall_score rep) /\
    (forall c,
        Forall (fun s => Analyze.Entry.confidence_score s = c) scores ->
        Analyze.overall_score rep = c /\
        Analyze.ref_score (Analyze.best_answer rep) = c /\
        Analyze.ref_score (Analyze.weakest_answer rep) = c /\
        Some (Analyze.best_answer rep)
          = option_map Analyze.ref_of (hd_error scores) /\
        Some (Analyze.weakest_answer rep)
          = option_map Analyze.ref_of (hd_error scores)).
Proof.
  intros scores. apply (generate_report_aggregates scores).
  - discriminate.
  - repeat constructor; cbn; lia.
  - vm_compute. reflexivity.
Defined.

Example generate_report_example :
  Analyze.generate_report
    [ {| Analyze.Entry.question_index := 0;
         Analyze.Entry.confidence_score := 64;
         Analyze.Entry.transcript := "um um um" |};
      {| Analyze.Entry.question_index := 1;
         Analyze.Entry.confidence_score := 91;
         Analyze.Entry.transcript := "first of the best" |};
      {| Analyze.Entry.question_index := 2;
         Analyze.Entry.confidence_score := 64;
         Analyze.Entry.transcript := "" |};
      {| Analyze.Entry.question_index := 3;
         Analyze.Entry.confidence_score := 91;
         Analyze.Entry.transcript := "second of the best" |} ]
  = Ok {| Analyze.overall_score := 78;
          Analyze.overall_rating := "Good";
          Analyze.summary := Analyze.summary_of 78;
          Analyze.total_questions := 4;
          Analyze.best_answer :=
            {| Analyze.ref_question_index := 1; Analyze.ref_score := 91 |};
          Analyze.weakest_answer :=
            {| Analyze.ref_question_index := 0; Analyze.ref_score := 64 |};
          Analyze.per_question :=
            [ {| Analyze.Entry.question_index := 0;
                 Analyze.Entry.confidence_score := 64;
                 Analyze.Entry.transcript := "um um um" |};
              {| Analyze.Entry.question_index := 1;
                 Analyze.Entry.confidence_score := 91;
                 Analyze.Entry.transcript := "first of the best" |};
              {| Analyze.Entry.question_index := 2;
                 Analyze.Entry.confidence_score := 64;
                 Analyze.Entry.transcript := "" |};
              {| Analyze.Entry.question_index := 3;
                 Analyze.Entry.confidence_score := 91;
                 Analyze.Entry.transcript := "second of the best" |} ] |}.
Proof. vm_compute. reflexivity. Qed.


(** * Further properties *)

(** ** The question catalogue *)

Lemma question_bank_lists (name : string) (questions : list string) :
  Dict.lookup Interview.QUESTION_BANK name = Some questions ->
  In name Interview.get_roles /\ Interview.len questions = 8.
Proof.
  unfold Interview.QUESTION_BANK, Interview.get_roles, Dict.keys.
  cbn [Dict.lookup map fst In].
  repeat match goal with
         | |- context [String.eqb name ?k] =>
             destruct (String.eqb_spec name k) as [->|_]
         end; intros H; try discriminate H; injection H as <-;
    (split; [repeat (first [left; reflexivity | right]) | reflexivity]).
Qed.

Lemma question_bank_roles (name : string) :
  In name Interview.get_roles ->
  exists questions, Dict.lookup Interview.QUESTION_BANK name = Some questions.
Proof.
  unfold Interview.get_roles, Dict.keys, Interview.QUESTION_BANK.
  cbn [map fst In]. intros H.
  repeat match goal with
         | H : _ \/ _ |- _ => destruct H as [H | H]
         | H : False |- _ => destruct H
         end; subst name; eexists; reflexivity.
Qed.

Lemma served_list_length (role : option string) :
  Interview.len
    (Dict.get Interview.QUESTION_BANK role Interview.DEFAULT_QUESTIONS) = 8.
Proof.
  destruct role as [name|]; cbn [Dict.get]; [| reflexivity].
  destruct (Dict.lookup Interview.QUESTION_BANK name) as [qs|] eqn:E;
    [apply (question_bank_lists _ _ E) | reflexivity].
Qed.

(** X1. [get_questions] never fails: it echoes the role, serves a listed role
    its own eight questions, and serves every other role, and no role at all,
    the eight questions of "Software Engineer". *)
Theorem get_questions_fallback : forall role : option string,
  let r := Interview.get_questions role in
  Interview.qs_role r = role /\
  Interview.qs_total r = 8 /\
  Interview.qs_total r = Interview.len (Interview.qs_questions r) /\
  (forall name,
      role = Some name -> In name Interview.get_roles ->
      Dict.lookup Interview.QUESTION_BANK name
        = Some (Interview.qs_questions r)) /\
  ((forall name, role = Some name -> ~ In name Interview.get_roles) ->
   Dict.lookup Interview.QUESTION_BANK "Software Engineer"
     = Some (Interview.qs_questions r)).
Proof.
  intros role r. unfold r, Interview.get_questions.
  cbn [Interview.qs_role Interview.qs_total Interview.qs_questions].
  split; [reflexivity |].
  assert (Hd : Dict.lookup Interview.QUESTION_BANK "Software Engineer"
               = Some Interview.DEFAULT_QUESTIONS) by reflexivity.
  destruct role as [name|]; cbn [Dict.get].
  - destruct (Dict.lookup Interview.QUESTION_BANK name) as [qs|] eqn:E.
    + destruct (question_bank_lists _ _ E) as [Hin Hlen].
      split; [exact Hlen |]. split; [reflexivity |]. split.
      * intros n Hn _. injection Hn as <-. exact E.
      * intros H. destruct (H name eq_refl Hin).
    + split; [reflexivity |]. split; [reflexivity |]. split.
      * intros n Hn Hin. injection Hn as <-.
        destruct (question_bank_roles _ Hin) as [qs Hq]. congruence.
      * intros _. exact Hd.
  - split; [reflexivity |]. split; [reflexivity |]. split.
    + intros n Hn. discriminate Hn.
    + intros _. exact Hd.
Qed.

(** X2. For an index inside the list, [get_single_question] answers with
    status 200 and the question that [get_questions] lists at that index for
    the same role, together with the same total; [is_last] holds exactly at
    index 7. *)
Theorem get_single_question_agrees :
  forall (role : option string) (index : Z),
    0 <= index < Interview.qs_total (Interview.get_questions role) ->
    exists p,
      Interview.get_single_question index role = Ok (Interview.Question p) /\
      Interview.status_of (Interview.get_single_question index role) = 200 /\
      nth_error (Interview.qs_questions (Interview.get_questions role))
        (Z.to_nat index) = Some (Interview.q_question p) /\
      Interview.q_total p = Interview.qs_total (Interview.get_questions role) /\
      Interview.q_index p = index /\
      Interview.q_role p = role /\
      (Interview.q_is_last p = true <-> index = 7).
Proof.
  intros role index H.
  pose proof (served_list_length role) as Htotal.
  unfold Interview.get_questions in H |- *.
  cbn [Interview.qs_total Interview.qs_questions] in H |- *.
  unfold Interview.get_single_question, Interview.get_single_question_in.
  set (questions := Dict.get _ _ _) in *.
  replace ((index <? 0) || (index >=? Interview.len questions)) with false.
  - eexists. split; [reflexivity |]. split; [reflexivity |].
    cbn [Interview.q_question Interview.q_total Interview.q_index
         Interview.q_role Interview.q_is_last].
    split; [| split; [reflexivity | split; [reflexivity | split;
      [reflexivity |]]]].
    + apply nth_error_nth'. unfold Interview.len in H. lia.
    + rewrite Htotal. rewrite Z.eqb_eq. lia.
  - symmetry. apply orb_false_iff. split.
    + apply Z.ltb_ge. lia.
    + rewrite Z.geb_leb. apply Z.leb_gt. lia.
Qed.

Lemma get_single_question_agrees_witness :
  exists p,
    Interview.get_single_question 0 (Some "Unknown Role")
      = Ok (Interview.Question p) /\
    Interview.status_of
      (Interview.get_single_question 0 (Some "Unknown Role")) = 200 /\
    nth_error
      (Interview.qs_questions (Interview.get_questions (Some "Unknown Role")))
      (Z.to_nat 0) = Some (Interview.q_question p) /\
    Interview.q_total p
      = Interview.qs_total (Interview.get_questions (Some "Unknown Role")) /\
    Interview.q_index p = 0 /\
    Interview.q_role p = Some "Unknown Role" /\
    (Interview.q_is_last p = true <-> 0 = 7).
Proof.
  apply (get_single_question_agrees (Some "Unknown Role") 0).
  vm_compute. split; [discriminate | reflexivity].
Defined.


(** ** The answer scorer: edge inputs and monotonicity *)

Lemma calculate_confidence_score_value (transcript : string)
  (duration_seconds : Float.float) (word_count : Z)
  (r : Analyze.score_result) :
  Analyze.calculate_confidence_score transcript duration_seconds word_count
    = Ok r ->
  exists wpm,
    Analyze.wpm_of duration_seconds word_count = Ok wpm /\
    Analyze.length_score (Analyze.score_breakdown r)
      = Analyze.length_score_of word_count /\
    Analyze.pace_score (Analyze.score_breakdown r)
      = Analyze.pace_score_of wpm /\
    Analyze.filler_penalty (Analyze.score_breakdown r)
      = Analyze.filler_penalty_of (Analyze.filler_count_of transcript) /\
    Analyze.rating r = Analyze.rating_of (Analyze.confidence_score r) /\
    Analyze.confidence_score r
      = Spec.clamp 10 100
          (Float.round_half_even
             (Analyze.length_score_of word_count + Analyze.pace_score_of wpm
              - 2 * Analyze.filler_penalty_of
                      (Analyze.filler_count_of transcript)) 2).
Proof.
  intros H.
  destruct (calculate_confidence_score_inv _ _ _ _ H)
    as (wpm & _ & _ & Hw & _).
  destruct (calculate_confidence_score_from_wpm transcript _ _ wpm Hw)
    as (wpm1 & _ & E).
  rewrite E in H. cbv zeta in H. injection H as <-.
  exists wpm. repeat split; try reflexivity. exact Hw.
Qed.

Lemma round_half_even_2_mono (n1 n2 : Z) :
  n1 <= n2 -> Float.round_half_even n1 2 <= Float.round_half_even n2 2.
Proof.
  intros H. unfold Float.round_half_even.
  pose proof (Z_div_mod_eq_full n1 2). pose proof (Z.mod_pos_bound n1 2).
  pose proof (Z_div_mod_eq_full n2 2). pose proof (Z.mod_pos_bound n2 2).
  destruct (Z.eq_dec (n1 / 2) (n2 / 2)) as [E|E].
  - rewrite E in *.
    destruct (Z.compare_spec (2 * (n1 mod 2)) 2),
             (Z.compare_spec (2 * (n2 mod 2)) 2);
      destruct (Z.even (n2 / 2)); lia.
  - destruct (Z.compare_spec (2 * (n1 mod 2)) 2),
             (Z.compare_spec (2 * (n2 mod 2)) 2);
      destruct (Z.even (n1 / 2)), (Z.even (n2 / 2)); lia.
Qed.

Lemma clamp_mono (lo hi x y : Z) :
  lo <= hi -> x <= y -> Spec.clamp lo hi x <= Spec.clamp lo hi y.
Proof.
  intros Hl H. unfold Spec.clamp.
  repeat match goal with
         | |- context [?a <? ?b] => destruct (Z.ltb_spec a b)
         end; lia.
Qed.

Lemma rounded_in_range (length_score pace_score penalty : Z) :
  In length_score [20; 45; 65; 90; 75; 55] ->
  In pace_score [100; 80; 60; 40] ->
  0 <= penalty <= 20 ->
  10 <= Float.round_half_even (length_score + pace_score - 2 * penalty) 2
    <= 95.
Proof.
  intros Hl Hp Hf.
  assert (Hn : 20 <= length_score + pace_score - 2 * penalty <= 190)
    by (cbn [In] in Hl, Hp; lia).
  pose proof (round_half_even_2_mono 20 _ (proj1 Hn)) as H1.
  pose proof (round_half_even_2_mono _ 190 (proj2 Hn)) as H2.
  change (Float.round_half_even 20 2) with 10 in H1.
  change (Float.round_half_even 190 2) with 95 in H2. lia.
Qed.

(** X3. A duration that is not greater than zero (a negative number, a zero,
    minus infinity or NaN) is scored like silence of no length: words per
    minute is the integer 0 and the pace score 40, whatever the transcript and
    the word count, and the score is between 10 and 65. *)
Theorem non_positive_duration_scores_as_zero :
  forall (transcript : string) (word_count : Z)
         (duration_seconds : Float.float),
    Float.ltb (Float.of_Z 0) duration_seconds = false ->
    exists r,
      Analyze.calculate_confidence_score transcript duration_seconds
        word_count = Ok r /\
      Analyze.words_per_minute (Analyze.score_breakdown r) = Int 0 /\
      Analyze.pace_score (Analyze.score_breakdown r) = 40 /\
      10 <= Analyze.confidence_score r <= 65.
Proof.
  intros transcript wc d Hd.
  assert (Hw : Analyze.wpm_of d wc = Ok (Int 0))
    by (unfold Analyze.wpm_of; rewrite Hd; reflexivity).
  destruct (calculate_confidence_score_from_wpm transcript _ _ _ Hw)
    as (wpm1 & H1 & E).
  injection H1 as <-. rewrite E. cbv zeta. eexists. split; [reflexivity |].
  cbn [Analyze.score_breakdown Analyze.words_per_minute Analyze.pace_score
       Analyze.confidence_score].
  split; [reflexivity | split; [reflexivity |]].
  change (Analyze.pace_score_of (Int 0)) with 40.
  apply rounded_at_most_65;
    [apply length_score_values | apply filler_penalty_bounds].
Qed.

Lemma non_positive_duration_scores_as_zero_witness :
  (exists r,
      Analyze.calculate_confidence_score "um, so" S754_nan 120 = Ok r /\
      Analyze.words_per_minute (Analyze.score_breakdown r) = Int 0 /\
      Analyze.pace_score (Analyze.score_breakdown r) = 40 /\
      10 <= Analyze.confidence_score r <= 65) /\
  (exists r,
      Analyze.calculate_confidence_score "um, so" (Float.of_Z (-30)) 120
        = Ok r /\
      Analyze.words_per_minute (Analyze.score_breakdown r) = Int 0 /\
      Analyze.pace_score (Analyze.score_breakdown r) = 40 /\
      10 <= Analyze.confidence_score r <= 65).
Proof.
  split.
  - apply (non_positive_duration_scores_as_zero "um, so" 120 S754_nan).
    reflexivity.
  - apply (non_positive_duration_scores_as_zero "um, so" 120
             (Float.of_Z (-30))).
    reflexivity.
Defined.

(** X4. The clamp never changes a score: every returned score is the raw
    score rounded to the nearest integer, it lies between 10 and 95, and the
    rating is the one the thresholds 85, 70 and 50 give that score. *)
Theorem confidence_score_never_clamped :
  forall (transcript : string) (duration_seconds : Float.float)
         (word_count : Z) (r : Analyze.score_result),
    Analyze.calculate_confidence_score transcript duration_seconds word_count
      = Ok r ->
    Spec.rounds_to
      (Spec.raw_score
         (Analyze.length_score (Analyze.score_breakdown r))
         (Analyze.pace_score (Analyze.score_breakdown r))
         (Analyze.filler_penalty (Analyze.score_breakdown r)))
      (Analyze.confidence_score r) /\
    10 <= Analyze.confidence_score r <= 95 /\
    Analyze.rating r = Spec.rating (Analyze.confidence_score r).
Proof.
  intros transcript d wc r H.
  destruct (calculate_confidence_score_value _ _ _ _ H)
    as (wpm & _ & -> & -> & -> & -> & ->).
  pose proof (rounded_in_range _ _ _ (length_score_values wc)
                (pace_score_values wpm) (filler_penalty_bounds transcript))
    as Hb.
  assert (Hc : forall x, 10 <= x <= 95 -> Spec.clamp 10 100 x = x).
  { intros x Hx. unfold Spec.clamp.
    destruct (Z.ltb_spec x 10); [lia |].
    destruct (Z.ltb_spec 100 x); [lia | reflexivity]. }
  rewrite (Hc _ Hb). split; [| split; [exact Hb | apply rating_of_spec]].
  eapply rounds_to_Qeq.
  - symmetry. apply raw_score_fraction.
  - apply round_half_even_rounds_to.
Qed.

Lemma confidence_score_never_clamped_witness :
  exists r,
    Analyze.calculate_confidence_score "um um um" (Float.of_Z 10) 20 = Ok r /\
    Spec.rounds_to
      (Spec.raw_score
         (Analyze.length_score (Analyze.score_breakdown r))
         (Analyze.pace_score (Analyze.score_breakdown r))
         (Analyze.filler_penalty (Analyze.score_breakdown r)))
      (Analyze.confidence_score r) /\
    10 <= Analyze.confidence_score r <= 95 /\
    Analyze.rating r = Spec.rating (Analyze.confidence_score r).
Proof.
  eexists. split; [vm_compute; reflexivity |].
  apply (confidence_score_never_clamped "um um um" (Float.of_Z 10) 20).
  vm_compute. reflexivity.
Defined.

(** X5. Filler words never raise the score: of two transcripts scored with
    the same duration and word count, the one with at least as many filler
    occurrences gets at most the score of the other. *)
Theorem fillers_never_raise_score :
  forall (transcript transcript' : string) (duration_seconds : Float.float)
         (word_count : Z) (r r' : Analyze.score_result),
    Analyze.calculate_confidence_score transcript duration_seconds word_count
      = Ok r ->
    Analyze.calculate_confidence_score transcript' duration_seconds
      word_count = Ok r' ->
    Analyze.filler_count_of transcript <= Analyze.filler_count_of transcript' ->
    Analyze.confidence_score r' <= Analyze.confidence_score r.
Proof.
  intros t t' d wc r r' H H' Hc.
  destruct (calculate_confidence_score_value _ _ _ _ H)
    as (wpm & Hw & _ & _ & _ & _ & ->).
  destruct (calculate_confidence_score_value _ _ _ _ H')
    as (wpm' & Hw' & _ & _ & _ & _ & ->).
  rewrite Hw in Hw'. injection Hw' as <-.
  apply clamp_mono; [lia |]. apply round_half_even_2_mono.
  unfold Analyze.filler_penalty_of. lia.
Qed.

Lemma fillers_never_raise_score_witness :
  exists r r',
    Analyze.calculate_confidence_score "well" (Float.of_Z 30) 60 = Ok r /\
    Analyze.calculate_confidence_score "um, like, well" (Float.of_Z 30) 60
      = Ok r' /\
    Analyze.confidence_score r' <= Analyze.confidence_score r.
Proof.
  eexists. eexists.
  split; [vm_compute; reflexivity |]. split; [vm_compute; reflexivity |].
  apply (fillers_never_raise_score "well" "um, like, well" (Float.of_Z 30) 60).
  - vm_compute. reflexivity.
  - vm_compute. reflexivity.
  - vm_compute. discriminate.
Defined.

(** X6. The score does not depend on the case of the transcript. *)
Theorem score_ignores_case :
  forall (transcript transcript' : string) (duration_seconds : Float.float)
         (word_count : Z),
    Spec.case_variant transcript transcript' ->
    Analyze.calculate_confidence_score transcript' duration_seconds word_count
    = Analyze.calculate_confidence_score transcript duration_seconds
        word_count.
Proof.
  intros t t' d wc H. unfold Analyze.calculate_confidence_score.
  assert (E : Analyze.filler_count_of t' = Analyze.filler_count_of t).
  { unfold Analyze.filler_count_of. rewrite (lower_case_variant _ _ H).
    reflexivity. }
  rewrite E. reflexivity.
Qed.

Lemma score_ignores_case_witness :
  Analyze.calculate_confidence_score "UM, Like" (Float.of_Z 30) 60
  = Analyze.calculate_confidence_score "um, like" (Float.of_Z 30) 60.
Proof.
  apply (score_ignores_case "um, like" "UM, Like" (Float.of_Z 30) 60).
  repeat constructor.
Defined.


(** ** Audio analysis *)


(** The score of an empty transcript with no words, for every duration. *)
Lemma empty_transcript_score (duration_seconds : Float.float) :
  exists r,
    Analyze.calculate_confidence_score "" duration_seconds 0 = Ok r /\
    Analyze.confidence_score r = 30 /\
    Analyze.rating r = "Needs Improvement".
Proof.
  destruct (wpm_of_cases duration_seconds 0)
    as [[_ E] | [(_ & Hw & _) | (Hd & w & q & Hw & Hq & E)]].
  - destruct (calculate_confidence_score_from_wpm "" _ _ _ E)
      as (wpm1 & _ & ->).
    eexists. split; [reflexivity | split; reflexivity].
  - discriminate Hw.
  - injection Hw as <-.
    assert (Hz : exists s, q = S754_zero s).
    { unfold Float.truediv in Hq.
      destruct duration_seconds as [s|[]| |[] m e]; try discriminate Hd;
        cbn in Hq; injection Hq as <-; eauto. }
    destruct Hz as [s ->].
    destruct (calculate_confidence_score_from_wpm "" _ _ _ E)
      as (wpm1 & _ & ->).
    destruct s; eexists; (split; [reflexivity | split; reflexivity]).
Qed.

Lemma calculate_confidence_score_no_http_error (transcript : string)
  (duration_seconds : Float.float) (word_count : Z) (status_code : Z)
  (detail : string) :
  Analyze.calculate_confidence_score transcript duration_seconds word_count
    <> Raise (HTTPException status_code detail).
Proof.
  intros H.
  destruct (calculate_confidence_score_cases transcript duration_seconds
              word_count) as [[r Hr] | (_ & _ & Hr)];
    rewrite Hr in H; discriminate H.
Qed.



(** X8. The failures of recognition: unintelligible audio and any other
    exception give a response with an empty transcript, no words and the
    score 30, for every duration; an unreachable service gives 503 with the
    reason appended; and nothing else makes the handler raise an
    [HTTPException]. *)
Theorem analyze_audio_failures :
  forall (tmp_path : string) (duration : Float.float) (question_index : Z)
         (files : Fs.t),
    (forall outcome,
        outcome = AnalyzeAudio.UnknownValueError \/
        outcome = AnalyzeAudio.OtherException ->
        exists a,
          fst (AnalyzeAudio.analyze_audio outcome tmp_path duration
                 question_index files) = Ok a /\
          Analyze.a_transcript a = "" /\
          Analyze.a_word_count a = 0 /\
          Analyze.a_question_index a = question_index /\
          Analyze.confidence_score (Analyze.a_score a) = 30 /\
          Analyze.rating (Analyze.a_score a) = "Needs Improvement") /\
    (forall e,
        fst (AnalyzeAudio.analyze_audio (AnalyzeAudio.RequestError e) tmp_path
               duration question_index files)
        = Raise (HTTPException 503
                   ("Speech recognition service unavailable: " ++ e))) /\
    (forall outcome status_code detail,
        fst (AnalyzeAudio.analyze_audio outcome tmp_path duration
               question_index files)
        = Raise (HTTPException status_code detail) ->
        status_code = 503 /\
        exists e, outcome = AnalyzeAudio.RequestError e).
Proof.
  intros tmp_path duration question_index files. split; [| split].
  - intros outcome Ho.
    destruct (empty_transcript_score duration) as (r & Hr & Hs & Hg).
    exists {| Analyze.a_question_index := question_index;
              Analyze.a_transcript := "";
              Analyze.a_word_count := 0;
              Analyze.a_duration_seconds := duration;
              Analyze.a_score := r |}.
    split; [| repeat split; assumption].
    destruct Ho as [-> | ->]; unfold AnalyzeAudio.analyze_audio;
      cbn [fst snd bind]; rewrite Hr; reflexivity.
  - intros e. reflexivity.
  - intros outcome status_code detail.
    unfold AnalyzeAudio.analyze_audio. cbn [fst].
    destruct outcome as [t| |e|]; cbn [bind fst snd].
    + intros H. exfalso.
      destruct (Analyze.calculate_confidence_score t duration _) eqn:E;
        cbn [bind] in H; [discriminate H |].
      injection H as ->.
      exact (calculate_confidence_score_no_http_error _ _ _ _ _ E).
    + intros H. exfalso.
      destruct (Analyze.calculate_confidence_score "" duration 0) eqn:E;
        cbn [bind] in H; [discriminate H |].
      injection H as ->.
      exact (calculate_confidence_score_no_http_error _ _ _ _ _ E).
    + intros H. injection H as <- _. split; [reflexivity | eauto].
    + intros H. exfalso.
      destruct (Analyze.calculate_confidence_score "" duration 0) eqn:E;
        cbn [bind] in H; [discriminate H |].
      injection H as ->.
      exact (calculate_confidence_score_no_http_error _ _ _ _ _ E).
Qed.


(** ** The report: the overall score lies between the extremes *)

Lemma round_half_even_between (n d lo hi : Z) :
  0 < d -> lo * d <= n <= hi * d ->
  lo <= Float.round_half_even n d <= hi.
Proof.
  intros Hd Hn.
  destruct (round_half_even_cases n d Hd) as (E & B & C). cbv zeta in *.
  set (q := n / d) in *. set (r := n mod d) in *.
  assert (Hq : lo <= q) by nia.
  assert (Hq' : q <= hi) by nia.
  assert (Hr : 0 < r -> q + 1 <= hi) by (intros; nia).
  destruct C as [[_ ->] | [[C ->] | [C ->]]];
    [lia | lia | destruct (Z.even q); lia].
Qed.

Lemma generate_report_value (s0 : Analyze.score_entry)
  (rest : list Analyze.score_entry) :
  let scores := s0 :: rest in
  let values := map Analyze.Entry.confidence_score scores in
  Forall (fun s => 0 <= Analyze.Entry.confidence_score s <= 100) scores ->
  Z.of_nat (List.length scores) < 2 ^ 45 ->
  exists rep,
    Analyze.generate_report scores = Ok rep /\
    Analyze.overall_score rep
    = Float.round_half_even (Analyze.sum values)
        (Z.of_nat (List.length scores)) /\
    Analyze.best_answer rep
    = Analyze.ref_of (Analyze.max_from Analyze.Entry.confidence_score s0 rest)
    /\
    Analyze.weakest_answer rep
    = Analyze.ref_of (Analyze.min_from Analyze.Entry.confidence_score s0 rest).
Proof.
  intros scores values Hrange Hlen.
  assert (Hvalues : Forall (fun x => 0 <= x <= 100) values)
    by (apply Forall_map; exact Hrange).
  pose proof (sum_bounds values 0 100 Hvalues) as Hsum.
  assert (Hl : List.length values = List.length scores) by apply length_map.
  rewrite Hl in Hsum.
  assert (Hn : 0 < Z.of_nat (List.length scores))
    by (unfold scores; cbn [List.length]; lia).
  assert (H52 : 100 * 2 ^ 45 < 2 ^ 52) by (vm_compute; reflexivity).
  assert (H45 : 2 ^ 45 < 2 ^ 52) by (vm_compute; reflexivity).
  destruct (int_truediv_round (Analyze.sum values)
              (Z.of_nat (List.length scores)) ltac:(lia) ltac:(lia))
    as (mean & Hmean & Hround).
  unfold Analyze.generate_report, scores. fold scores. fold values.
  rewrite Hmean. cbn [bind]. rewrite Hround. cbn [bind].
  eexists. split; [reflexivity |]. repeat split.
Qed.

(** X9. For a non-empty list of fewer than 2^45 entries with scores between
    0 and 100, the overall score of the report is at least the score of the
    weakest answer and at most the score of the best answer. *)
Theorem overall_score_between_extremes :
  forall scores : list Analyze.score_entry,
    scores <> [] ->
    Forall (fun s => 0 <= Analyze.Entry.confidence_score s <= 100) scores ->
    Z.of_nat (List.length scores) < 2 ^ 45 ->
    exists rep,
      Analyze.generate_report scores = Ok rep /\
      Analyze.ref_score (Analyze.weakest_answer rep)
        <= Analyze.overall_score rep
        <= Analyze.ref_score (Analyze.best_answer rep).
Proof.
  intros scores Hne Hrange Hlen. destruct scores as [|s0 rest]; [congruence |].
  destruct (generate_report_value s0 rest Hrange Hlen)
    as (rep & Hrep & Havg & Hbest & Hworst).
  exists rep. split; [exact Hrep |].
  rewrite Havg, Hbest, Hworst. cbn [Analyze.ref_of Analyze.ref_score].
  destruct (max_from_first Analyze.Entry.confidence_score s0 rest)
    as (i & _ & Hmax & _).
  destruct (min_from_first Analyze.Entry.confidence_score s0 rest)
    as (j & _ & Hmin & _).
  set (best := Analyze.max_from Analyze.Entry.confidence_score s0 rest) in *.
  set (worst := Analyze.min_from Analyze.Entry.confidence_score s0 rest) in *.
  apply round_half_even_between; [cbn [List.length]; lia |].
  set (values := map Analyze.Entry.confidence_score (s0 :: rest)).
  assert (Hv : Forall (fun x => Analyze.Entry.confidence_score worst <= x
                                <= Analyze.Entry.confidence_score best)
                 values).
  { apply Forall_map, Forall_forall. intros y Hy.
    split; [apply Hmin, Hy | apply Hmax, Hy]. }
  pose proof (sum_bounds values _ _ Hv) as Hs.
  assert (Hl : List.length values = List.length (s0 :: rest))
    by apply length_map.
  rewrite Hl in Hs. exact Hs.
Qed.

Lemma overall_score_between_extremes_witness :
  let scores :=
    [ {| Analyze.Entry.question_index := 0;
         Analyze.Entry.confidence_score := 64;
         Analyze.Entry.transcript := "um um um" |};
      {| Analyze.Entry.question_index := 1;
         Analyze.Entry.confidence_score := 91;
         Analyze.Entry.transcript := "" |} ] in
  exists rep,
    Analyze.generate_report scores = Ok rep /\
    Analyze.ref_score (Analyze.weakest_answer rep)
      <= Analyze.overall_score rep
      <= Analyze.ref_score (Analyze.best_answer rep).
Proof.
  intros scores. apply (overall_score_between_extremes scores).
  - discriminate.
  - repeat constructor; cbn; lia.
  - vm_compute. reflexivity.
Defined.

(** ** Skill extraction: what one skill says about another *)

Lemma occurs_in_trans (a b s : string) :
  Spec.occurs_in a b -> Spec.occurs_in b s -> Spec.occurs_in a s.
Proof.
  intros (b1 & b2 & ->) (s1 & s2 & ->).
  exists (s1 ++ b1), (b2 ++ s2).
  rewrite !append_assoc. reflexivity.
Qed.

Lemma extract_skills_all (text : string) :
  Resume.all (Resume.extract_skills text)
    = filter (fun skill => Str.contains skill (Str.lower text))
        (Resume.TECH_SKILLS ++ Resume.SOFT_SKILLS).
Proof.
  unfold Resume.extract_skills. cbn [Resume.all].
  symmetry. apply filter_app.
Qed.

Lemma vocabulary_distinct : NoDup (Resume.TECH_SKILLS ++ Resume.SOFT_SKILLS).
Proof.
  assert (H : forall l : list string,
             (fix distinct (l : list string) : bool :=
                match l with
                | [] => true
                | x :: l' =>
                    negb (existsb (String.eqb x) l') && distinct l'
                end) l = true -> NoDup l).
  { induction l as [|x l IH]; intros H; constructor.
    - apply andb_true_iff in H. destruct H as [H _].
      intros Hin. apply negb_true_iff in H.
      assert (E : existsb (String.eqb x) l = true).
      { apply existsb_exists. exists x. split; [exact Hin |].
        apply String.eqb_refl. }
      congruence.
    - apply IH. apply andb_true_iff in H. apply H. }
  apply H. vm_compute. reflexivity.
Qed.

(** X10. A skill whose name is part of the name of another skill is reported
    whenever the other one is: "java" with "javascript", "r" with "react",
    "sql" with "postgresql". *)
Theorem extract_skills_implied :
  forall (text a b : string),
    In a (Resume.TECH_SKILLS ++ Resume.SOFT_SKILLS) ->
    Spec.occurs_in a b ->
    In b (Resume.all (Resume.extract_skills text)) ->
    In a (Resume.all (Resume.extract_skills text)).
Proof.
  intros text a b Ha Hab Hb.
  rewrite extract_skills_all in *.
  apply filter_In in Hb. destruct Hb as [_ Hb].
  apply filter_In. split; [exact Ha |].
  apply contains_occurs. apply contains_occurs in Hb.
  exact (occurs_in_trans _ _ _ Hab Hb).
Qed.

Lemma extract_skills_implied_witness :
  In "java" (Resume.all (Resume.extract_skills "Senior JavaScript developer")).
Proof.
  apply (extract_skills_implied "Senior JavaScript developer" "java"
           "javascript").
  - vm_compute. repeat (first [left; reflexivity | right]).
  - exists "", "script". reflexivity.
  - vm_compute. repeat (first [left; reflexivity | right]).
Defined.

(** X11. No skill is reported twice, every reported skill is an entry of one
    of the two vocabularies, and at most 77 skills are reported. *)
Theorem extract_skills_distinct :
  forall text : string,
    NoDup (Resume.all (Resume.extract_skills text)) /\
    incl (Resume.all (Resume.extract_skills text))
      (Resume.TECH_SKILLS ++ Resume.SOFT_SKILLS) /\
    (List.length (Resume.all (Resume.extract_skills text)) <= 77)%nat.
Proof.
  intros text. rewrite extract_skills_all.
  split; [| split].
  - apply NoDup_filter, vocabulary_distinct.
  - apply incl_filter.
  - etransitivity; [apply filter_length_le |].
    vm_compute. apply Nat.le_refl.
Qed.

(** ** The regular expressions of [extract_experience_years] *)

Lemma every_append (f : ascii -> bool) (a b : string) :
  Text.every f (a ++ b) = Text.every f a && Text.every f b.
Proof.
  induction a as [|x a IH]; cbn [append Text.every]; [reflexivity |].
  rewrite IH. apply andb_assoc.
Qed.

Lemma some_append (f : ascii -> bool) (a b : string) :
  Text.some f (a ++ b) = Text.some f a || Text.some f b.
Proof.
  induction a as [|x a IH]; cbn [append Text.some]; [reflexivity |].
  rewrite IH. apply orb_assoc.
Qed.

Lemma every_some (f : ascii -> bool) (s : string) :
  s <> "" -> Text.every f s = true -> Text.some f s = true.
Proof.
  destruct s as [|c s]; [congruence |]. cbn [Text.every Text.some].
  intros _ H. apply andb_true_iff in H. destruct H as [-> _]. reflexivity.
Qed.

(** A greedy repetition that succeeds has matched a run of its atom and the
    rest of the pattern has matched what follows. *)
Lemma greedy_inv (a : Re.atom) (k : string -> string -> option string)
  (s taken g : string) :
  Re.greedy a k s taken = Some g ->
  exists run rest,
    s = run ++ rest /\
    Text.every (Re.atom_matches a) run = true /\
    k rest (taken ++ run) = Some g.
Proof.
  revert taken. induction s as [|c s IH]; intros taken H.
  - exists "", "". split; [reflexivity |]. split; [reflexivity |].
    rewrite append_nil_r. exact H.
  - cbn [Re.greedy] in H.
    assert (Hstop : k (String c s) taken = Some g ->
                    exists run rest,
                      String c s = run ++ rest /\
                      Text.every (Re.atom_matches a) run = true /\
                      k rest (taken ++ run) = Some g).
    { intros Hk. exists "", (String c s). split; [reflexivity |].
      split; [reflexivity |]. rewrite append_nil_r. exact Hk. }
    destruct (Re.atom_matches a c) eqn:Ec; [| exact (Hstop H)].
    destruct (Re.greedy a k s (taken ++ String c "")) as [g'|] eqn:Eg;
      [| exact (Hstop H)].
    injection H as ->.
    destruct (IH _ Eg) as (run & rest & -> & Hrun & Hk).
    exists (String c run), rest. cbn [append Text.every]. rewrite Ec, Hrun.
    repeat split. rewrite append_assoc in Hk. exact Hk.
Qed.

(** A greedy repetition over a run of its atom succeeds as soon as the rest of
    the pattern succeeds after the run or after more. *)
Lemma greedy_run (a : Re.atom) (k : string -> string -> option string)
  (run rest taken g : string) :
  Text.every (Re.atom_matches a) run = true ->
  Re.greedy a k rest (taken ++ run) = Some g ->
  Re.greedy a k (run ++ rest) taken = Some g.
Proof.
  revert taken. induction run as [|c run IH]; intros taken Hrun H.
  - rewrite append_nil_r in H. exact H.
  - cbn [Text.every] in Hrun. apply andb_true_iff in Hrun.
    destruct Hrun as [Hc Hrun].
    cbn [append Re.greedy]. rewrite Hc.
    rewrite (IH (taken ++ String c "") Hrun); [reflexivity |].
    rewrite append_assoc. exact H.
Qed.

(** One step of a match: the first piece has matched a run of its atom, and
    the rest of the pattern what follows. *)
Lemma match_here_inv (pc : Re.piece) (p : Re.pattern)
  (s captured g : string) :
  Re.match_here (pc :: p) s captured = Some g ->
  exists run rest,
    s = run ++ rest /\
    Text.every (Re.atom_matches (Re.p_atom pc)) run = true /\
    Text.run_fits (Re.p_quantifier pc) run /\
    Re.match_here p rest (if Re.in_group pc then run else captured) = Some g.
Proof.
  cbn [Re.match_here]. destruct (Re.p_quantifier pc); cbn [Text.run_fits].
  - destruct s as [|c s]; [discriminate |].
    destruct (Re.atom_matches (Re.p_atom pc) c) eqn:Ec; [| discriminate].
    intros H. exists (String c ""), s. cbn [append Text.every].
    rewrite Ec. repeat split. exact H.
  - assert (Hnone :
      Re.match_here p s (if Re.in_group pc then "" else captured) = Some g ->
      exists run rest,
        s = run ++ rest /\
        Text.every (Re.atom_matches (Re.p_atom pc)) run = true /\
        (String.length run <= 1)%nat /\
        Re.match_here p rest (if Re.in_group pc then run else captured)
          = Some g).
    { intros H. exists "", s. repeat split; [cbn; lia | exact H]. }
    destruct s as [|c s]; [exact Hnone |].
    destruct (Re.atom_matches (Re.p_atom pc) c) eqn:Ec; [| exact Hnone].
    destruct (Re.match_here p s
                (if Re.in_group pc then String c "" else captured))
      as [g'|] eqn:Eg; [| exact Hnone].
    intros H. injection H as ->.
    exists (String c ""), s. cbn [append Text.every]. rewrite Ec.
    repeat split; [cbn; lia | exact Eg].
  - intros H. apply greedy_inv in H.
    destruct H as (run & rest & -> & Hrun & H).
    exists run, rest. repeat split; assumption.
  - destruct s as [|c s]; [discriminate |].
    destruct (Re.atom_matches (Re.p_atom pc) c) eqn:Ec; [| discriminate].
    intros H. apply greedy_inv in H.
    destruct H as (run & rest & -> & Hrun & H).
    exists (String c run), rest. cbn [append Text.every].
    rewrite Ec, Hrun. repeat split; [discriminate | exact H].
Qed.

(** A search that succeeds has matched the pattern at some position. *)
Lemma search_inv (p : Re.pattern) (s g : string) :
  Re.search p s = Some g ->
  exists skipped rest,
    s = skipped ++ rest /\ Re.match_here p rest "" = Some g.
Proof.
  induction s as [|c s IH]; cbn [Re.search].
  - destruct (Re.match_here p "" "") as [g'|] eqn:E; [| discriminate].
    intros H. injection H as ->. exists "", "". split; [reflexivity | exact E].
  - destruct (Re.match_here p (String c s) "") as [g'|] eqn:E.
    + intros H. injection H as ->. exists "", (String c s).
      split; [reflexivity | exact E].
    + intros H. destruct (IH H) as (skipped & rest & -> & Hm).
      exists (String c skipped), rest. split; [reflexivity | exact Hm].
Qed.

(** A match of the pieces [q1] followed by [q2] matches [q2] on a suffix. *)
Lemma match_here_app (q1 q2 : Re.pattern) (s captured g : string) :
  Re.match_here (q1 ++ q2)%list s captured = Some g ->
  exists before rest captured',
    s = before ++ rest /\ Re.match_here q2 rest captured' = Some g.
Proof.
  revert s captured. induction q1 as [|pc q1 IH]; intros s captured H.
  - exists "", s, captured. split; [reflexivity | exact H].
  - cbn [app] in H. apply match_here_inv in H.
    destruct H as (run & rest & -> & _ & _ & H).
    destruct (IH _ _ H) as (before & rest' & captured' & -> & H').
    exists (run ++ before), rest', captured'.
    rewrite append_assoc. split; [reflexivity | exact H'].
Qed.

Lemma match_here_literal (l : string) (q : Re.pattern)
  (s captured g : string) :
  Re.match_here (Re.literal l ++ q)%list s captured = Some g ->
  exists rest, s = l ++ rest /\ Re.match_here q rest captured = Some g.
Proof.
  revert s. induction l as [|c l IH]; intros s H.
  - exists s. split; [reflexivity | exact H].
  - cbn [Re.literal app] in H. apply match_here_inv in H.
    destruct H as (run & rest & -> & Hrun & Hfit & H).
    cbn [Re.item Re.p_atom Re.p_quantifier Re.in_group Text.run_fits] in *.
    destruct run as [|x [|y run]]; try discriminate Hfit.
    cbn [Text.every Re.atom_matches] in Hrun.
    rewrite andb_true_r in Hrun. apply Ascii.eqb_eq in Hrun. subst x.
    destruct (IH _ H) as (rest' & -> & H').
    exists rest'. split; [reflexivity | exact H'].
Qed.

(** A text in which the pattern is found holds every literal of the pattern
    and a run for every piece that needs one. *)
Lemma search_literal (q1 q2 : Re.pattern) (l s g : string) :
  Re.search (q1 ++ Re.literal l ++ q2)%list s = Some g -> Spec.occurs_in l s.
Proof.
  intros H. apply search_inv in H. destruct H as (skipped & rest & -> & H).
  apply match_here_app in H.
  destruct H as (before & rest' & captured' & -> & H).
  apply match_here_literal in H. destruct H as (rest'' & -> & _).
  exists (skipped ++ before), rest''. rewrite append_assoc. reflexivity.
Qed.

Lemma search_digits_group (q1 q2 : Re.pattern) (s g : string) :
  Re.search (q1 ++ ResumeParse.digits_group ++ q2)%list s = Some g ->
  Text.has_digit s = true.
Proof.
  intros H. apply search_inv in H. destruct H as (skipped & rest & -> & H).
  apply match_here_app in H.
  destruct H as (before & rest' & captured' & -> & H).
  cbn [ResumeParse.digits_group app] in H. apply match_here_inv in H.
  destruct H as (run & rest'' & -> & Hrun & Hfit & _).
  cbn [Re.group Re.p_atom Re.p_quantifier Text.run_fits] in *.
  pose proof (every_some _ _ Hfit Hrun) as E.
  change (Text.some Text.is_digit run = true) in E.
  unfold Text.has_digit. rewrite !some_append, E.
  rewrite !orb_true_r. reflexivity.
Qed.

Lemma lower_char_digit (c : ascii) :
  Text.is_digit (Str.lower_char c) = Text.is_digit c.
Proof.
  destruct c as [[] [] [] [] [] [] [] []]; vm_compute; reflexivity.
Qed.

Lemma lower_has_digit (s : string) :
  Text.has_digit (Str.lower s) = Text.has_digit s.
Proof.
  unfold Text.has_digit.
  induction s as [|c s IH]; cbn [Str.lower Text.some]; [reflexivity |].
  rewrite lower_char_digit, IH. reflexivity.
Qed.

(** The shape the three patterns share: the group of digits, the literal
    [year] and the literal [experience], with other pieces around them. *)
Lemma patterns_shape :
  Forall (fun p =>
            (exists q1 q2, p = (q1 ++ ResumeParse.digits_group ++ q2)%list) /\
            (exists q1 q2, p = (q1 ++ Re.literal "year" ++ q2)%list) /\
            (exists q1 q2, p = (q1 ++ Re.literal "experience" ++ q2)%list))
    ResumeParse.patterns.
Proof.
  unfold ResumeParse.patterns.
  repeat constructor.
  - exists [], (ResumeParse.optional_plus ++ ResumeParse.spaces
                  ++ ResumeParse.years ++ Re.literal " of experience")%list.
    reflexivity.
  - exists (ResumeParse.digits_group ++ ResumeParse.optional_plus
              ++ ResumeParse.spaces)%list,
      ([Re.item (Re.Lit "s") Re.Optional] ++ Re.literal " of experience")%list.
    reflexivity.
  - exists (ResumeParse.digits_group ++ ResumeParse.optional_plus
              ++ ResumeParse.spaces ++ ResumeParse.years
              ++ Re.literal " of ")%list, [].
    reflexivity.
  - exists [], (ResumeParse.optional_plus ++ ResumeParse.spaces
                  ++ ResumeParse.years ++ Re.literal " experience")%list.
    reflexivity.
  - exists (ResumeParse.digits_group ++ ResumeParse.optional_plus
              ++ ResumeParse.spaces)%list,
      ([Re.item (Re.Lit "s") Re.Optional] ++ Re.literal " experience")%list.
    reflexivity.
  - exists (ResumeParse.digits_group ++ ResumeParse.optional_plus
              ++ ResumeParse.spaces ++ ResumeParse.years
              ++ Re.literal " ")%list, [].
    reflexivity.
  - exists (Re.literal "experience" ++ ResumeParse.spaces
              ++ [Re.item (Re.AnyOf [":"; "o"; "f"]%char) Re.ZeroOrMore]
              ++ ResumeParse.spaces)%list,
      (ResumeParse.optional_plus ++ ResumeParse.spaces
         ++ ResumeParse.years)%list.
    reflexivity.
  - exists (Re.literal "experience" ++ ResumeParse.spaces
              ++ [Re.item (Re.AnyOf [":"; "o"; "f"]%char) Re.ZeroOrMore]
              ++ ResumeParse.spaces ++ ResumeParse.digits_group
              ++ ResumeParse.optional_plus ++ ResumeParse.spaces)%list,
      [Re.item (Re.Lit "s") Re.Optional].
    reflexivity.
  - exists [], (ResumeParse.spaces
              ++ [Re.item (Re.AnyOf [":"; "o"; "f"]%char) Re.ZeroOrMore]
              ++ ResumeParse.spaces ++ ResumeParse.digits_group
              ++ ResumeParse.optional_plus ++ ResumeParse.spaces
              ++ ResumeParse.years)%list.
    reflexivity.
Qed.

Lemma first_match_none (ps : list Re.pattern) (text : string) :
  Forall (fun p => Re.search p text = None) ps ->
  ResumeParse.first_match ps text = Ok 0.
Proof.
  induction 1 as [|p ps Hp _ IH]; cbn [ResumeParse.first_match];
    [reflexivity |].
  rewrite Hp. exact IH.
Qed.

(** X12. Without a digit, without the word "year" or without the word
    "experience" in the lowercased text, the years of experience are 0. *)
Theorem extract_experience_years_needs :
  forall text : string,
    Text.has_digit text = false \/
    Str.contains "year" (Str.lower text) = false \/
    Str.contains "experience" (Str.lower text) = false ->
    ResumeParse.extract_experience_years text = Ok 0.
Proof.
  intros text H. unfold ResumeParse.extract_experience_years.
  apply first_match_none.
  eapply Forall_impl; [| exact patterns_shape]. cbv beta.
  intros p ((d1 & d2 & Hd) & (y1 & y2 & Hy) & (e1 & e2 & He)).
  destruct (Re.search p (Str.lower text)) as [g|] eqn:E; [| reflexivity].
  exfalso. destruct H as [H | [H | H]].
  - rewrite Hd in E. apply search_digits_group in E.
    rewrite lower_has_digit in E. congruence.
  - rewrite Hy in E. apply search_literal in E.
    apply contains_occurs in E. congruence.
  - rewrite He in E. apply search_literal in E.
    apply contains_occurs in E. congruence.
Qed.

Lemma extract_experience_years_needs_witness :
  ResumeParse.extract_experience_years "Ten years of experience in Java"
    = Ok 0.
Proof.
  apply (extract_experience_years_needs "Ten years of experience in Java").
  left. vm_compute. reflexivity.
Defined.

(** ** The number [extract_experience_years] reads *)

Lemma occurs_in_append (g before s : string) :
  Spec.occurs_in g s -> Spec.occurs_in g (before ++ s).
Proof.
  intros (a & b & ->). exists (before ++ a), b. symmetry. apply append_assoc.
Qed.

Lemma occurs_in_prefix (g rest : string) : Spec.occurs_in g (g ++ rest).
Proof. exists "", rest. reflexivity. Qed.

(** The text a match returns is the one it started with, or a run of digits
    of the text. *)
Lemma match_here_capture (p : Re.pattern) :
  Text.digit_groups p ->
  forall s captured g,
    Re.match_here p s captured = Some g ->
    g = captured \/
    (g <> "" /\ Text.all_digits g = true /\ Spec.occurs_in g s).
Proof.
  induction 1 as [|pc p Hpc _ IH]; intros s captured g H.
  - cbn [Re.match_here] in H. injection H as <-. left. reflexivity.
  - apply match_here_inv in H.
    destruct H as (run & rest & -> & Hrun & Hfit & H).
    destruct (IH _ _ _ H) as [-> | (Hne & Hd & Ho)].
    + destruct (Re.in_group pc); [| left; reflexivity].
      destruct (Hpc eq_refl) as [Ha Hq]. rewrite Ha in Hrun.
      rewrite Hq in Hfit. right.
      split; [exact Hfit |]. split; [exact Hrun | apply occurs_in_prefix].
    + right. split; [exact Hne |]. split; [exact Hd |].
      apply occurs_in_append, Ho.
Qed.

Lemma match_here_captures_digits (p : Re.pattern) :
  Text.digit_groups p ->
  Exists (fun pc => Re.in_group pc = true) p ->
  forall s captured g,
    Re.match_here p s captured = Some g ->
    g <> "" /\ Text.all_digits g = true /\ Spec.occurs_in g s.
Proof.
  intros Hp Hex. induction Hex as [pc p Hg | pc p _ IH];
    intros s captured g H; inversion Hp as [|pc' p' Hpc Hp']; subst;
    apply match_here_inv in H;
    destruct H as (run & rest & -> & Hrun & Hfit & H).
  - rewrite Hg in H. destruct (Hpc Hg) as [Ha Hq].
    rewrite Ha in Hrun. rewrite Hq in Hfit.
    destruct (match_here_capture p Hp' _ _ _ H) as [-> | (Hne & Hd & Ho)].
    + split; [exact Hfit |]. split; [exact Hrun | apply occurs_in_prefix].
    + split; [exact Hne |]. split; [exact Hd |]. apply occurs_in_append, Ho.
  - destruct (IH Hp' _ _ _ H) as (Hne & Hd & Ho).
    split; [exact Hne |]. split; [exact Hd |]. apply occurs_in_append, Ho.
Qed.

Lemma patterns_digit_groups :
  Forall (fun p => Text.digit_groups p /\
                   Exists (fun pc => Re.in_group pc = true) p)
    ResumeParse.patterns.
Proof.
  assert (H : forall p : Re.pattern,
             forallb (fun pc =>
                        negb (Re.in_group pc) ||
                        match Re.p_atom pc, Re.p_quantifier pc with
                        | Re.Digit, Re.OneOrMore => true
                        | _, _ => false
                        end) p = true ->
             existsb Re.in_group p = true ->
             Text.digit_groups p /\ Exists (fun pc => Re.in_group pc = true) p).
  { intros p Hall Hex. split.
    - apply Forall_forall. intros pc Hin Hg.
      rewrite forallb_forall in Hall. specialize (Hall pc Hin).
      rewrite Hg in Hall. cbn [negb orb] in Hall.
      destruct (Re.p_atom pc); try discriminate Hall.
      destruct (Re.p_quantifier pc); try discriminate Hall.
      split; reflexivity.
    - apply Exists_exists. apply existsb_exists in Hex. exact Hex. }
  unfold ResumeParse.patterns.
  repeat (apply Forall_cons; [apply H; vm_compute; reflexivity |]).
  apply Forall_nil.
Qed.

Lemma search_captures_digits (p : Re.pattern) (s g : string) :
  Text.digit_groups p ->
  Exists (fun pc => Re.in_group pc = true) p ->
  Re.search p s = Some g ->
  g <> "" /\ Text.all_digits g = true /\ Spec.occurs_in g s.
Proof.
  intros Hp Hex H. apply search_inv in H.
  destruct H as (skipped & rest & -> & H).
  destruct (match_here_captures_digits p Hp Hex _ _ _ H) as (Hne & Hd & Ho).
  split; [exact Hne |]. split; [exact Hd |]. apply occurs_in_append, Ho.
Qed.

(** *** [int] on a run of digits *)

Lemma uint_of_digit (c : ascii) (d : Decimal.uint) :
  Text.is_digit c = true -> exists d', uint_of_char c (Some d) = Some d'.
Proof.
  destruct c as [[] [] [] [] [] [] [] []]; vm_compute; intros H;
    first [discriminate H | eexists; reflexivity].
Qed.

Lemma uint_of_digits (s : string) :
  Text.all_digits s = true -> exists d, NilEmpty.uint_of_string s = Some d.
Proof.
  induction s as [|c s IH]; cbn [NilEmpty.uint_of_string].
  - intros _. eexists. reflexivity.
  - intros H. apply andb_true_iff in H. destruct H as [Hc Hs].
    destruct (IH Hs) as [d ->]. apply uint_of_digit, Hc.
Qed.

Lemma digit_not_minus (c : ascii) :
  Text.is_digit c = true -> Ascii.eqb c "-" = false.
Proof.
  destruct c as [[] [] [] [] [] [] [] []]; vm_compute; intros H;
    first [discriminate H | reflexivity].
Qed.

Lemma int_of_digits_within (s : string) :
  (String.length s <= Slice.int_max_str_digits)%nat ->
  Slice.int_of_digits s
    = match NilZero.int_of_string s with
      | Some d => Ok (Z.of_int d)
      | None => Raise ValueError
      end.
Proof.
  intros H. unfold Slice.int_of_digits.
  apply Nat.ltb_ge in H. rewrite H. reflexivity.
Qed.

Lemma int_of_digits_nonneg (s : string) :
  s <> "" -> Text.all_digits s = true ->
  (String.length s <= Slice.int_max_str_digits)%nat ->
  exists n, Slice.int_of_digits s = Ok n /\ 0 <= n.
Proof.
  intros Hne Hd Hl. rewrite (int_of_digits_within s Hl).
  destruct (uint_of_digits s Hd) as [d E].
  destruct s as [|c s]; [congruence |].
  unfold NilZero.int_of_string, NilZero.uint_of_string.
  pose proof Hd as Hc. cbn [Text.all_digits Text.every] in Hc.
  apply andb_true_iff in Hc. destruct Hc as [Hc _].
  rewrite (digit_not_minus c Hc), E. cbn [option_map].
  eexists. split; [reflexivity |].
  cbn [Z.of_int]. unfold Z.of_uint. apply N2Z.is_nonneg.
Qed.

Lemma int_of_digits_long (s : string) :
  (Slice.int_max_str_digits < String.length s)%nat ->
  Slice.int_of_digits s = Raise ValueError.
Proof.
  intros H. unfold Slice.int_of_digits.
  apply Nat.ltb_lt in H. rewrite H. reflexivity.
Qed.

Lemma to_int_not_nil (n : Z) :
  Z.to_int n <> Decimal.Pos Decimal.Nil /\
  Z.to_int n <> Decimal.Neg Decimal.Nil.
Proof.
  split; intros H;
    (assert (E : n = 0) by (rewrite <- (DecimalZ.of_to n), H; reflexivity));
    subst n; vm_compute in H; discriminate H.
Qed.

Lemma int_of_digits_of_int (n : Z) :
  (String.length (Str.of_int n) <= Slice.int_max_str_digits)%nat ->
  Slice.int_of_digits (Str.of_int n) = Ok n.
Proof.
  intros H. rewrite (int_of_digits_within _ H). unfold Str.of_int.
  destruct (to_int_not_nil n) as [H1 H2].
  rewrite (NilZero.isi _ H1 H2), DecimalZ.of_to. reflexivity.
Qed.

Lemma string_of_uint_digits (d : Decimal.uint) :
  Text.all_digits (NilEmpty.string_of_uint d) = true.
Proof.
  induction d; cbn [NilEmpty.string_of_uint]; [reflexivity | ..];
    change (Text.all_digits (String ?c ?s))
      with (Text.is_digit c && Text.all_digits s);
    rewrite IHd; reflexivity.
Qed.

Lemma of_int_digits (n : Z) :
  0 <= n ->
  Str.of_int n <> "" /\ Text.all_digits (Str.of_int n) = true.
Proof.
  intros H. unfold Str.of_int.
  destruct n as [|p|p]; [| | lia]; cbn [Z.to_int NilZero.string_of_int].
  - split; [discriminate | reflexivity].
  - unfold NilZero.string_of_uint.
    pose proof (string_of_uint_digits (Pos.to_uint p)) as Hd.
    destruct (Pos.to_uint p); (split; [discriminate | first [reflexivity | exact Hd]]).
Qed.

Lemma length_lower (s : string) :
  String.length (Str.lower s) = String.length s.
Proof.
  induction s as [|c s IH]; cbn [Str.lower String.length]; congruence.
Qed.

Lemma occurs_in_length (g s : string) :
  Spec.occurs_in g s -> (String.length g <= String.length s)%nat.
Proof.
  intros (a & b & ->). rewrite !length_append. lia.
Qed.

(** X13. For a text of at most 4300 characters [extract_experience_years]
    returns a number that is not negative: 0, or the value of a run of digits
    of the lowercased text. *)
Theorem extract_experience_years_total :
  forall text : string,
    (String.length text <= Slice.int_max_str_digits)%nat ->
    exists n,
      ResumeParse.extract_experience_years text = Ok n /\
      0 <= n /\
      (n = 0 \/
       exists digits,
         Text.all_digits digits = true /\
         Spec.occurs_in digits (Str.lower text) /\
         Slice.int_of_digits digits = Ok n).
Proof.
  intros text Hl. unfold ResumeParse.extract_experience_years.
  rewrite <- (length_lower text) in Hl.
  generalize dependent (Str.lower text). intros s Hl.
  pose proof patterns_digit_groups as Hps.
  induction Hps as [|p ps [Hp Hex] _ IH]; cbn [ResumeParse.first_match].
  - exists 0. split; [reflexivity |]. split; [lia | left; reflexivity].
  - destruct (Re.search p s) as [g|] eqn:E; [| exact IH].
    destruct (search_captures_digits p s g Hp Hex E) as (Hne & Hd & Ho).
    pose proof (occurs_in_length _ _ Ho) as Hg.
    destruct (int_of_digits_nonneg g Hne Hd) as (n & Hn & Hpos); [lia |].
    exists n. split; [exact Hn |]. split; [exact Hpos |].
    right. exists g. auto.
Qed.

Lemma extract_experience_years_total_witness :
  exists n,
    ResumeParse.extract_experience_years
      "Experience: 12+ years in backend development" = Ok n /\
    0 <= n /\
    (n = 0 \/
     exists digits,
       Text.all_digits digits = true /\
       Spec.occurs_in digits
         (Str.lower "Experience: 12+ years in backend development") /\
       Slice.int_of_digits digits = Ok n).
Proof.
  apply (extract_experience_years_total
           "Experience: 12+ years in backend development").
  apply Nat.leb_le. vm_compute. reflexivity.
Defined.

(** ** Texts that state the years of experience *)

Lemma lower_append (a b : string) :
  Str.lower (a ++ b) = Str.lower a ++ Str.lower b.
Proof.
  induction a as [|c a IH]; cbn [append Str.lower]; [reflexivity |].
  rewrite IH. reflexivity.
Qed.

Lemma lower_char_digit_fixed (c : ascii) :
  Text.is_digit c = true -> Str.lower_char c = c.
Proof.
  destruct c as [[] [] [] [] [] [] [] []]; vm_compute; intros H;
    first [discriminate H | reflexivity].
Qed.

Lemma lower_char_space_fixed (c : ascii) :
  Str.isspace c = true -> Str.lower_char c = c.
Proof.
  destruct c as [[] [] [] [] [] [] [] []]; vm_compute; intros H;
    first [discriminate H | reflexivity].
Qed.

Lemma lower_digits (s : string) :
  Text.all_digits s = true -> Str.lower s = s.
Proof.
  induction s as [|c s IH]; cbn [Str.lower]; [reflexivity |].
  intros H. apply andb_true_iff in H. destruct H as [Hc Hs].
  rewrite (lower_char_digit_fixed c Hc), (IH Hs). reflexivity.
Qed.

Lemma lower_spaces (s : string) :
  Spec.all_space s = true -> Str.lower s = s.
Proof.
  induction s as [|c s IH]; cbn [Str.lower Spec.all_space]; [reflexivity |].
  intros H. apply andb_true_iff in H. destruct H as [Hc Hs].
  rewrite (lower_char_space_fixed c Hc), (IH Hs). reflexivity.
Qed.

Lemma all_space_every (s : string) :
  Spec.all_space s = Text.every (Re.atom_matches Re.Space) s.
Proof.
  induction s as [|c s IH]; cbn [Spec.all_space Text.every];
    [reflexivity |].
  rewrite IH. reflexivity.
Qed.

Lemma space_not_digit_plus (c : ascii) :
  Str.isspace c = true ->
  Text.is_digit c = false /\ Ascii.eqb c "+" = false.
Proof.
  destruct c as [[] [] [] [] [] [] [] []]; vm_compute; intros H;
    first [discriminate H | split; reflexivity].
Qed.

(** A search for a pattern that begins with the group of digits skips a
    prefix with no digit. *)
Lemma search_skips_no_digit (p : Re.pattern) (before s : string) :
  Text.has_digit before = false ->
  Re.search (Re.group Re.Digit Re.OneOrMore :: p) (before ++ s)
    = Re.search (Re.group Re.Digit Re.OneOrMore :: p) s.
Proof.
  induction before as [|c before IH]; [reflexivity |].
  unfold Text.has_digit. cbn [Text.some]. intros H.
  apply orb_false_iff in H. destruct H as [Hc H].
  cbn [append]. rewrite <- (IH H).
  change (Re.search ?q (String c ?t))
    with (match Re.match_here q (String c t) "" with
          | Some g => Some g
          | None => Re.search q t
          end).
  cbn [Re.match_here Re.group Re.p_quantifier Re.p_atom].
  unfold Text.is_digit in Hc. rewrite Hc. reflexivity.
Qed.

Lemma match_here_literal_ok (l : string) (q : Re.pattern)
  (s captured : string) :
  Re.match_here (Re.literal l ++ q)%list (l ++ s) captured
    = Re.match_here q s captured.
Proof.
  induction l as [|c l IH]; [reflexivity |].
  cbn [Re.literal app append Re.match_here Re.item Re.p_quantifier Re.p_atom
       Re.in_group Re.atom_matches].
  rewrite Ascii.eqb_refl. exact IH.
Qed.

Lemma match_here_years (plural : bool) (rest captured : string) :
  Re.match_here (ResumeParse.years ++ Re.literal " of experience")%list
    ((if plural then "years" else "year") ++ " of experience" ++ rest)
    captured = Some captured.
Proof. destruct plural; reflexivity. Qed.

Lemma match_here_spaces_years (ws : string) (plural : bool)
  (rest captured : string) :
  Spec.all_space ws = true ->
  Re.match_here
    (ResumeParse.spaces ++ ResumeParse.years
       ++ Re.literal " of experience")%list
    (ws ++ (if plural then "years" else "year") ++ " of experience" ++ rest)
    captured = Some captured.
Proof.
  intros Hws. rewrite all_space_every in Hws.
  cbn [ResumeParse.spaces app Re.match_here Re.item Re.p_quantifier Re.p_atom
       Re.in_group].
  apply greedy_run; [exact Hws |].
  destruct plural; reflexivity.
Qed.

Lemma greedy_stop (a : Re.atom) (k : string -> string -> option string)
  (c : ascii) (s taken : string) :
  Re.atom_matches a c = false ->
  Re.greedy a k (String c s) taken = k (String c s) taken.
Proof. intros H. cbn [Re.greedy]. rewrite H. reflexivity. Qed.

Lemma match_here_optional_taken (a : Re.atom) (q : Re.pattern) (c : ascii)
  (s captured g : string) :
  Re.atom_matches a c = true ->
  Re.match_here q s captured = Some g ->
  Re.match_here (Re.item a Re.Optional :: q) (String c s) captured = Some g.
Proof.
  intros Hc H.
  cbn [Re.match_here Re.item Re.p_quantifier Re.p_atom Re.in_group].
  rewrite Hc, H. reflexivity.
Qed.

Lemma match_here_optional_skipped (a : Re.atom) (q : Re.pattern) (c : ascii)
  (s captured : string) :
  Re.atom_matches a c = false ->
  Re.match_here (Re.item a Re.Optional :: q) (String c s) captured
    = Re.match_here q (String c s) captured.
Proof.
  intros Hc.
  cbn [Re.match_here Re.item Re.p_quantifier Re.p_atom Re.in_group].
  rewrite Hc. reflexivity.
Qed.

Lemma match_here_after_digits (plus : bool) (ws : string) (plural : bool)
  (rest captured : string) :
  Spec.all_space ws = true ->
  Re.match_here
    (ResumeParse.optional_plus ++ ResumeParse.spaces ++ ResumeParse.years
       ++ Re.literal " of experience")%list
    (Text.states_years plus ws plural rest) captured = Some captured.
Proof.
  intros Hws. unfold Text.states_years, ResumeParse.optional_plus.
  cbn [app]. destruct plus.
  - cbn [append]. apply match_here_optional_taken; [reflexivity |].
    apply match_here_spaces_years, Hws.
  - cbn [append]. destruct ws as [|x ws].
    + destruct plural; reflexivity.
    + pose proof Hws as Hx. cbn [Spec.all_space] in Hx.
      apply andb_true_iff in Hx. destruct Hx as [Hx _].
      destruct (space_not_digit_plus x Hx) as [_ Hp].
      cbn [append]. rewrite match_here_optional_skipped by exact Hp.
      exact (match_here_spaces_years (String x ws) plural rest captured Hws).
Qed.

Lemma states_years_first (plus : bool) (ws : string) (plural : bool)
  (rest : string) :
  Spec.all_space ws = true ->
  exists x s,
    Text.states_years plus ws plural rest = String x s /\
    Text.is_digit x = false.
Proof.
  intros Hws. unfold Text.states_years. destruct plus.
  - eexists. eexists. split; reflexivity.
  - destruct ws as [|x ws].
    + destruct plural; eexists; eexists; split; reflexivity.
    + cbn [Spec.all_space] in Hws. apply andb_true_iff in Hws.
      destruct Hws as [Hx _].
      destruct (space_not_digit_plus x Hx) as [Hd _].
      eexists. eexists. split; [reflexivity | exact Hd].
Qed.

(** The first pattern finds the digits in front of the phrase. *)
Lemma search_states_years (before digits : string) (plus : bool)
  (ws : string) (plural : bool) (rest : string) :
  Text.has_digit before = false ->
  digits <> "" -> Text.all_digits digits = true ->
  Spec.all_space ws = true ->
  Re.search
    (ResumeParse.digits_group ++ ResumeParse.optional_plus
       ++ ResumeParse.spaces ++ ResumeParse.years
       ++ Re.literal " of experience")%list
    (before ++ digits ++ Text.states_years plus ws plural rest)
  = Some digits.
Proof.
  intros Hb Hne Hd Hws.
  change (ResumeParse.digits_group ++ ?q)%list
    with (Re.group Re.Digit Re.OneOrMore :: q).
  rewrite (search_skips_no_digit _ before _ Hb).
  destruct digits as [|c digits]; [congruence |].
  pose proof Hd as Hc. cbn [Text.all_digits Text.every] in Hc.
  apply andb_true_iff in Hc. destruct Hc as [Hc Hd'].
  assert (Hm :
    Re.match_here
      (Re.group Re.Digit Re.OneOrMore
         :: (ResumeParse.optional_plus ++ ResumeParse.spaces
               ++ ResumeParse.years ++ Re.literal " of experience")%list)
      (String c digits ++ Text.states_years plus ws plural rest) ""
    = Some (String c digits)).
  { set (q := (ResumeParse.optional_plus ++ ResumeParse.spaces
                 ++ ResumeParse.years ++ Re.literal " of experience")%list).
    cbn [Re.match_here Re.group Re.p_quantifier Re.p_atom Re.in_group append].
    unfold Text.is_digit in Hc. rewrite Hc.
    apply greedy_run; [exact Hd' |].
    destruct (states_years_first plus ws plural rest Hws)
      as (x & s & E & Hx).
    pose proof (match_here_after_digits plus ws plural rest
                  (String c "" ++ digits) Hws) as Hq.
    fold q in Hq. rewrite E in Hq |- *.
    rewrite greedy_stop by exact Hx. exact Hq. }
  cbn [append] in Hm |- *.
  change (Re.search ?q (String c ?t))
    with (match Re.match_here q (String c t) "" with
          | Some g => Some g
          | None => Re.search q t
          end).
  rewrite Hm. reflexivity.
Qed.

Lemma lower_states_years (plus : bool) (ws : string) (plural : bool)
  (rest : string) :
  Spec.all_space ws = true ->
  Str.lower (Text.states_years plus ws plural rest)
    = Text.states_years plus ws plural (Str.lower rest).
Proof.
  intros Hws. unfold Text.states_years.
  rewrite !lower_append, (lower_spaces ws Hws).
  destruct plus, plural; reflexivity.
Qed.

Lemma lower_no_digit (s : string) :
  Text.has_digit s = false -> Text.has_digit (Str.lower s) = false.
Proof. rewrite lower_has_digit. exact (fun H => H). Qed.

Lemma extract_experience_years_states (before digits : string) (plus : bool)
  (ws : string) (plural : bool) (rest : string) :
  Text.has_digit before = false ->
  digits <> "" -> Text.all_digits digits = true ->
  Spec.all_space ws = true ->
  ResumeParse.extract_experience_years
    (before ++ digits ++ Text.states_years plus ws plural rest)
  = Slice.int_of_digits digits.
Proof.
  intros Hb Hne Hd Hws. unfold ResumeParse.extract_experience_years.
  rewrite !lower_append, (lower_digits digits Hd),
    (lower_states_years plus ws plural rest Hws).
  unfold ResumeParse.patterns. cbn [ResumeParse.first_match].
  rewrite (search_states_years (Str.lower before) digits plus ws plural
             (Str.lower rest) (lower_no_digit before Hb) Hne Hd Hws).
  reflexivity.
Qed.

(** X14. A text whose first digits are a number [n] followed by an optional
    plus sign, whitespace, "year" or "years" and " of experience" gives [n]
    years of experience, when [n] has at most 4300 digits. *)
Theorem extract_experience_years_reads :
  forall (before : string) (n : Z) (plus : bool) (ws : string)
         (plural : bool) (rest : string),
    Text.has_digit before = false ->
    0 <= n ->
    (String.length (Str.of_int n) <= Slice.int_max_str_digits)%nat ->
    Spec.all_space ws = true ->
    ResumeParse.extract_experience_years
      (before ++ Str.of_int n ++ Text.states_years plus ws plural rest)
    = Ok n.
Proof.
  intros before n plus ws plural rest Hb Hn Hl Hws.
  destruct (of_int_digits n Hn) as [Hne Hd].
  rewrite (extract_experience_years_states before (Str.of_int n) plus ws
             plural rest Hb Hne Hd Hws).
  apply int_of_digits_of_int, Hl.
Qed.

Lemma extract_experience_years_reads_witness :
  ResumeParse.extract_experience_years
    ("Engineer with " ++ Str.of_int 12
       ++ Text.states_years true " " true " in Python and 3 in Go")
  = Ok 12.
Proof.
  apply (extract_experience_years_reads "Engineer with " 12 true " " true
           " in Python and 3 in Go").
  - vm_compute. reflexivity.
  - lia.
  - apply Nat.leb_le. vm_compute. reflexivity.
  - vm_compute. reflexivity.
Defined.

(** X15. When the digits in front of the phrase are more than 4300, the
    conversion to [int] fails and [extract_experience_years] raises
    [ValueError] instead of returning a number. *)
Theorem extract_experience_years_digit_limit :
  forall (before digits : string) (plus : bool) (ws : string)
         (plural : bool) (rest : string),
    Text.has_digit before = false ->
    Text.all_digits digits = true ->
    (Slice.int_max_str_digits < String.length digits)%nat ->
    Spec.all_space ws = true ->
    ResumeParse.extract_experience_years
      (before ++ digits ++ Text.states_years plus ws plural rest)
    = Raise ValueError.
Proof.
  intros before digits plus ws plural rest Hb Hd Hl Hws.
  assert (Hne : digits <> "").
  { intros ->. cbn [String.length] in Hl. lia. }
  rewrite (extract_experience_years_states before digits plus ws plural rest
             Hb Hne Hd Hws).
  apply int_of_digits_long, Hl.
Qed.

Lemma extract_experience_years_digit_limit_witness :
  ResumeParse.extract_experience_years
    ("" ++ string_of_list_ascii (repeat "1"%char 4301)
       ++ Text.states_years false " " true "")
  = Raise ValueError.
Proof.
  apply (extract_experience_years_digit_limit ""
           (string_of_list_ascii (repeat "1"%char 4301)) false " " true "").
  - reflexivity.
  - vm_compute. reflexivity.
  - apply Nat.ltb_lt. vm_compute. reflexivity.
  - reflexivity.
Defined.

(** ** File names and their extension *)

Lemma upto_from (n : nat) (s : string) :
  Slice.upto n s ++ Slice.from n s = s.
Proof.
  revert s. induction n as [|n IH]; intros [|c s];
    cbn [Slice.upto Slice.from append]; try reflexivity.
  rewrite IH. reflexivity.
Qed.

Lemma upto_length_append (a b : string) :
  Slice.upto (String.length a) (a ++ b) = a.
Proof.
  induction a as [|c a IH]; cbn [String.length append Slice.upto].
  - destruct b; reflexivity.
  - rewrite IH. reflexivity.
Qed.

Lemma from_length_append (a b : string) :
  Slice.from (String.length a) (a ++ b) = b.
Proof.
  induction a as [|c a IH]; cbn [String.length append Slice.from].
  - destruct b; reflexivity.
  - exact IH.
Qed.

Lemma from_append (n : nat) (a b : string) :
  (n <= String.length a)%nat ->
  Slice.from n (a ++ b) = Slice.from n a ++ b.
Proof.
  revert a. induction n as [|n IH]; intros a H.
  - destruct a; cbn [Slice.from append]; [destruct b |]; reflexivity.
  - destruct a as [|c a]; cbn [String.length] in H; [lia |].
    cbn [append Slice.from]. apply IH. lia.
Qed.

Lemma length_from (n : nat) (s : string) :
  String.length (Slice.from n s) = (String.length s - n)%nat.
Proof.
  revert s. induction n as [|n IH]; intros [|c s];
    cbn [Slice.from String.length]; try lia.
  rewrite IH. reflexivity.
Qed.

Lemma rfind_from_append (i : Z) (p : ascii -> bool) (a b : string)
  (last : Z) :
  Path.rfind_from i p (a ++ b) last
    = Path.rfind_from (i + Z.of_nat (String.length a)) p b
        (Path.rfind_from i p a last).
Proof.
  revert i last. induction a as [|c a IH]; intros i last;
    cbn [append Path.rfind_from String.length].
  - f_equal. lia.
  - rewrite IH. f_equal. lia.
Qed.

Lemma rfind_from_none (i : Z) (p : ascii -> bool) (s : string) (last : Z) :
  Text.some p s = false -> Path.rfind_from i p s last = last.
Proof.
  revert i. induction s as [|c s IH]; intros i; cbn [Text.some Path.rfind_from];
    [reflexivity |].
  intros H. apply orb_false_iff in H. destruct H as [-> H]. apply IH, H.
Qed.

Lemma rfind_from_bounds (i : Z) (p : ascii -> bool) (s : string) (last : Z) :
  last < i ->
  Path.rfind_from i p s last = last \/
  i <= Path.rfind_from i p s last < i + Z.of_nat (String.length s).
Proof.
  revert i last. induction s as [|c s IH]; intros i last H;
    cbn [Path.rfind_from String.length]; [left; reflexivity |].
  destruct (p c).
  - right. destruct (IH (i + 1) i ltac:(lia)) as [-> | H']; lia.
  - destruct (IH (i + 1) last ltac:(lia)) as [-> | H']; [left; reflexivity |].
    right. lia.
Qed.

Lemma not_all_dots_after (a : string) (c : ascii) (rest : string) :
  c <> "."%char ->
  Path.not_all_dots (S (String.length a)) (a ++ String c rest) = true.
Proof.
  intros Hc. induction a as [|x a IH]; cbn [String.length append].
  - cbn [Path.not_all_dots]. apply Ascii.eqb_neq in Hc. rewrite Hc.
    reflexivity.
  - change (Path.not_all_dots (S (S (String.length a)))
              (String x (a ++ String c rest)))
      with (negb (Ascii.eqb x ".")
            || Path.not_all_dots (S (String.length a)) (a ++ String c rest)).
    rewrite IH. apply orb_true_r.
Qed.

Lemma not_all_dots_positive (n : nat) (s : string) :
  Path.not_all_dots n s = true -> (0 < n)%nat.
Proof. destruct n; [destruct s; discriminate | lia]. Qed.

(** The two parts [splitext] returns make up the path, and a root is left
    when there is an extension. *)
Lemma splitext_parts (os : Path.platform) (p : string) :
  fst (Path.splitext os p) ++ snd (Path.splitext os p) = p /\
  (snd (Path.splitext os p) <> "" -> fst (Path.splitext os p) <> "").
Proof.
  unfold Path.splitext.
  set (sepIndex := Path.rfind (Path.is_sep os) p).
  set (dotIndex := Path.rfind (fun c => Ascii.eqb c ".") p).
  destruct ((sepIndex <? dotIndex)
            && Path.not_all_dots (Z.to_nat (dotIndex - (sepIndex + 1)))
                 (Slice.from (Z.to_nat (sepIndex + 1)) p)) eqn:E;
    cbn [fst snd].
  - split; [apply upto_from |]. intros _.
    apply andb_true_iff in E. destruct E as [_ E].
    apply not_all_dots_positive in E.
    assert (Hs : -1 <= sepIndex).
    { unfold sepIndex, Path.rfind.
      destruct (rfind_from_bounds 0 (Path.is_sep os) p (-1)) as [-> | H];
        lia. }
    destruct p as [|c p].
    + unfold dotIndex, Path.rfind in E. cbn [Path.rfind_from] in E. lia.
    + destruct (Z.to_nat dotIndex) eqn:En; [lia |]. discriminate.
  - split; [apply append_nil_r | congruence].
Qed.

(** Lowercasing changes neither a separator nor a dot, and makes none. *)
Lemma lower_char_plain (os : Path.platform) (c : ascii) :
  Path.is_sep os (Str.lower_char c) = Path.is_sep os c /\
  Ascii.eqb (Str.lower_char c) "." = Ascii.eqb c ".".
Proof.
  destruct os; destruct c as [[] [] [] [] [] [] [] []]; vm_compute;
    split; reflexivity.
Qed.

Lemma lower_some_plain (os : Path.platform) (s : string) :
  Text.some (Path.is_sep os) (Str.lower s) = Text.some (Path.is_sep os) s /\
  Text.some (fun c => Ascii.eqb c ".") (Str.lower s)
    = Text.some (fun c => Ascii.eqb c ".") s.
Proof.
  induction s as [|c s [IH1 IH2]]; cbn [Str.lower Text.some];
    [split; reflexivity |].
  destruct (lower_char_plain os c) as [-> ->]. rewrite IH1, IH2.
  split; reflexivity.
Qed.

(** An accepted extension is a dot followed by letters. *)
Lemma accepted_extension (os : Path.platform) (ext : string) :
  In (Str.lower ext) [".pdf"; ".docx"; ".doc"; ".txt"] ->
  exists e,
    ext = String "." e /\
    Text.some (Path.is_sep os) e = false /\
    Text.some (fun c => Ascii.eqb c ".") e = false.
Proof.
  intros H. destruct ext as [|c e].
  - cbn in H. repeat (destruct H as [H | H]; [discriminate H |]).
    destruct H.
  - exists e.
    assert (Hc : Str.lower_char c = "."%char /\
                 In (Str.lower e) ["pdf"; "docx"; "doc"; "txt"]).
    { cbn [Str.lower In] in H |- *.
      repeat (destruct H as [H | H];
              [injection H as <- <-; split;
               [reflexivity | repeat (first [left; reflexivity | right])] |]).
      destruct H. }
    destruct Hc as [Hc He].
    destruct (lower_char_plain os c) as [_ Hdot].
    rewrite Hc in Hdot. cbn in Hdot. symmetry in Hdot.
    apply Ascii.eqb_eq in Hdot. subst c.
    destruct (lower_some_plain os e) as [<- <-].
    split; [reflexivity |].
    cbn [In] in He.
    repeat (destruct He as [He | He];
            [rewrite <- He; destruct os; split; reflexivity |]).
    destruct He.
Qed.

(** [splitext] on a name that ends in an accepted extension after a
    character that is neither a dot nor a separator. *)
Lemma splitext_accepted (os : Path.platform) (root : string) (c : ascii)
  (ext : string) :
  Path.is_sep os c = false -> c <> "."%char ->
  In (Str.lower ext) [".pdf"; ".docx"; ".doc"; ".txt"] ->
  Path.splitext os (root ++ String c ext) = (root ++ String c "", ext).
Proof.
  intros Hsep Hdot Hext.
  destruct (accepted_extension os ext Hext) as (e & -> & He1 & He2).
  assert (Hdotsep : Path.is_sep os "." = false) by (destruct os; reflexivity).
  pose proof Hdot as Hdot'. apply Ascii.eqb_neq in Hdot'.
  unfold Path.splitext, Path.rfind.
  rewrite !rfind_from_append. cbn [Path.rfind_from].
  rewrite Hsep, Hdotsep, Hdot', Ascii.eqb_refl.
  rewrite (rfind_from_none _ (Path.is_sep os) e _ He1).
  rewrite (rfind_from_none _ (fun c => Ascii.eqb c ".") e _ He2).
  set (n := String.length root).
  set (sepIndex := Path.rfind_from 0 (Path.is_sep os) root (-1)).
  assert (Hs : -1 <= sepIndex < Z.of_nat n).
  { unfold sepIndex, n.
    destruct (rfind_from_bounds 0 (Path.is_sep os) root (-1)) as [-> | H];
      lia. }
  replace (sepIndex <? 0 + Z.of_nat n + 1) with true
    by (symmetry; apply Z.ltb_lt; lia).
  cbn [andb].
  replace (Z.to_nat (0 + Z.of_nat n + 1)) with (String.length (root ++ String c ""))
    by (rewrite length_append; cbn [String.length]; unfold n; lia).
  replace (root ++ String c (String "." e))
    with ((root ++ String c "") ++ String "." e)
    by (rewrite append_assoc; reflexivity).
  rewrite upto_length_append, from_length_append.
  rewrite append_assoc. cbn [append].
  rewrite from_append by (unfold n in Hs; lia).
  replace (Z.to_nat (0 + Z.of_nat n + 1 - (sepIndex + 1)))
    with (S (String.length (Slice.from (Z.to_nat (sepIndex + 1)) root)))
    by (rewrite length_from; fold n; lia).
  rewrite (not_all_dots_after _ c _ Hdot). reflexivity.
Qed.

(** ** Resume parsing *)

Lemma strip_blank (s : string) :
  Spec.all_space s = true -> Slice.strip s = "".
Proof.
  intros H. unfold Slice.strip.
  assert (E : Slice.lstrip s = "").
  { induction s as [|c s IH]; cbn [Slice.lstrip]; [reflexivity |].
    cbn [Spec.all_space] in H. apply andb_true_iff in H.
    destruct H as [-> H]. apply IH, H. }
  rewrite E. reflexivity.
Qed.

Lemma all_space_append (a b : string) :
  Spec.all_space (a ++ b) = Spec.all_space a && Spec.all_space b.
Proof.
  induction a as [|c a IH]; cbn [append Spec.all_space]; [reflexivity |].
  rewrite IH. apply andb_assoc.
Qed.

Lemma join_all_space (paragraphs : list string) :
  Forall (fun t => Spec.all_space t = true) paragraphs ->
  Spec.all_space (Slice.join (String "010" "") paragraphs) = true.
Proof.
  induction 1 as [|t paragraphs Ht _ IH]; [reflexivity |].
  destruct paragraphs as [|t' paragraphs]; [exact Ht |].
  change (Slice.join ?sep (t :: t' :: paragraphs))
    with (t ++ sep ++ Slice.join sep (t' :: paragraphs)).
  rewrite !all_space_append, Ht, IH. reflexivity.
Qed.

Lemma pages_all_space (pages : list (option string)) (text : string) :
  Forall (fun page => forall t, page = Some t -> Spec.all_space t = true)
    pages ->
  Spec.all_space text = true ->
  Spec.all_space
    (fold_left
       (fun text page =>
          text ++ match page with
                  | Some t => t
                  | None => EmptyString
                  end)
       pages text) = true.
Proof.
  intros H. revert text. induction H as [|page pages Hp _ IH];
    intros text Ht; cbn [fold_left]; [exact Ht |].
  apply IH. rewrite all_space_append, Ht.
  destruct page as [t|]; [apply (Hp t eq_refl) | reflexivity].
Qed.

Lemma filename_or_resume (s : string) :
  s <> "" ->
  match s with
  | EmptyString => "resume"
  | String c f => String c f
  end = s.
Proof. destruct s; [congruence | reflexivity]. Qed.

Lemma append_not_empty (a : string) (c : ascii) (b : string) :
  a ++ String c b <> "".
Proof. destruct a; discriminate. Qed.

Lemma mem_In (x : string) (l : list string) :
  ResumeParse.mem x l = true <-> In x l.
Proof.
  unfold ResumeParse.mem. rewrite existsb_exists. split.
  - intros (y & Hy & E). apply String.eqb_eq in E. subst y. exact Hy.
  - intros H. exists x. split; [exact H | apply String.eqb_refl].
Qed.

(** What [parse_resume] does with a name it accepts. *)
Lemma parse_resume_accepted (os : Path.platform)
  (pdf_pages : string -> list (option string) + string)
  (docx_paragraphs : string -> list string + string)
  (read_text : string -> string)
  (root : string) (c : ascii) (ext content : string)
  (tmp_path : string) (files : Fs.t) :
  Path.is_sep os c = false -> c <> "."%char ->
  In (Str.lower ext) [".pdf"; ".docx"; ".doc"; ".txt"] ->
  fst (ResumeParse.parse_resume os pdf_pages docx_paragraphs read_text
         (Some (root ++ String c ext)) content tmp_path files)
  = (text <-
       (if String.eqb (Str.lower ext) ".pdf"
        then ResumeParse.extract_text_from_pdf pdf_pages content
        else if ResumeParse.mem (Str.lower ext) [".docx"; ".doc"]
             then ResumeParse.extract_text_from_docx docx_paragraphs content
             else Ok (read_text content)) ;;
     match Slice.strip text with
     | EmptyString =>
         Raise (HTTPException 422
                  "Could not extract text from resume. Is it a scanned image?")
     | _ =>
         experience_years <- ResumeParse.extract_experience_years text ;;
         Ok {| ResumeParse.filename := root ++ String c ext;
               ResumeParse.skills := Resume.extract_skills text;
               ResumeParse.experience_years := experience_years;
               ResumeParse.text_preview :=
                 if (300 <? String.length text)%nat
                 then Slice.upto 300 text ++ "..."
                 else text;
               ResumeParse.skill_count :=
                 Z.of_nat
                   (List.length (Resume.all (Resume.extract_skills text))) |}
     end).
Proof.
  intros Hsep Hdot Hext.
  unfold ResumeParse.parse_resume. cbv zeta.
  rewrite (filename_or_resume _ (append_not_empty root c ext)).
  rewrite (splitext_accepted os root c ext Hsep Hdot Hext). cbn [snd].
  apply mem_In in Hext. rewrite Hext. cbn [negb fst]. reflexivity.
Qed.



(** X17. [parse_resume] answers 400 unless the upload has a name that ends
    in [.pdf], [.docx], [.doc] or [.txt], in any letter case, after a root
    that is not empty: an upload with no name, and one named just [.pdf],
    are turned down. *)
Theorem parse_resume_unsupported_type :
  forall (os : Path.platform)
         (pdf_pages : string -> list (option string) + string)
         (docx_paragraphs : string -> list string + string)
         (read_text : string -> string)
         (file_filename : option string) (content tmp_path : string)
         (files : Fs.t),
    fst (ResumeParse.parse_resume os pdf_pages docx_paragraphs read_text
           file_filename content tmp_path files)
      <> Raise (HTTPException 400
                  "Unsupported file type. Please upload PDF, DOCX, or TXT.") ->
    exists root ext,
      file_filename = Some (root ++ ext) /\
      root <> "" /\
      In (Str.lower ext) [".pdf"; ".docx"; ".doc"; ".txt"].
Proof.
  intros os pdf_pages docx_paragraphs read_text file_filename content
    tmp_path files H.
  unfold ResumeParse.parse_resume in H. cbv zeta in H.
  set (filename := match file_filename with
                   | Some (String c f) => String c f
                   | _ => "resume"
                   end) in H.
  destruct (ResumeParse.mem (Str.lower (snd (Path.splitext os filename)))
              [".pdf"; ".docx"; ".doc"; ".txt"]) eqn:E;
    cbn [negb fst] in H; [| congruence].
  apply mem_In in E.
  destruct (splitext_parts os filename) as [Hparts Hroot].
  assert (Hext : snd (Path.splitext os filename) <> "").
  { intros E'. rewrite E' in E. cbn in E.
    repeat (destruct E as [E | E]; [discriminate E |]). destruct E. }
  assert (Hname : file_filename = Some filename).
  { destruct file_filename as [[|c f]|]; [| reflexivity |];
      exfalso; apply Hext; subst filename; destruct os; reflexivity. }
  exists (fst (Path.splitext os filename)), (snd (Path.splitext os filename)).
  rewrite Hparts. split; [exact Hname |]. split; [exact (Hroot Hext) | exact E].
Qed.

Lemma parse_resume_unsupported_type_witness :
  exists root ext,
    Some "notes/Resume.TXT" = Some (root ++ ext) /\
    root <> "" /\
    In (Str.lower ext) [".pdf"; ".docx"; ".doc"; ".txt"].
Proof.
  apply (parse_resume_unsupported_type Path.Posix
           (fun _ => inr "EOF marker not found") (fun _ => inl [])
           (fun content => content)
           (Some "notes/Resume.TXT") "Python and SQL" "/tmp/tmpq7.txt" []).
  vm_compute. discriminate.
Defined.

(** X18. An accepted upload with no text in it is answered 422 with the
    scanned-image message: a text file of whitespace, a PDF whose pages give
    no text or whitespace only, a DOCX or DOC file whose paragraphs are
    blank. *)
Theorem parse_resume_blank_text :
  forall (os : Path.platform)
         (pdf_pages : string -> list (option string) + string)
         (docx_paragraphs : string -> list string + string)
         (read_text : string -> string)
         (root : string) (c : ascii) (ext content tmp_path : string)
         (files : Fs.t),
    Path.is_sep os c = false -> c <> "."%char ->
    (Str.lower ext = ".txt" /\ Spec.all_space (read_text content) = true) \/
    (Str.lower ext = ".pdf" /\
     exists pages,
       pdf_pages content = inl pages /\
       Forall (fun page => forall t, page = Some t -> Spec.all_space t = true)
         pages) \/
    ((Str.lower ext = ".docx" \/ Str.lower ext = ".doc") /\
     exists paragraphs,
       docx_paragraphs content = inl paragraphs /\
       Forall (fun t => Spec.all_space t = true) paragraphs) ->
    fst (ResumeParse.parse_resume os pdf_pages docx_paragraphs read_text
           (Some (root ++ String c ext)) content tmp_path files)
    = Raise (HTTPException 422
               "Could not extract text from resume. Is it a scanned image?").
Proof.
  intros os pdf_pages docx_paragraphs read_text root c ext content tmp_path
    files Hsep Hdot H.
  assert (Hext : In (Str.lower ext) [".pdf"; ".docx"; ".doc"; ".txt"]).
  { cbn [In]. destruct H as [[-> _] | [[-> _] | [[-> | ->] _]]]; auto. }
  rewrite (parse_resume_accepted _ _ _ _ _ _ _ _ _ _ Hsep Hdot Hext).
  destruct H as [[E Hblank] | [[E (pages & Hp & Hblank)]
                              | [E (paragraphs & Hp & Hblank)]]].
  - rewrite E. cbn [String.eqb Ascii.eqb Bool.eqb ResumeParse.mem existsb orb
                      bind].
    rewrite (strip_blank _ Hblank). reflexivity.
  - rewrite E. cbn [String.eqb Ascii.eqb Bool.eqb].
    unfold ResumeParse.extract_text_from_pdf. rewrite Hp. cbn [bind].
    rewrite (strip_blank _ (pages_all_space pages "" Hblank eq_refl)).
    reflexivity.
  - assert (Em : (if String.eqb (Str.lower ext) ".pdf"
                  then ResumeParse.extract_text_from_pdf pdf_pages content
                  else if ResumeParse.mem (Str.lower ext) [".docx"; ".doc"]
                       then ResumeParse.extract_text_from_docx docx_paragraphs
                              content
                       else Ok (read_text content))
                 = ResumeParse.extract_text_from_docx docx_paragraphs content).
    { destruct E as [-> | ->]; reflexivity. }
    rewrite Em. unfold ResumeParse.extract_text_from_docx. rewrite Hp.
    cbn [bind]. rewrite (strip_blank _ (join_all_space paragraphs Hblank)).
    reflexivity.
Qed.

Lemma parse_resume_blank_text_witness :
  fst (ResumeParse.parse_resume Path.Windows
         (fun _ => inl [None; Some " "; None]) (fun _ => inl [])
         (fun content => content)
         (Some ("C:\uploads\sca" ++ String "n" ".PDF")) "%PDF-1.7"
         "C:\tmp\tmp1.pdf" [])
  = Raise (HTTPException 422
             "Could not extract text from resume. Is it a scanned image?").
Proof.
  apply (parse_resume_blank_text Path.Windows
           (fun _ => inl [None; Some " "; None]) (fun _ => inl [])
           (fun content => content)
           "C:\uploads\sca" "n" ".PDF" "%PDF-1.7" "C:\tmp\tmp1.pdf" []).
  - reflexivity.
  - discriminate.
  - right. left. split; [reflexivity |].
    eexists. split; [reflexivity |].
    repeat constructor; intros t Ht; try discriminate Ht.
    injection Ht as <-. reflexivity.
Defined.

(** X19. An accepted PDF, DOCX or DOC upload that the document library
    cannot read is answered 422 with the message of the library after
    "Could not read PDF: " or "Could not read DOCX: "; a DOC file goes to
    the DOCX reader. *)
Theorem parse_resume_unreadable_document :
  forall (os : Path.platform)
         (pdf_pages : string -> list (option string) + string)
         (docx_paragraphs : string -> list string + string)
         (read_text : string -> string)
         (root : string) (c : ascii) (ext content tmp_path e detail : string)
         (files : Fs.t),
    Path.is_sep os c = false -> c <> "."%char ->
    (Str.lower ext = ".pdf" /\ pdf_pages content = inr e /\
     detail = "Could not read PDF: " ++ e) \/
    ((Str.lower ext = ".docx" \/ Str.lower ext = ".doc") /\
     docx_paragraphs content = inr e /\
     detail = "Could not read DOCX: " ++ e) ->
    fst (ResumeParse.parse_resume os pdf_pages docx_paragraphs read_text
           (Some (root ++ String c ext)) content tmp_path files)
    = Raise (HTTPException 422 detail).
Proof.
  intros os pdf_pages docx_paragraphs read_text root c ext content tmp_path
    e detail files Hsep Hdot H.
  assert (Hext : In (Str.lower ext) [".pdf"; ".docx"; ".doc"; ".txt"]).
  { cbn [In]. destruct H as [[-> _] | [[-> | ->] _]]; auto. }
  rewrite (parse_resume_accepted _ _ _ _ _ _ _ _ _ _ Hsep Hdot Hext).
  destruct H as [(E & Hp & ->) | (E & Hp & ->)].
  - rewrite E. cbn [String.eqb Ascii.eqb Bool.eqb].
    unfold ResumeParse.extract_text_from_pdf. rewrite Hp. reflexivity.
  - assert (Em : (if String.eqb (Str.lower ext) ".pdf"
                  then ResumeParse.extract_text_from_pdf pdf_pages content
                  else if ResumeParse.mem (Str.lower ext) [".docx"; ".doc"]
                       then ResumeParse.extract_text_from_docx docx_paragraphs
                              content
                       else Ok (read_text content))
                 = ResumeParse.extract_text_from_docx docx_paragraphs content).
    { destruct E as [-> | ->]; reflexivity. }
    rewrite Em. unfold ResumeParse.extract_text_from_docx. rewrite Hp.
    reflexivity.
Qed.

Lemma parse_resume_unreadable_document_witness :
  fst (ResumeParse.parse_resume Path.Posix
         (fun _ => inl []) (fun _ => inr "File is not a zip file")
         (fun content => content)
         (Some ("lette" ++ String "r" ".doc")) "Dear Sir" "/tmp/tmp9.doc" [])
  = Raise (HTTPException 422 "Could not read DOCX: File is not a zip file").
Proof.
  apply (parse_resume_unreadable_document Path.Posix
           (fun _ => inl []) (fun _ => inr "File is not a zip file")
           (fun content => content)
           "lette" "r" ".doc" "Dear Sir" "/tmp/tmp9.doc"
           "File is not a zip file"
           "Could not read DOCX: File is not a zip file" []).
  - reflexivity.
  - discriminate.
  - right. split; [right; reflexivity |]. split; reflexivity.
Defined.

(** ** What the resume handlers return *)


Lemma int_of_digits_ok_nonneg (s : string) (n : Z) :
  s <> "" -> Text.all_digits s = true ->
  Slice.int_of_digits s = Ok n -> 0 <= n.
Proof.
  intros Hne Hd H.
  destruct (Nat.le_gt_cases (String.length s) Slice.int_max_str_digits)
    as [Hl | Hl].
  - destruct (int_of_digits_nonneg s Hne Hd Hl) as (n' & E & Hn).
    congruence.
  - rewrite (int_of_digits_long s Hl) in H. discriminate H.
Qed.

Lemma extract_experience_years_nonneg (text : string) (n : Z) :
  ResumeParse.extract_experience_years text = Ok n -> 0 <= n.
Proof.
  unfold ResumeParse.extract_experience_years.
  generalize (Str.lower text). intros s.
  pose proof patterns_digit_groups as Hps.
  induction Hps as [|p ps [Hp Hex] _ IH]; cbn [ResumeParse.first_match].
  - intros H. injection H as <-. lia.
  - destruct (Re.search p s) as [g|] eqn:E; [| exact IH].
    destruct (search_captures_digits p s g Hp Hex E) as (Hne & Hd & _).
    apply int_of_digits_ok_nonneg; assumption.
Qed.


Lemma length_upto (n : nat) (s : string) :
  (String.length (Slice.upto n s) <= n)%nat.
Proof.
  revert s. induction n as [|n IH]; intros [|c s];
    cbn [Slice.upto String.length]; try lia.
  specialize (IH s). lia.
Qed.

(** A successful [parse_resume], taken apart. *)
Lemma parse_resume_inv (os : Path.platform)
  (pdf_pages : string -> list (option string) + string)
  (docx_paragraphs : string -> list string + string)
  (read_text : string -> string)
  (file_filename : option string) (content tmp_path : string)
  (files : Fs.t) (r : ResumeParse.parsed) :
  fst (ResumeParse.parse_resume os pdf_pages docx_paragraphs read_text
         file_filename content tmp_path files) = Ok r ->
  exists text,
    file_filename = Some (ResumeParse.filename r) /\
    Slice.strip text <> "" /\
    ResumeParse.skills r = Resume.extract_skills text /\
    ResumeParse.extract_experience_years text
      = Ok (ResumeParse.experience_years r) /\
    ResumeParse.text_preview r
      = (if (300 <? String.length text)%nat
         then Slice.upto 300 text ++ "..."
         else text) /\
    ResumeParse.skill_count r
      = Z.of_nat (List.length (Resume.all (Resume.extract_skills text))).
Proof.
  intros H.
  assert (Hname : exists name,
             file_filename = Some name /\
             match file_filename with
             | Some (String c f) => String c f
             | _ => "resume"
             end = name).
  { destruct file_filename as [[|c f]|]; [| eauto |];
      exfalso; destruct os; vm_compute in H; discriminate H. }
  destruct Hname as (name & Hsome & Hname).
  unfold ResumeParse.parse_resume in H. cbv zeta in H. rewrite Hname in H.
  destruct (negb (ResumeParse.mem _ _)); cbn [fst] in H; [discriminate H |].
  apply bind_inv in H. destruct H as (text & _ & H).
  exists text.
  destruct (Slice.strip text) eqn:Es; [discriminate H |].
  apply bind_inv in H. destruct H as (years & Hy & H).
  pose proof (f_equal (fun x => match x with
                                | Ok a => a
                                | Raise _ => r
                                end) H) as Er.
  cbv beta iota in Er. rewrite <- Er.
  cbn [ResumeParse.filename ResumeParse.skills ResumeParse.experience_years
       ResumeParse.text_preview ResumeParse.skill_count].
  split; [exact Hsome |]. split; [discriminate |].
  split; [reflexivity |]. split; [exact Hy |]. split; reflexivity.
Qed.

(** X20. What a parsed resume holds: the name of the upload, a preview of at
    most 303 characters, as many skills as the technical and the soft list
    have together, at most 77, and a number of years that is not negative. *)
Theorem parse_resume_result :
  forall (os : Path.platform)
         (pdf_pages : string -> list (option string) + string)
         (docx_paragraphs : string -> list string + string)
         (read_text : string -> string)
         (file_filename : option string) (content tmp_path : string)
         (files : Fs.t) (r : ResumeParse.parsed),
    fst (ResumeParse.parse_resume os pdf_pages docx_paragraphs read_text
           file_filename content tmp_path files) = Ok r ->
    file_filename = Some (ResumeParse.filename r) /\
    (String.length (ResumeParse.text_preview r) <= 303)%nat /\
    ResumeParse.skill_count r
      = Z.of_nat (List.length (Resume.technical (ResumeParse.skills r)))
        + Z.of_nat (List.length (Resume.soft (ResumeParse.skills r))) /\
    0 <= ResumeParse.skill_count r <= 77 /\
    0 <= ResumeParse.experience_years r.
Proof.
  intros os pdf_pages docx_paragraphs read_text file_filename content
    tmp_path files r H.
  destruct (parse_resume_inv _ _ _ _ _ _ _ _ _ H)
    as (text & Hname & _ & Hskills & Hyears & Hpreview & Hcount).
  split; [exact Hname |]. split; [| split; [| split]].
  - rewrite Hpreview.
    destruct (300 <? String.length text)%nat eqn:E.
    + rewrite length_append. pose proof (length_upto 300 text) as Hu.
      change (String.length "...") with 3%nat. lia.
    + apply Nat.ltb_ge in E. lia.
  - rewrite Hcount, Hskills. unfold Resume.extract_skills.
    cbn [Resume.all Resume.technical Resume.soft].
    rewrite length_app. lia.
  - rewrite Hcount, extract_skills_all.
    pose proof (filter_length_le
                  (fun skill => Str.contains skill (Str.lower text))
                  (Resume.TECH_SKILLS ++ Resume.SOFT_SKILLS)) as Hle.
    assert (Hv : List.length (Resume.TECH_SKILLS ++ Resume.SOFT_SKILLS)
                 = 77%nat) by (vm_compute; reflexivity).
    lia.
  - exact (extract_experience_years_nonneg text _ Hyears).
Qed.

Lemma parse_resume_result_witness :
  exists r,
    fst (ResumeParse.parse_resume Path.Posix
           (fun _ => inl []) (fun _ => inl []) (fun content => content)
           (Some "cv.txt") "5 years of experience with Python and SQL"
           "/tmp/tmpq7.txt" []) = Ok r /\
    Some "cv.txt" = Some (ResumeParse.filename r) /\
    (String.length (ResumeParse.text_preview r) <= 303)%nat /\
    ResumeParse.skill_count r
      = Z.of_nat (List.length (Resume.technical (ResumeParse.skills r)))
        + Z.of_nat (List.length (Resume.soft (ResumeParse.skills r))) /\
    0 <= ResumeParse.skill_count r <= 77 /\
    0 <= ResumeParse.experience_years r.
Proof.
  eexists. split; [vm_compute; reflexivity |].
  apply (parse_resume_result Path.Posix
           (fun _ => inl []) (fun _ => inl []) (fun content => content)
           (Some "cv.txt") "5 years of experience with Python and SQL"
           "/tmp/tmpq7.txt" []).
  vm_compute. reflexivity.
Defined.

(** X21. What [get_resume_questions] returns: the role asked for, at most
    ten detected skills, all different and from the vocabularies, between
    one and six questions with the motivational question of the role last,
    and skill questions only about the first five detected skills. *)
Theorem get_resume_questions_result :
  forall (os : Path.platform)
         (pdf_pages : string -> list (option string) + string)
         (docx_paragraphs : string -> list string + string)
         (read_text : string -> string)
         (file_filename : option string) (content role tmp_path : string)
         (files : Fs.t) (q : ResumeParse.resume_questions),
    fst (ResumeParse.get_resume_questions os pdf_pages docx_paragraphs
           read_text file_filename content role tmp_path files) = Ok q ->
    ResumeParse.role q = role /\
    (List.length (ResumeParse.detected_skills q) <= 10)%nat /\
    NoDup (ResumeParse.detected_skills q) /\
    incl (ResumeParse.detected_skills q)
      (Resume.TECH_SKILLS ++ Resume.SOFT_SKILLS) /\
    ResumeParse.total_questions q
      = Z.of_nat (List.length (ResumeParse.personalized_questions q)) /\
    1 <= ResumeParse.total_questions q <= 6 /\
    (exists specific,
        ResumeParse.personalized_questions q
          = (specific ++ [Resume.role_question role])%list /\
        Forall (fun pq =>
                  Resume.type pq = "skill-specific" /\
                  In (Resume.skill pq)
                    (firstn 5 (ResumeParse.detected_skills q)))
          specific).
Proof.
  intros os pdf_pages docx_paragraphs read_text file_filename content role
    tmp_path files q H.
  unfold ResumeParse.get_resume_questions in H. cbv zeta in H.
  cbn [fst] in H. apply bind_inv in H. destruct H as (r & Hr & H).
  pose proof (f_equal (fun x => match x with
                                | Ok a => a
                                | Raise _ => q
                                end) H) as Eq.
  cbv beta iota in Eq. rewrite <- Eq. clear H Eq.
  cbn [ResumeParse.role ResumeParse.detected_skills
       ResumeParse.personalized_questions ResumeParse.total_questions].
  destruct (parse_resume_inv _ _ _ _ _ _ _ _ _ Hr)
    as (text & _ & _ & Hskills & _).
  rewrite Hskills. rewrite extract_skills_all.
  set (found := filter (fun skill => Str.contains skill (Str.lower text))
                  (Resume.TECH_SKILLS ++ Resume.SOFT_SKILLS)).
  assert (Hd : NoDup found) by apply NoDup_filter, vocabulary_distinct.
  assert (Hi : incl found (Resume.TECH_SKILLS ++ Resume.SOFT_SKILLS))
    by apply incl_filter.
  split; [reflexivity |].
  split; [rewrite length_firstn; lia |].
  split; [rewrite <- (firstn_skipn 10 found) in Hd;
          exact (NoDup_app_remove_r _ _ Hd) |].
  split; [intros x Hx; apply Hi; rewrite <- (firstn_skipn 10 found);
          apply in_or_app; left; exact Hx |].
  split; [reflexivity |].
  unfold Resume.generate_personalized_questions.
  pose proof (skill_specific_length (firstn 5 found)) as Hlen.
  rewrite length_firstn in Hlen.
  split; [rewrite length_app; cbn [List.length]; lia |].
  exists (Resume.skill_specific (firstn 5 found)).
  split; [reflexivity |].
  rewrite firstn_firstn. change (Nat.min 5 10) with 5%nat.
  eapply Forall_impl; [| apply skill_specific_entries]. cbv beta.
  intros pq (Ht & Hin & _). split; assumption.
Qed.

Lemma get_resume_questions_result_witness :
  exists q,
    fst (ResumeParse.get_resume_questions Path.Posix
           (fun _ => inl []) (fun _ => inl []) (fun content => content)
           (Some "cv.txt") "5 years of experience with Python and SQL"
           "Data Scientist" "/tmp/tmpq7.txt" []) = Ok q /\
    ResumeParse.role q = "Data Scientist" /\
    (List.length (ResumeParse.detected_skills q) <= 10)%nat /\
    NoDup (ResumeParse.detected_skills q) /\
    incl (ResumeParse.detected_skills q)
      (Resume.TECH_SKILLS ++ Resume.SOFT_SKILLS) /\
    ResumeParse.total_questions q
      = Z.of_nat (List.length (ResumeParse.personalized_questions q)) /\
    1 <= ResumeParse.total_questions q <= 6 /\
    (exists specific,
        ResumeParse.personalized_questions q
          = (specific ++ [Resume.role_question "Data Scientist"])%list /\
        Forall (fun pq =>
                  Resume.type pq = "skill-specific" /\
                  In (Resume.skill pq)
                    (firstn 5 (ResumeParse.detected_skills q)))
          specific).
Proof.
  eexists. split; [vm_compute; reflexivity |].
  apply (get_resume_questions_result Path.Posix
           (fun _ => inl []) (fun _ => inl []) (fun content => content)
           (Some "cv.txt") "5 years of experience with Python and SQL"
           "Data Scientist" "/tmp/tmpq7.txt" []).
  vm_compute. reflexivity.
Defined.


